(** * SCN: the training harness [train.py] and its helpers [utils.py]

    A shallow embedding of the two Python scripts of the repository and the
    properties of their glue code: dataset selection, feature caching on the
    file system, the [MusicData] dataset adapter, command-line parsing, the
    call of [utils.load_data] from the training script and the per-epoch
    bookkeeping.

    Python strings are Rocq [string]s (byte sequences, UTF-8), Python [int]s
    are [Z], a raised exception is the [Raise] outcome of a computation, the
    file system is a finite map from paths to nodes, and the numerical
    libraries the scripts call (dcase_util, numpy, torch) are an interface
    ([DcaseUtil]) whose operations stay uninterpreted. *)

From stdpp Require Import gmap strings list sorting pretty.
From Stdlib Require Import Ascii QArith.

Local Open Scope Z_scope.

(** ** Exceptions and outcomes *)

(** The exception classes that the two scripts and the interpreter raise on
    the paths modelled here. *)
Inductive exn : Type :=
  | NotImplementedError (msg : string)
  | TypeError (msg : string)
  | KeyError (key : string)
  | IndexError (msg : string)
  | ValueError (msg : string)
  | AttributeError (msg : string)
  | IOError (path : string)
  | SystemExit (code : Z).

Inductive result (A : Type) : Type :=
  | Return (a : A)
  | Raise (e : exn).
Arguments Return {A} a.
Arguments Raise {A} e.

(** ** String helpers used by [utils.py] *)

Module Str.

(** [s.startswith(p)] *)
Fixpoint startswith (p s : string) : bool :=
  match p, s with
  | EmptyString, _ => true
  | String a p', String b s' => if decide (a = b) then startswith p' s' else false
  | String _ _, EmptyString => false
  end.

(** [s.replace(old, new)] for a non-empty [old]: non-overlapping
    occurrences, leftmost first.  [skip] counts the characters of an
    occurrence of [old] still to be dropped. *)
Fixpoint replace_go (old new : string) (skip : nat) (s : string) : string :=
  match s with
  | EmptyString => EmptyString
  | String c s' =>
      match skip with
      | S k => replace_go old new k s'
      | O =>
          if startswith old s
          then new +:+ replace_go old new (String.length old - 1) s'
          else String c (replace_go old new 0 s')
      end
  end.
Definition replace (old new s : string) : string := replace_go old new 0 s.

(** [os.path.split(p)[1]]: what follows the last slash. *)
Fixpoint basename_go (cur : string) (s : string) : string :=
  match s with
  | EmptyString => String.rev cur
  | String c s' =>
      if decide (c = "/"%char) then basename_go EmptyString s'
      else basename_go (String c cur) s'
  end.
Definition basename (p : string) : string := basename_go EmptyString p.

(** [os.path.join(a, b)] *)
Definition endswith_slash (a : string) : bool :=
  match String.rev a with
  | String c _ => if decide (c = "/"%char) then true else false
  | EmptyString => false
  end.
Definition join (a b : string) : string :=
  if startswith "/" b then b
  else if decide (a = EmptyString) then b
  else if endswith_slash a then a +:+ b
  else a +:+ "/" +:+ b.

(** ['data/{}'.format(t)] and ['data/{}/{}'.format(t, leaf)] *)
Definition data_dir (data_type : string) : string := "data/" +:+ data_type.
Definition data_file (data_type leaf : string) : string :=
  "data/" +:+ data_type +:+ "/" +:+ leaf.

End Str.

(** ** The dataset objects of dcase_util *)

Inductive dataset_class : Type :=
  | TUTUrbanAcousticScenes_2018_DevelopmentSet
  | TUTUrbanAcousticScenes_2018_Mobile_DevelopmentSet
  | TAUUrbanAcousticScenes_2019_DevelopmentSet
  | TAUUrbanAcousticScenes_2019_Mobile_DevelopmentSet.

(** The dataset object, as constructed: its class and the two keyword
    arguments of the constructor. *)
Record data_set : Type := DataSet {
  ds_class : dataset_class;
  storage_name : string;
  data_path : string
}.

(** ** The file system and the external libraries *)

(** What a file holds.  The three type parameters are the contents that the
    external library reads and writes: decoded audio, the data of a
    [FeatureContainer], the state of a [Normalizer]. *)
Inductive payload (audio feature normalizer : Type) : Type :=
  | Wav (a : audio)
  | FeaturePickle (f : feature)
  | NormalizerPickle (n : normalizer)
  | StateDict (epoch : nat)
  | Csv (header : list string) (rows : list (nat * list Q)).
Arguments Wav {audio feature normalizer} a.
Arguments FeaturePickle {audio feature normalizer} f.
Arguments NormalizerPickle {audio feature normalizer} n.
Arguments StateDict {audio feature normalizer} epoch.
Arguments Csv {audio feature normalizer} header rows.

Inductive node (audio feature normalizer : Type) : Type :=
  | Dir
  | File (p : payload audio feature normalizer).
Arguments Dir {audio feature normalizer}.
Arguments File {audio feature normalizer} p.

(** The operations of dcase_util, numpy and torch that [utils.py] calls.
    They are left uninterpreted: every property below holds for each
    interpretation. *)
Class DcaseUtil : Type := {
  audio : Type;
  feature : Type;
  normalizer : Type;
  ndarray : Type;
  tensor : Type;
  (** [FeatureContainer(data=extractor.extract(audio), time_resolution=0.02)]
      for [extractor = MelExtractor(fs=48000, fmax=24000, hop_length_seconds=0.02)] *)
  extract : audio → feature;
  (** [Normalizer()], [n.accumulate(f)], [n.finalize()], [n.normalize(f)] *)
  Normalizer_new : normalizer;
  accumulate : normalizer → feature → normalizer;
  finalize : normalizer → normalizer;
  normalize : normalizer → feature → ndarray;
  (** [a.astype(np.float32)], [np.array(target)], [torch.from_numpy(a)],
      [t.unsqueeze(dim=d)] *)
  astype_float32 : ndarray → ndarray;
  np_array : nat → ndarray;
  from_numpy : ndarray → tensor;
  unsqueeze : Z → tensor → tensor;
  (** [data_set.initialize()]: fetches the corpus; may fail *)
  initialize : data_set → gmap string (node audio feature normalizer) →
               result unit * gmap string (node audio feature normalizer);
  (** [data_set.train_files()] ([None]) and [data_set.train_files(fold=k)] *)
  train_files : data_set → option Z → list string;
  (** [data_set.validation_split(fold=1, split_type='balanced', validation_amount=0.3)] *)
  validation_split : data_set → list string * list string;
  (** [data_set.eval(fold=1).unique_files] *)
  eval_unique_files : data_set → list string;
  (** [data_set.meta.filter(filename=f).unique_scene_labels] *)
  unique_scene_labels : data_set → string → list string
}.

(** The file system: what each existing path holds. *)
Abbreviation filesystem := (gmap string (node audio feature normalizer)).

(** A computation that reads and writes a state and returns or raises.
    What was written before an exception stays written. *)
Definition ST (Σ A : Type) : Type := Σ → result A * Σ.

Definition ret {Σ A} (a : A) : ST Σ A := λ σ, (Return a, σ).
Definition raise {Σ A} (e : exn) : ST Σ A := λ σ, (Raise e, σ).
Definition bind {Σ A B} (m : ST Σ A) (k : A → ST Σ B) : ST Σ B := λ σ,
  match m σ with
  | (Return a, σ') => k a σ'
  | (Raise e, σ') => (Raise e, σ')
  end.
Definition lift {Σ A} (r : result A) : ST Σ A := λ σ, (r, σ).

(** The computations of [utils.py] act on the file system. *)
Abbreviation M := (ST filesystem).

Notation "'let*' x := m 'in' k" := (bind m (λ x, k))
  (at level 10, x name, m at level 100, k at level 200).
Notation "m ;;; k" := (bind m (λ _, k))
  (at level 100, k at level 200, right associativity).

(** [for x in xs: body(x)] *)
Fixpoint for_each {Σ A} (xs : list A) (body : A → ST Σ unit) : ST Σ unit :=
  match xs with
  | [] => ret ()
  | x :: xs' => body x ;;; for_each xs' body
  end.

(** [acc = init; for x in xs: acc = step(acc, x)] with a step that may raise *)
Fixpoint for_fold {Σ A B} (xs : list A) (acc : B) (step : B → A → ST Σ B) : ST Σ B :=
  match xs with
  | [] => ret acc
  | x :: xs' => let* acc' := step acc x in for_fold xs' acc' step
  end.

Section FileSystem.
Context `{DU : DcaseUtil}.

(** [os.path.exists(p)] *)
Definition path_exists (p : string) : M bool :=
  λ fs, (Return (bool_decide (is_Some (fs !! p))), fs).

(** The directories on the way to [p], [p] included:
    ["a/b/c"] gives ["a"; "a/b"; "a/b/c"]. *)
Fixpoint prefixes_go (seen : string) (s : string) : list string :=
  match s with
  | EmptyString => [String.rev seen]
  | String c s' =>
      if decide (c = "/"%char)
      then String.rev seen :: prefixes_go (String c seen) s'
      else prefixes_go (String c seen) s'
  end.
Definition prefixes (p : string) : list string :=
  filter (λ d, d ≠ EmptyString) (prefixes_go EmptyString p).

Definition mkdir (fs : filesystem) (d : string) : filesystem :=
  match fs !! d with
  | Some _ => fs
  | None => <[d := Dir]> fs
  end.

(** [Path().create(p)]: the directory and the missing ones above it. *)
Definition Path_create (p : string) : M unit :=
  λ fs, (Return (), foldl mkdir fs (prefixes p)).

(** Writing a file replaces what the path held. *)
Definition write (p : string) (x : payload audio feature normalizer) : M unit :=
  λ fs, (Return (), <[p := File x]> fs).

(** [AudioContainer().load(filename=p, mono=True, fs=48000)] *)
Definition AudioContainer_load (p : string) : M audio :=
  λ fs, match fs !! p with
        | Some (File (Wav a)) => (Return a, fs)
        | _ => (Raise (IOError p), fs)
        end.

(** [FeatureContainer().load(filename=p)] *)
Definition FeatureContainer_load (p : string) : M feature :=
  λ fs, match fs !! p with
        | Some (File (FeaturePickle f)) => (Return f, fs)
        | _ => (Raise (IOError p), fs)
        end.

(** [Normalizer().load(filename=p)] *)
Definition Normalizer_load (p : string) : M normalizer :=
  λ fs, match fs !! p with
        | Some (File (NormalizerPickle n)) => (Return n, fs)
        | _ => (Raise (IOError p), fs)
        end.

(** ** [utils.process_data] *)

(** [os.path.join(features_path, os.path.split(audio_filename)[1].replace('.wav', '.cpickle'))] *)
Definition feature_filename (features_path audio_filename : string) : string :=
  Str.join features_path (Str.replace ".wav" ".cpickle" (Str.basename audio_filename)).

Definition norm_factors_path (data_type : string) : string :=
  Str.data_file data_type "norm_factors.cpickle".

(** Lines 33-46: the cached features. *)
Definition extract_features (ds : data_set) (data_type : string) : M unit :=
  let features_path := Str.data_file data_type "features" in
  let* features_there := path_exists features_path in
  if negb features_there then
    Path_create features_path ;;;
    for_each (train_files ds None) (λ audio_filename,
      let feature_filename := feature_filename features_path audio_filename in
      let* a := AudioContainer_load audio_filename in
      write feature_filename (FeaturePickle (extract a)))
  else ret ().

(** Lines 48-61: the normalization factors. *)
Definition compute_normalizer (ds : data_set) (data_type : string) : M unit :=
  let features_path := Str.data_file data_type "features" in
  let* norm_there := path_exists (norm_factors_path data_type) in
  if negb norm_there then
    let* n := for_fold (train_files ds (Some 1)) Normalizer_new (λ n audio_filename,
                let feature_filename := feature_filename features_path audio_filename in
                let* f := FeatureContainer_load feature_filename in
                ret (accumulate n f)) in
    write (norm_factors_path data_type) (NormalizerPickle (finalize n))
  else ret ().

Definition process_data (ds : data_set) (data_type : string) : M unit :=
  extract_features ds data_type ;;; compute_normalizer ds data_type.

End FileSystem.

(** ** Python values that reach [load_data] as arguments *)

Inductive pyval : Type :=
  | PyStr (s : string)
  | PyInt (z : Z)
  | PyBool (b : bool)
  | PyNone
  | PyEmptyList.

Global Instance pyval_eq_dec : EqDecision pyval.
Proof. solve_decision. Defined.

(** ['{}'.format(v)] *)
Definition format (v : pyval) : string :=
  match v with
  | PyStr s => s
  | PyInt z => pretty z
  | PyBool true => "True"
  | PyBool false => "False"
  | PyNone => "None"
  | PyEmptyList => "[]"
  end.

(** ** [utils.MusicData] *)

(** A row of the table handed to [MusicData]. *)
Record row : Type := Row { file_name : string; file_label : string }.

(** [MusicData.__init__] subscripts its argument with a column name: a
    pandas table has columns, the list of dicts that [load_data] builds
    does not. *)
Inductive data_list : Type :=
  | DataFrame (rows : list row)
  | PyList (rows : list row).

(** [Series.unique()]: the distinct values, in order of first appearance. *)
Fixpoint unique_go (seen : list string) (l : list string) : list string :=
  match l with
  | [] => []
  | x :: l' =>
      if decide (x ∈ seen) then unique_go seen l'
      else x :: unique_go (x :: seen) l'
  end.
Definition unique (l : list string) : list string := unique_go [] l.

(** [sorted(xs)] on strings: ascending code-point order. *)
Definition sorted (l : list string) : list string := merge_sort String.le l.

(** [enumerate(xs)] *)
Definition enumerate {A} (l : list A) : list (nat * A) := imap pair l.

(** [{label: index for index, label in pairs}]: a later pair overwrites. *)
Definition dict_of (pairs : list (nat * string)) : gmap string nat :=
  foldl (λ d p, <[p.2 := p.1]> d) ∅ pairs.

(** [d[key]] *)
Definition getitem_dict (d : gmap string nat) (key : string) : result nat :=
  match d !! key with
  | Some v => Return v
  | None => Raise (KeyError key)
  end.

(** [[f(x) for x in xs]] with an [f] that may raise *)
Fixpoint comprehension {A B} (f : A → result B) (xs : list A) : result (list B) :=
  match xs with
  | [] => Return []
  | x :: xs' =>
      match f x with
      | Raise e => Raise e
      | Return y =>
          match comprehension f xs' with
          | Raise e => Raise e
          | Return ys => Return (y :: ys)
          end
      end
  end.

(** [a[index]] on a sequence: a negative index counts from the end. *)
Definition getitem_seq {A} (a : list A) (index : Z) : result A :=
  let n := Z.of_nat (length a) in
  let i := if decide (index < 0) then index + n else index in
  if decide (0 ≤ i < n) then
    match a !! Z.to_nat i with
    | Some x => Return x
    | None => Raise (IndexError "index out of bounds")
    end
  else Raise (IndexError "index out of bounds").

Definition make_label2index (labels : list string) : gmap string nat :=
  dict_of (enumerate (sorted (unique labels))).

Section MusicData.
Context `{DU : DcaseUtil}.

Record MusicData : Type := {
  samples : list string;
  label2index : gmap string nat;
  targets : list nat;
  self_normalizer : normalizer
}.

Definition MusicData_init (dl : data_list) : M MusicData :=
  match dl with
  | PyList _ => raise (TypeError "list indices must be integers or slices, not str")
  | DataFrame rows =>
      let samples := file_name <$> rows in
      let label2index := make_label2index (file_label <$> rows) in
      let* targets := lift (comprehension (getitem_dict label2index) (file_label <$> rows)) in
      let* n := Normalizer_load "norm_factors.cpickle" in
      ret {| samples := samples; label2index := label2index;
             targets := targets; self_normalizer := n |}
  end.

Definition MusicData_getitem (self : MusicData) (index : Z) : M (tensor * tensor) :=
  let* path := lift (getitem_seq (samples self) index) in
  let* f := FeatureContainer_load path in
  let sample := normalize (self_normalizer self) f in
  let* target := lift (getitem_seq (targets self) index) in
  ret (unsqueeze 0 (from_numpy (astype_float32 sample)), from_numpy (np_array target)).

Definition MusicData_len (self : MusicData) : nat := length (samples self).

(** ** [utils.load_data] *)

Record DataLoader : Type := {
  dataset : MusicData;
  batch_size : pyval;
  shuffle : bool
}.

(** The [if]/[elif] chain at the head of [load_data] (lines 65-78). *)
Definition select_data_set (data_type : pyval) : result data_set :=
  if decide (data_type = PyStr "DCASE2018A") then
    Return (DataSet TUTUrbanAcousticScenes_2018_DevelopmentSet "raw_data" (Str.data_dir (format data_type)))
  else if decide (data_type = PyStr "DCASE2018B") then
    Return (DataSet TUTUrbanAcousticScenes_2018_Mobile_DevelopmentSet "raw_data" (Str.data_dir (format data_type)))
  else if decide (data_type = PyStr "DCASE2019A") then
    Return (DataSet TAUUrbanAcousticScenes_2019_DevelopmentSet "raw_data" (Str.data_dir (format data_type)))
  else if decide (data_type = PyStr "DCASE2019B") then
    Return (DataSet TAUUrbanAcousticScenes_2019_Mobile_DevelopmentSet "raw_data" (Str.data_dir (format data_type)))
  else
    Raise (NotImplementedError (format data_type +:+ " is not implemented")).

(** One of the three loops of lines 85-99. *)
Definition filtered (ds : data_set) (data_type : string) (files : list string)
  : result (list row) :=
  comprehension (λ audio_filename,
    let file_name := feature_filename (Str.data_file data_type "features") audio_filename in
    match unique_scene_labels ds audio_filename with
    | file_label :: _ => Return (Row file_name file_label)
    | [] => Raise (IndexError "list index out of range")
    end) files.

(** Lines 79-108: what follows the choice of the dataset class. *)
Definition load_data_from (ds : data_set) (data_type : string) (batch_size : pyval)
  : M (DataLoader * DataLoader * DataLoader) :=
  initialize ds ;;;
  process_data ds data_type ;;;
  let train_val := validation_split ds in
  let test_files := eval_unique_files ds in
  let* filtered_train := lift (filtered ds data_type train_val.1) in
  let* filtered_val := lift (filtered ds data_type train_val.2) in
  let* filtered_test := lift (filtered ds data_type test_files) in
  let* train_set := MusicData_init (PyList filtered_train) in
  let* val_set := MusicData_init (PyList filtered_val) in
  let* test_set := MusicData_init (PyList filtered_test) in
  ret ({| dataset := train_set; batch_size := batch_size; shuffle := true |},
       {| dataset := val_set; batch_size := batch_size; shuffle := false |},
       {| dataset := test_set; batch_size := batch_size; shuffle := false |}).

Definition load_data (data_type : pyval) (batch_size : pyval)
  : M (DataLoader * DataLoader * DataLoader) :=
  let* ds := lift (select_data_set data_type) in
  load_data_from ds (format data_type) batch_size.

End MusicData.

Definition recognized_names : list pyval :=
  [PyStr "DCASE2018A"; PyStr "DCASE2018B"; PyStr "DCASE2019A"; PyStr "DCASE2019B"].

(** ** Vocabulary for the statements *)

Section Vocabulary.
Context `{DU : DcaseUtil}.

(** Every exception that [m] can raise satisfies [P]. *)
Definition only_raises {A} (P : exn → Prop) (m : M A) : Prop :=
  ∀ fs e fs', m fs = (Raise e, fs') → P e.

Definition is_IOError (e : exn) : Prop := ∃ p, e = IOError p.

(** Whatever [m] writes, it writes under a path that satisfies [P]. *)
Definition writes_only {A} (P : string → Prop) (m : M A) : Prop :=
  ∀ fs r fs' p, m fs = (r, fs') → ¬ P p → fs' !! p = fs !! p.

(** Nothing that [m] does removes a path. *)
Definition keeps_paths {A} (m : M A) : Prop :=
  ∀ fs r fs' p, m fs = (r, fs') → is_Some (fs !! p) → is_Some (fs' !! p).

End Vocabulary.

(** ** [int(s)] on a command-line token *)

(** The conversion that [type=int] applies: white space around the number
    is dropped, a sign may come first, and the digits may be separated by
    single underscores.  Tokens are taken to be ASCII: the digits and spaces
    that Python knows beyond ASCII are not modelled. *)
Module PyInt.

Definition digit (c : ascii) : option Z := Z.of_nat <$> Ascii.is_nat c.

Fixpoint lstrip (s : string) : string :=
  match s with
  | String c s' => if Ascii.is_space c then lstrip s' else s
  | EmptyString => EmptyString
  end.
Fixpoint rstrip (s : string) : string :=
  match s with
  | String c s' =>
      match rstrip s' with
      | EmptyString => if Ascii.is_space c then EmptyString else String c EmptyString
      | r => String c r
      end
  | EmptyString => EmptyString
  end.
Definition strip (s : string) : string := rstrip (lstrip s).

(** The digits after the first one. *)
Fixpoint more_digits (acc : Z) (s : string) : option Z :=
  match s with
  | EmptyString => Some acc
  | String c s' =>
      if decide (c = "_"%char) then
        match s' with
        | String d s'' =>
            match digit d with
            | Some v => more_digits (10 * acc + v) s''
            | None => None
            end
        | EmptyString => None
        end
      else
        match digit c with
        | Some v => more_digits (10 * acc + v) s'
        | None => None
        end
  end.

Definition digits (s : string) : option Z :=
  match s with
  | String c s' =>
      match digit c with
      | Some v => more_digits v s'
      | None => None
      end
  | EmptyString => None
  end.

Definition int (s : string) : option Z :=
  match strip s with
  | String "+" r => digits r
  | String "-" r => Z.opp <$> digits r
  | r => digits r
  end.

End PyInt.

(** ** [argparse], as far as [train.py] uses it *)

(** The parser of [train.py] has optional arguments only, each with a long
    option string, the default [store] action and one value; [argparse]
    adds [-h] and [--help].  The model follows [ArgumentParser.parse_args]
    of CPython 3.11 on such parsers; [parser.error] and the help action end
    the process, with status 2 and 0. *)
Module Argparse.

Inductive arg_type : Type := type_str | type_int.

Record argument : Type := Argument {
  option_string : string;
  dest : string;
  default : pyval;
  type : arg_type;
  choices : option (list pyval)
}.

Inductive action : Type :=
  | help
  | store (a : argument).

Definition parser : Type := list argument.

Abbreviation namespace := (gmap string pyval).

(** [parser.error(message)] *)
Definition error {A} : result A := Raise (SystemExit 2).

(** The destination of a long option: the leading dashes go, inner dashes
    become underscores. *)
Fixpoint lstrip_dashes (s : string) : string :=
  match s with
  | String c s' => if decide (c = "-"%char) then lstrip_dashes s' else s
  | EmptyString => EmptyString
  end.
Definition dest_of (option_string : string) : string :=
  Str.replace "-" "_" (lstrip_dashes option_string).

(** [parser.add_argument(flag, default=d, type=t, choices=c)] *)
Definition add_argument (flag : string) (d : pyval) (t : arg_type)
    (c : option (list pyval)) (p : parser) : parser :=
  p ++ [Argument flag (dest_of flag) d t c].

(** [self._option_string_actions], in insertion order *)
Definition option_string_actions (p : parser) : list (string * action) :=
  ("-h", help) :: ("--help", help) :: ((λ a, (option_string a, store a)) <$> p).

Fixpoint assoc {A} (k : string) (l : list (string * A)) : option A :=
  match l with
  | [] => None
  | (k', v) :: l' => if decide (k = k') then Some v else assoc k l'
  end.

(** [s.split('=', 1)] when ['=' in s] *)
Fixpoint split_eq (s : string) : option (string * string) :=
  match s with
  | EmptyString => None
  | String c s' =>
      if decide (c = "="%char) then Some (EmptyString, s')
      else match split_eq s' with
           | Some (a, b) => Some (String c a, b)
           | None => None
           end
  end.

Fixpoint contains (c : ascii) (s : string) : bool :=
  match s with
  | EmptyString => false
  | String c' s' => if decide (c = c') then true else contains c s'
  end.

Fixpoint all_digits (s : string) : bool :=
  match s with
  | EmptyString => true
  | String c s' =>
      match Ascii.is_nat c with
      | Some _ => all_digits s'
      | None => false
      end
  end.

(** [\d+] and [\d*\.\d+] on a whole string *)
Definition digits1 (s : string) : bool :=
  match s with
  | EmptyString => false
  | _ => all_digits s
  end.
Fixpoint decimal (s : string) : bool :=
  match s with
  | EmptyString => false
  | String c s' =>
      if decide (c = "."%char) then digits1 s'
      else match Ascii.is_nat c with
           | Some _ => decimal s'
           | None => false
           end
  end.

(** The string without one final newline, if it ends with one. *)
Definition chop_newline (s : string) : option string :=
  match String.rev s with
  | String c r => if decide (c = "010"%char) then Some (String.rev r) else None
  | EmptyString => None
  end.

(** [self._negative_number_matcher.match(s)] for the pattern
    ['^-\d+$|^-\d*\.\d+$'], whose [$] also matches before a final newline. *)
Definition negative_number (s : string) : bool :=
  match s with
  | String "-" r =>
      digits1 r || decimal r ||
      match chop_newline r with
      | Some r' => digits1 r' || decimal r'
      | None => false
      end
  | _ => false
  end.

(** [self._get_option_tuples(arg_string)], for an [arg_string] of two
    characters or more that starts with a dash. *)
Definition get_option_tuples (p : parser) (arg_string : string)
  : list (action * string * option string) :=
  match arg_string with
  | String c0 (String c1 rest) =>
      if decide (c1 = "-"%char) then
        let '(option_prefix, explicit_arg) :=
          match split_eq arg_string with
          | Some (a, b) => (a, Some b)
          | None => (arg_string, None)
          end in
        omap (λ '(option_string, action),
                if Str.startswith option_prefix option_string
                then Some (action, option_string, explicit_arg) else None)
             (option_string_actions p)
      else
        let short_option_prefix := String c0 (String c1 EmptyString) in
        let short_explicit_arg := rest in
        omap (λ '(option_string, action),
                if decide (option_string = short_option_prefix)
                then Some (action, option_string, Some short_explicit_arg)
                else if Str.startswith arg_string option_string
                then Some (action, option_string, None) else None)
             (option_string_actions p)
  | _ => []
  end.

(** [self._parse_optional(arg_string)]: [None] for a positional, a triple
    for an optional ([None] as its action when no option matches). *)
Definition parse_optional (p : parser) (arg_string : string)
  : result (option (option action * string * option string)) :=
  match arg_string with
  | EmptyString => Return None
  | String c0 tail =>
      if negb (bool_decide (c0 = "-"%char)) then Return None
      else
        match assoc arg_string (option_string_actions p) with
        | Some a => Return (Some (Some a, arg_string, None))
        | None =>
            if decide (tail = EmptyString) then Return None
            else
              let exact :=
                match split_eq arg_string with
                | Some (option_string, explicit_arg) =>
                    match assoc option_string (option_string_actions p) with
                    | Some a => Some (Some a, option_string, Some explicit_arg)
                    | None => None
                    end
                | None => None
                end in
              match exact with
              | Some t => Return (Some t)
              | None =>
                  match get_option_tuples p arg_string with
                  | _ :: _ :: _ => error
                  | [(a, option_string, explicit_arg)] =>
                      Return (Some (Some a, option_string, explicit_arg))
                  | [] =>
                      if negative_number arg_string then Return None
                      else if contains " " arg_string then Return None
                      else Return (Some (None, arg_string, None))
                  end
              end
        end
  end.

(** One letter of [arg_strings_pattern], with what [_parse_optional] found. *)
Inductive pattern : Type :=
  | pattern_A
  | pattern_dashes
  | pattern_O (a : option action) (option_string : string) (explicit_arg : option string).

Fixpoint patterns (p : parser) (arg_strings : list string)
  : result (list (string * pattern)) :=
  match arg_strings with
  | [] => Return []
  | arg_string :: rest =>
      if decide (arg_string = "--") then
        Return ((arg_string, pattern_dashes) :: ((λ s, (s, pattern_A)) <$> rest))
      else
        match parse_optional p arg_string with
        | Raise e => Raise e
        | Return o =>
            match patterns p rest with
            | Raise e => Raise e
            | Return ps =>
                Return ((arg_string,
                         match o with
                         | None => pattern_A
                         | Some (a, option_string, explicit_arg) =>
                             pattern_O a option_string explicit_arg
                         end) :: ps)
            end
        end
  end.

(** [self._get_value(action, arg_string)] *)
Definition get_value (t : arg_type) (arg_string : string) : result pyval :=
  match t with
  | type_str => Return (PyStr arg_string)
  | type_int =>
      match PyInt.int arg_string with
      | Some z => Return (PyInt z)
      | None => error
      end
  end.

(** [self._check_value(action, value)] *)
Definition check_value (a : argument) (value : pyval) : result unit :=
  match choices a with
  | Some cs => if decide (value ∈ cs) then Return () else error
  | None => Return ()
  end.

(** [self._get_values(action, [arg_string])] for a [store] action: the
    string ["--"] is removed from the list first, and the empty list that
    is left is the value, unconverted and unchecked. *)
Definition get_values (a : argument) (arg_string : string) : result pyval :=
  if decide (arg_string = "--") then Return PyEmptyList
  else
    match get_value (type a) arg_string with
    | Raise e => Raise e
    | Return value =>
        match check_value a value with
        | Raise e => Raise e
        | Return _ => Return value
        end
    end.

(** The tail of [-h...]: each further letter has to be an [h] again. *)
Fixpoint help_cluster (explicit_arg : string) : exn :=
  match explicit_arg with
  | EmptyString => SystemExit 2
  | String c rest =>
      if decide (c = "h"%char) then
        if decide (rest = EmptyString) then SystemExit 0 else help_cluster rest
      else SystemExit 2
  end.

Definition single_dash (option_string : string) : bool :=
  match option_string with
  | String _ (String c1 _) => negb (bool_decide (c1 = "-"%char))
  | _ => false
  end.

(** [consume_optional] on the help action: it always ends the process. *)
Definition consume_help (option_string : string) (explicit_arg : option string) : exn :=
  match explicit_arg with
  | None => SystemExit 0
  | Some e =>
      if single_dash option_string && negb (bool_decide (e = EmptyString))
      then help_cluster e
      else SystemExit 2
  end.

(** The main loop of [_parse_known_args]: the namespace, the destinations
    seen and the extras, after the argument strings are consumed. *)
Fixpoint consume (ps : list (string * pattern)) (ns : namespace)
    (seen extras : list string) : result (namespace * list string * list string) :=
  match ps with
  | [] => Return (ns, seen, extras)
  | (s, pattern_A) :: rest => consume rest ns seen (extras ++ [s])
  | (s, pattern_dashes) :: rest => consume rest ns seen (extras ++ [s])
  | (s, pattern_O None _ _) :: rest => consume rest ns seen (extras ++ [s])
  | (s, pattern_O (Some help) option_string explicit_arg) :: rest =>
      Raise (consume_help option_string explicit_arg)
  | (s, pattern_O (Some (store a)) _ (Some explicit_arg)) :: rest =>
      match get_values a explicit_arg with
      | Raise e => Raise e
      | Return v => consume rest (<[dest a := v]> ns) (dest a :: seen) extras
      end
  | (s, pattern_O (Some (store a)) _ None) :: rest =>
      match rest with
      | (s', pattern_A) :: rest' =>
          match get_values a s' with
          | Raise e => Raise e
          | Return v => consume rest' (<[dest a := v]> ns) (dest a :: seen) extras
          end
      | _ => error
      end
  end.

(** The defaults, set before parsing. *)
Definition defaults (p : parser) : namespace :=
  foldl (λ ns a, <[dest a := default a]> ns) ∅ p.

(** A default that is a string is converted once parsing is over, when its
    argument was not given. *)
Fixpoint convert_defaults (p : parser) (seen : list string) (ns : namespace)
  : result namespace :=
  match p with
  | [] => Return ns
  | a :: p' =>
      match default a with
      | PyStr s =>
          if decide (dest a ∈ seen) then convert_defaults p' seen ns
          else match get_value (type a) s with
               | Raise e => Raise e
               | Return v => convert_defaults p' seen (<[dest a := v]> ns)
               end
      | _ => convert_defaults p' seen ns
      end
  end.

(** [parser.parse_args(argv)] *)
Definition parse_args (p : parser) (argv : list string) : result namespace :=
  match patterns p argv with
  | Raise e => Raise e
  | Return ps =>
      match consume ps (defaults p) [] [] with
      | Raise e => Raise e
      | Return (ns, seen, extras) =>
          match convert_defaults p seen ns with
          | Raise e => Raise e
          | Return ns' =>
              match extras with
              | [] => Return ns'
              | _ :: _ => error
              end
          end
      end
  end.

End Argparse.

(** ** [train.py]: the command line (lines 19-27) *)

Definition train_parser : Argparse.parser :=
  Argparse.add_argument "--num_epochs" (PyInt 100) Argparse.type_int None
  (Argparse.add_argument "--num_iterations" (PyInt 3) Argparse.type_int None
  (Argparse.add_argument "--batch_size" (PyInt 64) Argparse.type_int None
  (Argparse.add_argument "--data_name" (PyStr "voc") Argparse.type_str
     (Some [PyStr "voc"; PyStr "coco"; PyStr "cityscapes"]) []))).

(** ** Calling a Python function *)

(** How the interpreter binds the arguments of a call to the parameters of
    a [def] with plain parameters, some of them with defaults. *)
Module PyCall.

Record signature : Type := Signature {
  fn_name : string;
  params : list (string * option pyval)
}.

Definition quoted (s : string) : string := "'" +:+ s +:+ "'".

(** ['a'], ['a' and 'b'], ['a', 'b', and 'c'] *)
Fixpoint name_list_go (names : list string) : string :=
  match names with
  | [] => ""
  | [a] => "and " +:+ quoted a
  | a :: rest => quoted a +:+ ", " +:+ name_list_go rest
  end.
Definition name_list (names : list string) : string :=
  match names with
  | [] => ""
  | [a] => quoted a
  | [a; b] => quoted a +:+ " and " +:+ quoted b
  | _ => name_list_go names
  end.

Definition too_many_positional (sg : signature) (given : nat) : exn :=
  let total := length (params sg) in
  let defcount := length (filter (λ p, is_Some p.2) (params sg)) in
  let sig :=
    if decide (defcount = 0%nat) then pretty total
    else "from " +:+ pretty (total - defcount)%nat +:+ " to " +:+ pretty total in
  let plural :=
    if decide (defcount = 0%nat) then bool_decide (total ≠ 1%nat) else true in
  TypeError (fn_name sg +:+ "() takes " +:+ sig +:+ " positional argument"
             +:+ (if plural then "s" else "") +:+ " but " +:+ pretty given +:+ " "
             +:+ (if decide (given = 1%nat) then "was" else "were") +:+ " given").

Definition missing_arguments (sg : signature) (names : list string) : exn :=
  TypeError (fn_name sg +:+ "() missing " +:+ pretty (length names)
             +:+ " required positional argument"
             +:+ (if decide (length names = 1%nat) then "" else "s") +:+ ": "
             +:+ name_list names).

(** The keyword arguments, in the order of the call. *)
Fixpoint bind_keywords (sg : signature) (kwargs : list (string * pyval))
    (bound : list (string * pyval)) : result (list (string * pyval)) :=
  match kwargs with
  | [] => Return bound
  | (k, v) :: rest =>
      if decide (k ∈ (params sg).*1) then
        if decide (k ∈ bound.*1) then
          Raise (TypeError (fn_name sg +:+ "() got multiple values for argument " +:+ quoted k))
        else bind_keywords sg rest (bound ++ [(k, v)])
      else
        Raise (TypeError (fn_name sg +:+ "() got an unexpected keyword argument " +:+ quoted k))
  end.

(** The parameters left unbound take their defaults. *)
Definition fill_defaults (sg : signature) (bound : list (string * pyval))
  : result (list (string * pyval)) :=
  let unbound := filter (λ p, p.1 ∉ bound.*1) (params sg) in
  match (filter (λ p, p.2 = None) unbound).*1 with
  | [] => Return (bound ++ omap (λ p, pair p.1 <$> p.2) unbound)
  | missing => Raise (missing_arguments sg missing)
  end.

Definition bind_arguments (sg : signature) (args : list pyval)
    (kwargs : list (string * pyval)) : result (list (string * pyval)) :=
  let positional := zip (params sg).*1 args in
  match bind_keywords sg kwargs positional with
  | Raise e => Raise e
  | Return bound =>
      if decide (length (params sg) < length args)%nat
      then Raise (too_many_positional sg (length args))
      else fill_defaults sg bound
  end.

(** The value bound to a parameter. *)
Fixpoint lookup_arg (env : list (string * pyval)) (name : string) : pyval :=
  match env with
  | [] => PyNone
  | (k, v) :: env' => if decide (k = name) then v else lookup_arg env' name
  end.

(** A call [f(a, ..., k=v, ...)] *)
Definition call {Σ A} (sg : signature) (body : list (string * pyval) → ST Σ A)
    (args : list pyval) (kwargs : list (string * pyval)) : ST Σ A :=
  match bind_arguments sg args kwargs with
  | Raise e => raise e
  | Return env => body env
  end.

End PyCall.

(** [def load_data(data_type, batch_size=32)] (line 64 of [utils.py]) *)
Definition load_data_signature : PyCall.signature :=
  PyCall.Signature "load_data" [("data_type", None); ("batch_size", Some (PyInt 32))].

(** The names that the module [utils] binds: its imports, its three
    definitions, and what every module carries. *)
Definition utils_py : list string :=
  ["__name__"; "__doc__"; "__package__"; "__loader__"; "__spec__"; "__file__";
   "__cached__"; "__builtins__";
   "os"; "np"; "torch"; "FeatureContainer"; "AudioContainer"; "Normalizer";
   "TAUUrbanAcousticScenes_2019_Mobile_DevelopmentSet";
   "TUTUrbanAcousticScenes_2018_Mobile_DevelopmentSet";
   "TUTUrbanAcousticScenes_2018_DevelopmentSet";
   "TAUUrbanAcousticScenes_2019_DevelopmentSet";
   "MelExtractor"; "Path"; "Dataset"; "DataLoader"; "tqdm";
   "MusicData"; "process_data"; "load_data"].

(** What [results] holds per epoch: the values of the meters when the
    training loop and the test loop of an epoch are over.  They are floats
    in the script; the script only stores them and compares accuracies, and
    they are rationals here. *)
Record epoch_metrics : Type := {
  train_loss : Q;
  train_accuracy_1 : Q;
  train_accuracy_5 : Q;
  test_loss : Q;
  test_accuracy_1 : Q;
  test_accuracy_5 : Q
}.

(** A pandas table with a column per key. *)
Record dataframe : Type := {
  df_index : list nat;
  df_columns : list (string * list Q)
}.

Global Instance Q_inhabited : Inhabited Q := populate 0%Q.

(** [pd.DataFrame(data=data, index=index)] *)
Definition pd_DataFrame (data : list (string * list Q)) (index : list nat)
  : result dataframe :=
  if forallb (λ c, bool_decide (length c.2 = length index)) data
  then Return {| df_index := index; df_columns := data |}
  else Raise (ValueError "Length of values does not match length of index").

(** The lines of [df.to_csv(path, index_label=label)]: a header and one
    row per index entry. *)
Definition csv_header (label : string) (df : dataframe) : list string :=
  label :: (df_columns df).*1.
Definition csv_rows (df : dataframe) : list (nat * list Q) :=
  imap (λ i e, (e, (λ c, c.2 !!! i) <$> df_columns df)) (df_index df).

(** [d[key].append(x)] on a dict of lists *)
Fixpoint dict_append (key : string) (x : Q) (d : list (string * list Q))
  : result (list (string * list Q)) :=
  match d with
  | [] => Raise (KeyError key)
  | (k, l) :: d' =>
      if decide (k = key) then Return ((k, l ++ [x]) :: d')
      else match dict_append key x d' with
           | Raise e => Raise e
           | Return d'' => Return ((k, l) :: d'')
           end
  end.

(** [getattr(module, name)] *)
Definition getattr_module {Σ} (module_name : string) (names : list string)
    (name : string) : ST Σ unit :=
  if decide (name ∈ names) then ret ()
  else raise (AttributeError ("module '" +:+ module_name +:+ "' has no attribute '"
                              +:+ name +:+ "'")).

Section Script.
Context `{DU : DcaseUtil}.

(** [utils.load_data(...)], as a call *)
Definition call_load_data (args : list pyval) (kwargs : list (string * pyval))
  : M (DataLoader * DataLoader * DataLoader) :=
  PyCall.call load_data_signature
    (λ env, load_data (PyCall.lookup_arg env "data_type")
                      (PyCall.lookup_arg env "batch_size"))
    args kwargs.

(** The variables of the script that the epoch loop updates, the file
    system, and the epochs at which [torch.save] was called. *)
Record script_state : Type := {
  results : list (string * list Q);
  best_acc : Q;
  files : filesystem;
  saved : list nat
}.

Definition initial_state (fs : filesystem) : script_state :=
  {| results := []; best_acc := 0; files := fs; saved := [] |}.

Definition set_results (d : list (string * list Q)) : ST script_state unit :=
  λ σ, (Return (), {| results := d; best_acc := best_acc σ;
                      files := files σ; saved := saved σ |}).
Definition set_best_acc (x : Q) : ST script_state unit :=
  λ σ, (Return (), {| results := results σ; best_acc := x;
                      files := files σ; saved := saved σ |}).
Definition get_results : ST script_state (list (string * list Q)) :=
  λ σ, (Return (results σ), σ).
Definition get_best_acc : ST script_state Q := λ σ, (Return (best_acc σ), σ).

(** A computation of [utils.py], run by the script. *)
Definition on_files {A} (m : M A) : ST script_state A :=
  λ σ, let '(r, fs) := m (files σ) in
       (r, {| results := results σ; best_acc := best_acc σ;
              files := fs; saved := saved σ |}).

(** [results[key].append(x)] *)
Definition results_append (key : string) (x : Q) : ST script_state unit :=
  let* d := get_results in
  let* d' := lift (dict_append key x d) in
  set_results d'.

(** [torch.save(model.state_dict(), path)] in epoch [epoch] *)
Definition torch_save (path : string) (epoch : nat) : ST script_state unit :=
  λ σ, (Return (), {| results := results σ; best_acc := best_acc σ;
                      files := <[path := File (StateDict epoch)]> (files σ);
                      saved := saved σ ++ [epoch] |}).

(** [data_frame.to_csv(path, index_label=label)] *)
Definition to_csv (df : dataframe) (path label : string) : ST script_state unit :=
  on_files (write path (Csv (csv_header label df) (csv_rows df))).

Definition checkpoint_path (DATA_NAME : pyval) : string :=
  "epochs/" +:+ format DATA_NAME +:+ ".pth".
Definition statistics_path (DATA_NAME : pyval) : string :=
  "statistics/" +:+ format DATA_NAME +:+ "_results.csv".

(** ** [train.py]: one epoch (the body of the loop of line 71)

    [utils] is the list of names that the module [utils] binds; [oracle]
    gives, for each epoch, the values that the meters show after the two
    inner loops.  The calls into torch, torchnet and visdom are taken to
    return. *)
Definition epoch_body (utils : list string) (DATA_NAME : pyval)
    (oracle : nat → epoch_metrics) (epoch : nat) : ST script_state unit :=
  let m := oracle epoch in
  results_append "train_loss" (train_loss m) ;;;
  results_append "train_accuracy_1" (train_accuracy_1 m) ;;;
  results_append "train_accuracy_5" (train_accuracy_5 m) ;;;
  results_append "test_loss" (test_loss m) ;;;
  results_append "test_accuracy_1" (test_accuracy_1 m) ;;;
  results_append "test_accuracy_5" (test_accuracy_5 m) ;;;
  let* best := get_best_acc in
  (if negb (Qle_bool (test_accuracy_1 m) best) then
     set_best_acc (test_accuracy_1 m) ;;;
     torch_save (checkpoint_path DATA_NAME) epoch
   else ret ()) ;;;
  getattr_module "utils" utils "ProbAM" ;;;
  let* data := get_results in
  let* data_frame := lift (pd_DataFrame data (seq 1 epoch)) in
  to_csv data_frame (statistics_path DATA_NAME) "epoch".

(** [for epoch in range(1, n + 1)] *)
Definition epochs (utils : list string) (DATA_NAME : pyval)
    (oracle : nat → epoch_metrics) (n : nat) : ST script_state unit :=
  for_each (seq 1 n) (epoch_body utils DATA_NAME oracle).

(** Lines 30-31 *)
Definition empty_results : list (string * list Q) :=
  [("train_loss", []); ("test_loss", []); ("train_accuracy_1", []);
   ("test_accuracy_1", []); ("train_accuracy_5", []); ("test_accuracy_5", [])].

(** Lines 70-155: the epoch loop, entered with [results] as line 30 left it. *)
Definition epoch_loop (utils : list string) (DATA_NAME : pyval) (NUM_EPOCH : Z)
    (oracle : nat → epoch_metrics) : ST script_state unit :=
  set_best_acc 0 ;;;
  epochs utils DATA_NAME oracle (Z.to_nat NUM_EPOCH).

(** [opt.name] *)
Definition getattr_namespace (opt : Argparse.namespace) (name : string) : result pyval :=
  match opt !! name with
  | Some v => Return v
  | None => Raise (AttributeError ("'Namespace' object has no attribute '" +:+ name +:+ "'"))
  end.

(** ** [train.py]: from the command line to the data (lines 19-40)

    [load_data] returns a tuple, so that line 40, which asks its result for
    the attribute [dataset], is as far as the script can get. *)
Definition main (argv : list string) : ST script_state unit :=
  let* opt := lift (Argparse.parse_args train_parser argv) in
  let* DATA_NAME := lift (getattr_namespace opt "data_name") in
  let* BATCH_SIZE := lift (getattr_namespace opt "batch_size") in
  let* NUM_ITERATIONS := lift (getattr_namespace opt "num_iterations") in
  let* NUM_EPOCH := lift (getattr_namespace opt "num_epochs") in
  set_results empty_results ;;;
  getattr_module "utils" utils_py "load_data" ;;;
  let* train_loader :=
    on_files (call_load_data [DATA_NAME; PyStr "train"; BATCH_SIZE]
                             [("shuffle", PyBool true)]) in
  getattr_module "utils" utils_py "load_data" ;;;
  let* test_loader :=
    on_files (call_load_data [DATA_NAME; PyStr "test"; BATCH_SIZE]
                             [("shuffle", PyBool true)]) in
  raise (AttributeError "'tuple' object has no attribute 'dataset'").

End Script.

(** ** Vocabulary for the statements about the epoch loop *)

(** The keys of [results], in the order of lines 30-31, each with the meter
    value it records. *)
Definition columns : list (string * (epoch_metrics → Q)) :=
  [("train_loss", train_loss); ("test_loss", test_loss);
   ("train_accuracy_1", train_accuracy_1); ("test_accuracy_1", test_accuracy_1);
   ("train_accuracy_5", train_accuracy_5); ("test_accuracy_5", test_accuracy_5)].

(** [results] with the values of epochs [1 .. e], and the table that
    [to_csv] writes from it. *)
Definition results_after (oracle : nat → epoch_metrics) (e : nat)
  : list (string * list Q) :=
  (λ c, (c.1, (λ i, c.2 (oracle i)) <$> seq 1 e)) <$> columns.
Definition csv_rows_after (oracle : nat → epoch_metrics) (e : nat)
  : list (nat * list Q) :=
  (λ i, (i, (λ c, c.2 (oracle i)) <$> columns)) <$> seq 1 e.

(** The accuracy on the test set in epoch [e]. *)
Definition acc (oracle : nat → epoch_metrics) (e : nat) : Q :=
  test_accuracy_1 (oracle e).

(** [e] is a record epoch: its accuracy is above zero and above that of
    every epoch before it. *)
Definition record_epoch (oracle : nat → epoch_metrics) (e : nat) : Prop :=
  (0 < acc oracle e)%Q ∧ ∀ j, (1 ≤ j < e)%nat → (acc oracle j < acc oracle e)%Q.

(** The epochs of a loop of [n] whose test loop and comparison of line 126
    are reached: all of them when the module [utils] has the attribute of
    line 135, the first one only when it has not. *)
Definition epochs_reached (utils : list string) (n : nat) : nat :=
  if decide ("ProbAM" ∈ utils) then n else Nat.min 1 n.

Section ScriptVocabulary.
Context `{DU : DcaseUtil}.

(** The state in which the epoch loop is entered: [results] as line 30
    built it, nothing saved yet. *)
Definition ready (fs : filesystem) : script_state :=
  {| results := empty_results; best_acc := 0; files := fs; saved := [] |}.

End ScriptVocabulary.

(** ** A small interpretation of the libraries

    Audio, features and normalizer states are lists of integers: a feature
    is the audio itself, a normalizer collects what it is fed, normalizing
    subtracts the number of values collected, tensors carry a shape.  The
    corpus has two recordings. *)
Module Toy.

#[local] Instance libraries : DcaseUtil := {|
  audio := list Z;
  feature := list Z;
  normalizer := list Z;
  ndarray := list Z;
  tensor := list nat * list Z;
  extract := λ a, a;
  Normalizer_new := [];
  accumulate := λ n f, n ++ f;
  finalize := λ n, n;
  normalize := λ n f, (λ x, x - Z.of_nat (length n)) <$> f;
  astype_float32 := λ a, a;
  np_array := λ t, [Z.of_nat t];
  from_numpy := λ a, ([length a], a);
  unsqueeze := λ _ t, (1%nat :: t.1, t.2);
  initialize := λ _ fs, (Return (), fs);
  train_files := λ _ fold,
    match fold with
    | None => ["audio/a.wav"; "audio/b.wav"]
    | Some _ => ["audio/a.wav"]
    end;
  validation_split := λ _, (["audio/a.wav"], ["audio/b.wav"]);
  eval_unique_files := λ _, ["audio/b.wav"];
  unique_scene_labels := λ _ f,
    if decide (f = "audio/a.wav") then ["airport"] else ["bus"]
|}.

(** A disk that holds the two recordings and nothing else. *)
Definition disk : filesystem :=
  <["audio/b.wav" := File (Wav [4; 5])]>
    (<["audio/a.wav" := File (Wav [1; 2; 3])]> (<["audio" := Dir]> ∅)).

Definition corpus : data_set :=
  DataSet TUTUrbanAcousticScenes_2018_DevelopmentSet "raw_data" "data/DCASE2018A".

Definition table : list row :=
  [Row "data/DCASE2018A/features/a.cpickle" "bus";
   Row "data/DCASE2018A/features/b.cpickle" "airport";
   Row "data/DCASE2018A/features/a.cpickle" "bus"].

(** The meters of three epochs: the accuracy on the test set is 0, then
    40, then 30 per cent. *)
Definition meters (epoch : nat) : epoch_metrics :=
  match epoch with
  | 1%nat => {| train_loss := 2; train_accuracy_1 := 10; train_accuracy_5 := 50;
                test_loss := 2; test_accuracy_1 := 0; test_accuracy_5 := 40 |}
  | 2%nat => {| train_loss := 1; train_accuracy_1 := 30; train_accuracy_5 := 70;
                test_loss := 1; test_accuracy_1 := 40; test_accuracy_5 := 80 |}
  | _ => {| train_loss := 1 # 2; train_accuracy_1 := 60; train_accuracy_5 := 90;
            test_loss := 3 # 2; test_accuracy_1 := 30; test_accuracy_5 := 75 |}
  end%Q.

(** The disk after [process_data], and the same with factors put in the
    working directory by hand. *)
Definition processed : filesystem := (process_data corpus "DCASE2018A" disk).2.
Definition prepared : filesystem :=
  <["norm_factors.cpickle" := File (NormalizerPickle [1; 2; 3])]> processed.

(** The dataset that [MusicData(table)] builds on the prepared disk. *)
Definition music_data : MusicData :=
  {| samples := file_name <$> table;
     label2index := make_label2index (file_label <$> table);
     targets := [1; 0; 1]%nat;
     self_normalizer := [1; 2; 3] |}.

(** A module [utils] that also has the attribute of line 135, and the
    state after three epochs with it. *)
Definition utils_with_ProbAM : list string := "ProbAM" :: utils_py.
Definition trained : script_state :=
  (epoch_loop utils_with_ProbAM (PyStr "voc") 3 meters (ready ∅)).2.

(** The state in which the loop stops with the module as it is, after one
    epoch is asked for. *)
Definition stopped : script_state :=
  (epoch_loop utils_py (PyStr "voc") 1 meters (ready ∅)).2.

(** The disk after the first step of [process_data] alone; the disk after
    a run of [process_data] that found the second recording missing; and a
    disk with the features directory but neither the first feature file
    nor the factors. *)
Definition extracted : filesystem := (extract_features corpus "DCASE2018A" disk).2.
Definition interrupted : filesystem :=
  (process_data corpus "DCASE2018A" (delete "audio/b.wav" disk)).2.
Definition stale : filesystem :=
  delete "data/DCASE2018A/norm_factors.cpickle"
    (delete "data/DCASE2018A/features/a.cpickle" processed).

(** A working directory with the two directories that the script writes
    into; meters whose first accuracy on the test set is above zero (40,
    then 30 per cent); and the state in which the loop of [train.py] stops
    with them, the module [utils] being the one of [utils.py]. *)
Definition workdir : filesystem := <["statistics" := Dir]> (<["epochs" := Dir]> ∅).
Definition rising (epoch : nat) : epoch_metrics := meters (S epoch).
Definition halted : script_state :=
  (epoch_loop utils_py (PyStr "voc") 3 rising (ready workdir)).2.

(** The same libraries, with a corpus whose second recording has no scene
    label. *)
Definition unlabelled : DcaseUtil := {|
  audio := list Z;
  feature := list Z;
  normalizer := list Z;
  ndarray := list Z;
  tensor := list nat * list Z;
  extract := λ a, a;
  Normalizer_new := [];
  accumulate := λ n f, n ++ f;
  finalize := λ n, n;
  normalize := λ n f, (λ x, x - Z.of_nat (length n)) <$> f;
  astype_float32 := λ a, a;
  np_array := λ t, [Z.of_nat t];
  from_numpy := λ a, ([length a], a);
  unsqueeze := λ _ t, (1%nat :: t.1, t.2);
  initialize := λ _ fs, (Return (), fs);
  train_files := λ _ fold,
    match fold with
    | None => ["audio/a.wav"; "audio/b.wav"]
    | Some _ => ["audio/a.wav"]
    end;
  validation_split := λ _, (["audio/a.wav"], ["audio/b.wav"]);
  eval_unique_files := λ _, ["audio/b.wav"];
  unique_scene_labels := λ _ f,
    if decide (f = "audio/a.wav") then ["airport"] else []
|}.

End Toy.

(** ** Vocabulary for the statements about what is written *)

(** The paths that [process_data] may write for [data_type]: the features
    directory and the directories above it, the paths that begin as the
    features directory does, and the file of the factors. *)
Definition own_path (data_type p : string) : Prop :=
  p ∈ prefixes (Str.data_file data_type "features")
  ∨ Str.startswith (Str.data_file data_type "features") p = true
  ∨ p = norm_factors_path data_type.

Section ScriptFootprint.
Context `{DU : DcaseUtil}.

(** From [σ] to [σ']: no path but the two the epoch loop writes has
    changed, [results] has the keys it had, and [saved] has only grown. *)
Definition loop_step (DATA_NAME : pyval) (σ σ' : script_state) : Prop :=
  (∀ p, p ≠ checkpoint_path DATA_NAME → p ≠ statistics_path DATA_NAME →
        files σ' !! p = files σ !! p)
  ∧ (results σ').*1 = (results σ).*1
  ∧ saved σ `prefix_of` saved σ'.

(** The exceptions of the epoch loop, for a [results] with the keys
    [keys]: a key that [results] lacks, the attribute that [utils] lacks,
    and lists whose lengths differ from the number of epochs. *)
Definition loop_exn (keys : list string) (e : exn) : Prop :=
  (∃ k, e = KeyError k ∧ k ∉ keys)
  ∨ e = AttributeError "module 'utils' has no attribute 'ProbAM'"
  ∨ e = ValueError "Length of values does not match length of index".

Definition loop_steps {A} (DATA_NAME : pyval) (m : ST script_state A) : Prop :=
  ∀ σ r σ', m σ = (r, σ') →
    loop_step DATA_NAME σ σ' ∧ ∀ e, r = Raise e → loop_exn (results σ).*1 e.

End ScriptFootprint.

(** ** Vocabulary for the statements about the command line *)

(** What the parser of [train.py] can store under the attribute [k]: a
    choice or the empty list for [data_name], an integer or the empty list
    for the three numbers. *)
Definition parsed_value (k : string) (v : pyval) : Prop :=
  (k = "data_name" ∧ v ∈ [PyStr "voc"; PyStr "coco"; PyStr "cityscapes"; PyEmptyList])
  ∨ (k ∈ ["batch_size"; "num_iterations"; "num_epochs"]
     ∧ (v = PyEmptyList ∨ ∃ z, v = PyInt z)).

(** Replace a closed term by its value. *)
Ltac evaluate t :=
  let v := eval vm_compute in t in
  replace t with v by (vm_compute; reflexivity).

(** * Properties *)

(** ** The monad *)

Section MonadFacts.
Context {Σ : Type}.

Lemma bind_Return {A B} (m : ST Σ A) (k : A → ST Σ B) a σ σ' :
  m σ = (Return a, σ') → bind m k σ = k a σ'.
Proof. unfold bind. by intros ->. Qed.

Lemma bind_Raise {A B} (m : ST Σ A) (k : A → ST Σ B) e σ σ' :
  m σ = (Raise e, σ') → bind m k σ = (Raise e, σ').
Proof. unfold bind. by intros ->. Qed.

End MonadFacts.

(** ** Choice of the dataset class *)

Section LoadData.
Context `{DU : DcaseUtil}.

Lemma select_data_set_unrecognized data_type :
  data_type ∉ recognized_names →
  select_data_set data_type
  = Raise (NotImplementedError (format data_type +:+ " is not implemented")).
Proof.
  intros Hn. unfold select_data_set, recognized_names in *.
  repeat case_decide; subst; try done; exfalso; apply Hn; set_solver.
Qed.

Lemma select_data_set_recognized data_type :
  data_type ∈ recognized_names →
  ∃ c, select_data_set data_type
       = Return (DataSet c "raw_data" (Str.data_dir (format data_type))).
Proof.
  unfold recognized_names. rewrite !elem_of_cons, elem_of_nil.
  intros [->|[->|[->|[->|[]]]]]; eexists; reflexivity.
Qed.

Lemma only_raises_ret {A} P (a : A) : only_raises P (ret a).
Proof. intros fs e fs' H. discriminate. Qed.

Lemma only_raises_bind {A B} P (m : M A) (k : A → M B) :
  only_raises P m → (∀ a, only_raises P (k a)) → only_raises P (bind m k).
Proof.
  intros Hm Hk fs e fs'. unfold bind.
  destruct (m fs) as [[a|e1] fs1] eqn:E.
  - apply Hk.
  - intros [= <- <-]. eapply Hm, E.
Qed.

Lemma only_raises_weaken {A} (P Q : exn → Prop) (m : M A) :
  (∀ e, P e → Q e) → only_raises P m → only_raises Q m.
Proof. intros HPQ Hm fs e fs' H. eapply HPQ, Hm, H. Qed.

Lemma only_raises_for_each {A} P (xs : list A) (body : A → M unit) :
  (∀ x, only_raises P (body x)) → only_raises P (for_each xs body).
Proof.
  intros Hb. induction xs as [|x xs IH]; simpl.
  - apply only_raises_ret.
  - apply only_raises_bind; auto.
Qed.

Lemma only_raises_for_fold {A B} P (xs : list A) (step : B → A → M B) b :
  (∀ b x, only_raises P (step b x)) → only_raises P (for_fold xs b step).
Proof.
  intros Hb. revert b. induction xs as [|x xs IH]; intros b; simpl.
  - apply only_raises_ret.
  - apply only_raises_bind; auto.
Qed.

Lemma only_raises_path_exists P p : only_raises P (path_exists p).
Proof. intros fs e fs' H. discriminate. Qed.

Lemma only_raises_Path_create P p : only_raises P (Path_create p).
Proof. intros fs e fs' H. discriminate. Qed.

Lemma only_raises_write P p x : only_raises P (write p x).
Proof. intros fs e fs' H. discriminate. Qed.

Lemma only_raises_AudioContainer_load p : only_raises is_IOError (AudioContainer_load p).
Proof.
  intros fs e fs'. unfold AudioContainer_load.
  repeat case_match; intros [= <- <-]; by eexists.
Qed.

Lemma only_raises_FeatureContainer_load p :
  only_raises is_IOError (FeatureContainer_load p).
Proof.
  intros fs e fs'. unfold FeatureContainer_load.
  repeat case_match; intros [= <- <-]; by eexists.
Qed.

Lemma only_raises_Normalizer_load p : only_raises is_IOError (Normalizer_load p).
Proof.
  intros fs e fs'. unfold Normalizer_load.
  repeat case_match; intros [= <- <-]; by eexists.
Qed.

(** Of its own, [process_data] fails only on a file it cannot load. *)
Lemma only_raises_process_data ds data_type :
  only_raises is_IOError (process_data ds data_type).
Proof.
  unfold process_data. apply only_raises_bind.
  - unfold extract_features.
    apply only_raises_bind; [apply only_raises_path_exists|]. intros b1.
    destruct (negb b1); [|apply only_raises_ret].
    apply only_raises_bind; [apply only_raises_Path_create|]. intros _.
    apply only_raises_for_each. intros x.
    apply only_raises_bind; [apply only_raises_AudioContainer_load|]. intros a.
    apply only_raises_write.
  - intros _. unfold compute_normalizer.
    apply only_raises_bind; [apply only_raises_path_exists|]. intros b2.
    destruct (negb b2); [|apply only_raises_ret].
    apply only_raises_bind; [|intros n; apply only_raises_write].
    apply only_raises_for_fold. intros n x.
    apply only_raises_bind; [apply only_raises_FeatureContainer_load|]. intros f.
    apply only_raises_ret.
Qed.

Lemma comprehension_Raise {A B} (P : exn → Prop) (f : A → result B) xs e :
  (∀ x e, f x = Raise e → P e) → comprehension f xs = Raise e → P e.
Proof.
  intros Hf. induction xs as [|x xs IH]; simpl; [done|].
  destruct (f x) eqn:E; [|intros [= <-]; eauto].
  destruct (comprehension f xs); [done|]. intros [= <-]. auto.
Qed.

Lemma only_raises_filtered ds data_type files :
  only_raises (λ e, ∃ m, e = IndexError m) (lift (filtered ds data_type files)).
Proof.
  intros fs e fs'. unfold lift. intros [= H <-]. revert H.
  apply (comprehension_Raise (λ e, ∃ m, e = IndexError m)). intros x e'.
  destruct (unique_scene_labels ds x); [|done]. intros [= <-]. by eexists.
Qed.

Lemma only_raises_MusicData_init_PyList rows :
  only_raises (λ e, ∃ m, e = TypeError m) (MusicData_init (PyList rows)).
Proof. intros fs e fs'. simpl. unfold raise. intros [= <- <-]. by eexists. Qed.

(** After the dataset object is constructed, a [NotImplementedError] can
    only come out of the library call [data_set.initialize()]. *)
Lemma load_data_from_NotImplemented ds data_type batch_size fs msg :
  (load_data_from ds data_type batch_size fs).1 = Raise (NotImplementedError msg) →
  (initialize ds fs).1 = Raise (NotImplementedError msg).
Proof.
  unfold load_data_from, bind at 1.
  destruct (initialize ds fs) as [[[]|e] fs1]; simpl; [|by intros [= ->]].
  match goal with |- (?c fs1).1 = _ → _ =>
    assert (only_raises (λ e, ∀ s, e ≠ NotImplementedError s) c) as Hm;
    [|destruct (c fs1) as [r fs2] eqn:E; simpl; intros ->;
      by destruct (Hm _ _ _ E msg)] end.
  apply only_raises_bind.
  { eapply only_raises_weaken, only_raises_process_data. by intros ? [? ->]. }
  intros _. repeat (apply only_raises_bind;
    [eapply only_raises_weaken, only_raises_filtered; by intros ? [? ->]|intros ?]).
  repeat (apply only_raises_bind;
    [eapply only_raises_weaken, only_raises_MusicData_init_PyList; by intros ? [? ->]|intros ?]).
  apply only_raises_ret.
  Unshelve. all: exact [].
Qed.

(** C1.  [load_data] raises its [NotImplementedError] on every argument
    that is not one of the four recognized names, before it touches the
    file system; on each of the four names the dataset object of the
    matching class is constructed, the function goes on with it, and a
    [NotImplementedError] can then only be one that the library raised
    inside [data_set.initialize()]. *)
Theorem load_data_NotImplementedError (data_type batch_size : pyval) (fs : filesystem) :
  (data_type ∉ recognized_names →
     load_data data_type batch_size fs
     = (Raise (NotImplementedError (format data_type +:+ " is not implemented")), fs))
  ∧ (data_type ∈ recognized_names →
     ∃ ds, select_data_set data_type = Return ds
         ∧ load_data data_type batch_size fs
           = load_data_from ds (format data_type) batch_size fs
         ∧ ∀ msg, (load_data data_type batch_size fs).1 = Raise (NotImplementedError msg) →
                  (initialize ds fs).1 = Raise (NotImplementedError msg)).
Proof.
  split.
  - intros Hn. unfold load_data, bind, lift.
    by rewrite (select_data_set_unrecognized _ Hn).
  - intros Hin. destruct (select_data_set_recognized _ Hin) as [c Hc].
    eexists. split; [exact Hc|].
    assert (load_data data_type batch_size fs
            = load_data_from (DataSet c "raw_data" (Str.data_dir (format data_type)))
                (format data_type) batch_size fs) as Heq.
    { unfold load_data, bind, lift. by rewrite Hc. }
    split; [exact Heq|]. intros msg. rewrite Heq.
    apply load_data_from_NotImplemented.
Qed.

End LoadData.

(** ** [process_data] and the file system *)

Section ProcessData.
Context `{DU : DcaseUtil}.

Lemma keeps_paths_ret {A} (a : A) : keeps_paths (ret a).
Proof. by intros fs r fs' p [= <- <-]. Qed.

Lemma keeps_paths_bind {A B} (m : M A) (k : A → M B) :
  keeps_paths m → (∀ a, keeps_paths (k a)) → keeps_paths (bind m k).
Proof.
  intros Hm Hk fs r fs' p. unfold bind.
  destruct (m fs) as [[a|e] fs1] eqn:E.
  - intros H ?. eapply Hk; [exact H|]. eapply Hm; eauto.
  - intros [= <- <-]. eapply Hm; eauto.
Qed.

Lemma keeps_paths_for_each {A} (xs : list A) (body : A → M unit) :
  (∀ x, keeps_paths (body x)) → keeps_paths (for_each xs body).
Proof.
  intros Hb. induction xs; simpl;
    [apply keeps_paths_ret | apply keeps_paths_bind; auto].
Qed.

Lemma keeps_paths_for_fold {A B} (xs : list A) (step : B → A → M B) b :
  (∀ b x, keeps_paths (step b x)) → keeps_paths (for_fold xs b step).
Proof.
  intros Hb. revert b. induction xs; intros b; simpl;
    [apply keeps_paths_ret | apply keeps_paths_bind; auto].
Qed.

Lemma keeps_paths_write p x : keeps_paths (write p x).
Proof.
  intros fs r fs' q [= <- <-] Hq. destruct (decide (p = q)) as [->|].
  - rewrite lookup_insert_eq. eauto.
  - by rewrite lookup_insert_ne.
Qed.

Lemma keeps_paths_reader {A} (m : M A) :
  (∀ fs, (m fs).2 = fs) → keeps_paths m.
Proof.
  intros Hm fs r fs' p E. specialize (Hm fs). rewrite E in Hm. by simplify_eq/=.
Qed.

Lemma mkdir_keeps fs d p : is_Some (fs !! p) → is_Some (mkdir fs d !! p).
Proof.
  unfold mkdir. destruct (fs !! d) eqn:E; [done|].
  intros Hp. destruct (decide (d = p)) as [->|].
  - rewrite lookup_insert_eq. eauto.
  - by rewrite lookup_insert_ne.
Qed.

Lemma mkdir_creates fs d : is_Some (mkdir fs d !! d).
Proof.
  unfold mkdir. destruct (fs !! d) eqn:E; [by rewrite E|].
  rewrite lookup_insert_eq. eauto.
Qed.

Lemma foldl_mkdir_keeps ds fs p :
  is_Some (fs !! p) → is_Some (foldl mkdir fs ds !! p).
Proof.
  revert fs. induction ds as [|d ds IH]; intros fs; simpl; [done|].
  intros. by apply IH, mkdir_keeps.
Qed.

Lemma foldl_mkdir_creates ds fs d :
  d ∈ ds → is_Some (foldl mkdir fs ds !! d).
Proof.
  revert fs. induction ds as [|d' ds IH]; intros fs; [by intros ?%elem_of_nil|].
  intros [->|Hin]%elem_of_cons; simpl.
  - apply foldl_mkdir_keeps, mkdir_creates.
  - by apply IH.
Qed.

Lemma prefixes_go_whole seen s : String.rev_app seen s ∈ prefixes_go seen s.
Proof.
  revert seen. induction s as [|c s IH]; intros seen; simpl.
  - apply list_elem_of_singleton. reflexivity.
  - case_decide; [apply elem_of_cons; right|]; apply (IH (String c seen)).
Qed.

Lemma prefixes_whole p : p ≠ EmptyString → p ∈ prefixes p.
Proof.
  intros Hp. unfold prefixes. apply list_elem_of_filter. split; [done|].
  apply (prefixes_go_whole EmptyString p).
Qed.

Lemma Path_create_creates p fs :
  p ≠ EmptyString → is_Some ((Path_create p fs).2 !! p).
Proof. intros Hp. simpl. by apply foldl_mkdir_creates, prefixes_whole. Qed.

Lemma keeps_paths_Path_create p : keeps_paths (Path_create p).
Proof. intros fs r fs' q [= <- <-]. apply foldl_mkdir_keeps. Qed.

Lemma keeps_paths_extract_features ds data_type :
  keeps_paths (extract_features ds data_type).
Proof.
  unfold extract_features. apply keeps_paths_bind; [by apply keeps_paths_reader|].
  intros b. destruct (negb b); [|apply keeps_paths_ret].
  apply keeps_paths_bind; [apply keeps_paths_Path_create|]. intros _.
  apply keeps_paths_for_each. intros x. apply keeps_paths_bind.
  - apply keeps_paths_reader. intros fs. unfold AudioContainer_load.
    by repeat case_match.
  - intros a. apply keeps_paths_write.
Qed.

(** The first guard: with the features directory in place, nothing is
    extracted and nothing is written. *)
Lemma extract_features_skips ds data_type fs :
  is_Some (fs !! Str.data_file data_type "features") →
  extract_features ds data_type fs = (Return (), fs).
Proof.
  intros H. unfold extract_features, bind, path_exists.
  by rewrite bool_decide_true.
Qed.

(** The second guard: with the factor file in place, no normalizer is
    computed and nothing is written. *)
Lemma compute_normalizer_skips ds data_type fs :
  is_Some (fs !! norm_factors_path data_type) →
  compute_normalizer ds data_type fs = (Return (), fs).
Proof.
  intros H. unfold compute_normalizer, bind, path_exists.
  by rewrite bool_decide_true.
Qed.

Lemma data_file_nonempty data_type leaf : Str.data_file data_type leaf ≠ EmptyString.
Proof. done. Qed.

Lemma extract_features_Return ds data_type fs fs' :
  extract_features ds data_type fs = (Return (), fs') →
  is_Some (fs' !! Str.data_file data_type "features").
Proof.
  unfold extract_features, bind at 1, path_exists.
  destruct (bool_decide (is_Some (fs !! Str.data_file data_type "features"))) eqn:E; simpl.
  - intros [= <-]. by apply bool_decide_eq_true in E.
  - unfold bind at 1.
    pose proof (Path_create_creates (Str.data_file data_type "features") fs
                  (data_file_nonempty _ _)) as Hc.
    destruct (Path_create (Str.data_file data_type "features") fs) as [[[]|e] fs1] eqn:E1;
      [|discriminate].
    simpl in Hc. intros Hfe. eapply keeps_paths_for_each; [|exact Hfe|exact Hc].
    intros x. apply keeps_paths_bind.
    + apply keeps_paths_reader. intros fs0. unfold AudioContainer_load.
      by repeat case_match.
    + intros a. apply keeps_paths_write.
Qed.

Lemma compute_normalizer_Return ds data_type fs fs' :
  compute_normalizer ds data_type fs = (Return (), fs') →
  is_Some (fs' !! norm_factors_path data_type).
Proof.
  unfold compute_normalizer, bind at 1, path_exists.
  destruct (bool_decide (is_Some (fs !! norm_factors_path data_type))) eqn:E; simpl.
  - intros [= <-]. by apply bool_decide_eq_true in E.
  - unfold bind at 1.
    match goal with |- context [for_fold ?xs ?b ?s fs] =>
      destruct (for_fold xs b s fs) as [[n|e] fs1] end; [|discriminate].
    unfold write. intros [= <-]. rewrite lookup_insert_eq. eauto.
Qed.

Lemma keeps_paths_compute_normalizer ds data_type :
  keeps_paths (compute_normalizer ds data_type).
Proof.
  unfold compute_normalizer. apply keeps_paths_bind; [by apply keeps_paths_reader|].
  intros b. destruct (negb b); [|apply keeps_paths_ret].
  apply keeps_paths_bind; [|intros n; apply keeps_paths_write].
  apply keeps_paths_for_fold. intros n x. apply keeps_paths_bind.
  - apply keeps_paths_reader. intros fs. unfold FeatureContainer_load.
    by repeat case_match.
  - intros f. apply keeps_paths_ret.
Qed.

(** A run that returns leaves both the features directory and the factor
    file behind. *)
Lemma process_data_Return ds data_type fs fs' :
  process_data ds data_type fs = (Return (), fs') →
  is_Some (fs' !! Str.data_file data_type "features")
  ∧ is_Some (fs' !! norm_factors_path data_type).
Proof.
  unfold process_data, bind.
  destruct (extract_features ds data_type fs) as [[[]|e] fs1] eqn:E1; [|discriminate].
  intros E2. split.
  - eapply keeps_paths_compute_normalizer; [exact E2|].
    eapply extract_features_Return, E1.
  - eapply compute_normalizer_Return, E2.
Qed.

Lemma process_data_skips ds data_type fs :
  is_Some (fs !! Str.data_file data_type "features") →
  is_Some (fs !! norm_factors_path data_type) →
  process_data ds data_type fs = (Return (), fs).
Proof.
  intros H1 H2. unfold process_data, bind.
  by rewrite extract_features_skips, compute_normalizer_skips.
Qed.

(** C9.  Each of the two steps of [process_data] is guarded by an
    existence check: with the features directory present no feature is
    extracted, with the factor file present no normalizer is computed, so
    with both present the call returns and leaves the file system as it
    found it; and calling [process_data] twice in a row has the outcome
    and the file system of calling it once, on every file system. *)
Theorem process_data_idempotent (ds : data_set) (data_type : string) (fs : filesystem) :
  (is_Some (fs !! Str.data_file data_type "features") →
     extract_features ds data_type fs = (Return (), fs))
  ∧ (is_Some (fs !! norm_factors_path data_type) →
     compute_normalizer ds data_type fs = (Return (), fs))
  ∧ (is_Some (fs !! Str.data_file data_type "features") →
     is_Some (fs !! norm_factors_path data_type) →
     process_data ds data_type fs = (Return (), fs))
  ∧ (process_data ds data_type ;;; process_data ds data_type) fs
    = process_data ds data_type fs.
Proof.
  split; [apply extract_features_skips|].
  split; [apply compute_normalizer_skips|].
  split; [apply process_data_skips|].
  destruct (process_data ds data_type fs) as [[[]|e] fs'] eqn:E.
  - rewrite (bind_Return _ _ _ _ _ E).
    destruct (process_data_Return _ _ _ _ E). by apply process_data_skips.
  - by rewrite (bind_Raise _ _ _ _ _ E).
Qed.

End ProcessData.

(** ** [MusicData]: labels and their indices *)

Section Labels.

Lemma unique_go_elem_of seen l x :
  x ∈ unique_go seen l ↔ x ∈ l ∧ x ∉ seen.
Proof.
  revert seen. induction l as [|y l IH]; intros seen; simpl.
  - rewrite elem_of_nil. tauto.
  - case_decide as Hy.
    + rewrite IH, elem_of_cons. split; [tauto|].
      intros [[->|?] ?]; [done|tauto].
    + rewrite elem_of_cons, IH, !elem_of_cons. split.
      * intros [->|[? Hx]]; [tauto|]. split; [tauto|]. intros ?. apply Hx. tauto.
      * intros [[->|?] Hx]; [tauto|]. destruct (decide (x = y)); [tauto|].
        right. split; [done|]. intros [?|?]; tauto.
Qed.

Lemma unique_go_NoDup seen l : NoDup (unique_go seen l).
Proof.
  revert seen. induction l as [|y l IH]; intros seen; simpl; [constructor|].
  case_decide; [apply IH|]. constructor; [|apply IH].
  rewrite unique_go_elem_of, elem_of_cons. tauto.
Qed.

Lemma unique_elem_of l x : x ∈ unique l ↔ x ∈ l.
Proof. unfold unique. rewrite unique_go_elem_of, elem_of_nil. tauto. Qed.

Lemma unique_NoDup l : NoDup (unique l).
Proof. apply unique_go_NoDup. Qed.

Lemma sorted_Permutation l : sorted l ≡ₚ l.
Proof. apply merge_sort_Permutation. Qed.

Lemma sorted_Sorted l : Sorted String.le (sorted l).
Proof. apply (Sorted_merge_sort String.le). Qed.

Lemma enumerate_snoc {A} (l : list A) x :
  enumerate (l ++ [x]) = enumerate l ++ [(length l, x)].
Proof. unfold enumerate. rewrite imap_app. simpl. by rewrite Nat.add_0_r. Qed.

Lemma dict_of_snoc pairs p : dict_of (pairs ++ [p]) = <[p.2 := p.1]> (dict_of pairs).
Proof. unfold dict_of. by rewrite foldl_app. Qed.

(** The dict built from [enumerate] of a duplicate-free list sends each
    element to its position, and nothing else to anything. *)
Lemma dict_of_enumerate_lookup (l : list string) x i :
  NoDup l → dict_of (enumerate l) !! x = Some i ↔ l !! i = Some x.
Proof.
  revert x i. induction l as [|y l IH] using rev_ind; intros x i Hnd.
  - unfold dict_of, enumerate. simpl. by rewrite lookup_empty.
  - apply NoDup_app in Hnd as (Hnd & Hy & _).
    rewrite enumerate_snoc, dict_of_snoc. simpl.
    destruct (decide (y = x)) as [->|Hne].
    + rewrite lookup_insert_eq. split.
      * intros [= <-]. by rewrite lookup_app_r, Nat.sub_diag by lia.
      * intros Hi. f_equal. destruct (decide (i < length l)%nat) as [Hlt|Hge].
        -- rewrite lookup_app_l in Hi by done.
           exfalso. apply (Hy x); [|by apply list_elem_of_singleton].
           eapply list_elem_of_lookup_2, Hi.
        -- apply lookup_lt_Some in Hi. rewrite length_app in Hi. simpl in Hi. lia.
    + rewrite lookup_insert_ne by done. rewrite IH by done. split.
      * intros Hi. rewrite lookup_app_l; [done|]. by eapply lookup_lt_Some.
      * intros Hi. destruct (decide (i < length l)%nat) as [Hlt|Hge].
        -- by rewrite lookup_app_l in Hi.
        -- rewrite lookup_app_r in Hi by lia.
           destruct (i - length l)%nat; simpl in Hi; [congruence|done].
Qed.

Lemma comprehension_Return {A B} (f : A → result B) (g : A → B) xs :
  (∀ x, x ∈ xs → f x = Return (g x)) → comprehension f xs = Return (g <$> xs).
Proof.
  induction xs as [|x xs IH]; intros Hf; simpl; [done|].
  rewrite Hf by apply list_elem_of_here.
  rewrite IH; [done|]. intros y Hy. apply Hf. by apply list_elem_of_further.
Qed.

(** The index of a label: its position among the distinct labels in
    ascending order. *)
Lemma make_label2index_lookup labels label i :
  make_label2index labels !! label = Some i ↔ sorted (unique labels) !! i = Some label.
Proof.
  unfold make_label2index. apply dict_of_enumerate_lookup.
  rewrite sorted_Permutation. apply unique_NoDup.
Qed.

Lemma make_label2index_is_Some labels label :
  label ∈ labels → is_Some (make_label2index labels !! label).
Proof.
  intros Hin. assert (label ∈ sorted (unique labels)) as Hs.
  { rewrite sorted_Permutation. by apply unique_elem_of. }
  apply list_elem_of_lookup_1 in Hs as [i Hi].
  exists i. by apply make_label2index_lookup.
Qed.

End Labels.

Section MusicDataFacts.
Context `{DU : DcaseUtil}.

(** What [__init__] computes before it loads the normalizer: no look-up
    in [label2index] fails, and [targets] has the index of each row's
    label. *)
Lemma MusicData_init_run (rows : list row) :
  ∃ targets : list nat,
    length targets = length rows
    ∧ (∀ i r, rows !! i = Some r →
         ∃ t, targets !! i = Some t
              ∧ make_label2index (file_label <$> rows) !! file_label r = Some t)
    ∧ ∀ fs : filesystem,
        MusicData_init (DataFrame rows) fs
        = (let* n := Normalizer_load "norm_factors.cpickle" in
           ret {| samples := file_name <$> rows;
                  label2index := make_label2index (file_label <$> rows);
                  targets := targets; self_normalizer := n |}) fs.
Proof.
  set (labels := file_label <$> rows). set (l2i := make_label2index labels).
  exists ((λ label, default 0%nat (l2i !! label)) <$> labels).
  split; [unfold labels; by rewrite !length_fmap|]. split.
  - intros i r Hr. exists (default 0%nat (l2i !! file_label r)). split.
    + unfold labels. by rewrite !list_lookup_fmap, Hr.
    + destruct (make_label2index_is_Some labels (file_label r)) as [t Ht].
      { unfold labels. apply list_elem_of_fmap. exists r. split; [done|].
        eapply list_elem_of_lookup_2, Hr. }
      fold l2i in Ht. by rewrite Ht.
  - intros fs. unfold MusicData_init. fold labels. fold l2i.
    rewrite (bind_Return _ _ ((λ label, default 0%nat (l2i !! label)) <$> labels) fs fs);
      [done|].
    unfold lift. f_equal. apply comprehension_Return. intros label Hl.
    unfold getitem_dict.
    destruct (make_label2index_is_Some labels label Hl) as [t Ht].
    fold l2i in Ht. by rewrite Ht.
Qed.

(** C5.  For every table, [MusicData.__init__] gives each distinct label
    its position in the ascending list of the distinct labels: the list
    [ranked] has no duplicate, is sorted and holds exactly the labels of
    the table; [label2index] sends a label to [i] exactly when it stands
    at position [i] of [ranked], so the indices in use are exactly
    [0 .. k-1] for [k] distinct labels; no lookup fails, and [targets] has
    one entry per row, the index of that row's label. *)
Theorem MusicData_init_label_indices (rows : list row) :
  let labels := file_label <$> rows in
  let ranked := sorted (unique labels) in
  let l2i := make_label2index labels in
  (NoDup ranked ∧ Sorted String.le ranked ∧ ∀ x, x ∈ ranked ↔ x ∈ labels)
  ∧ (∀ label i, l2i !! label = Some i ↔ ranked !! i = Some label)
  ∧ (∀ i, (∃ label, l2i !! label = Some i) ↔ (i < length ranked)%nat)
  ∧ ∃ targets : list nat,
      length targets = length rows
      ∧ (∀ i r, rows !! i = Some r →
           ∃ t, targets !! i = Some t ∧ l2i !! file_label r = Some t)
      ∧ ∀ fs : filesystem,
          MusicData_init (DataFrame rows) fs
          = (let* n := Normalizer_load "norm_factors.cpickle" in
             ret {| samples := file_name <$> rows; label2index := l2i;
                    targets := targets; self_normalizer := n |}) fs.
Proof.
  intros labels ranked l2i.
  assert (∀ label i, l2i !! label = Some i ↔ ranked !! i = Some label) as Hrank
    by apply make_label2index_lookup.
  split; [|split; [exact Hrank|split]].
  - split; [|split].
    + unfold ranked. rewrite sorted_Permutation. apply unique_NoDup.
    + apply sorted_Sorted.
    + intros x. unfold ranked. rewrite sorted_Permutation. apply unique_elem_of.
  - intros i. split.
    + intros [label Hl]. apply Hrank in Hl. by eapply lookup_lt_Some.
    + intros Hi. apply lookup_lt_is_Some_2 in Hi as [label Hl].
      exists label. by apply Hrank.
  - apply MusicData_init_run.
Qed.

Lemma getitem_seq_in_range {A} (a : list A) (i : nat) x :
  a !! i = Some x → getitem_seq a (Z.of_nat i) = Return x.
Proof.
  intros Hi. pose proof (lookup_lt_Some _ _ _ Hi) as Hlt.
  unfold getitem_seq. cbv zeta. rewrite (decide_False (P := Z.of_nat i < 0)) by lia.
  rewrite decide_True by lia. by rewrite Nat2Z.id, Hi.
Qed.

(** C8.  On a dataset built from a table, for every row index [i],
    [__getitem__(i)] loads the feature file named in row [i], normalizes
    the feature with the normalizer that [__init__] loaded, casts it to
    float32, turns it into a tensor and adds a leading dimension, and
    pairs it with the tensor of [targets[i]], the index of the row's label;
    it fails only when that file cannot be loaded, and it leaves the file
    system alone.  [__len__] is the number of rows. *)
Theorem MusicData_getitem_len (rows : list row) (fs fs0 : filesystem)
    (self : MusicData) (i : nat) (r : row) :
  MusicData_init (DataFrame rows) fs0 = (Return self, fs0) →
  rows !! i = Some r →
  MusicData_len self = length rows
  ∧ (0 ≤ Z.of_nat i < Z.of_nat (MusicData_len self))
  ∧ fs0 !! "norm_factors.cpickle" = Some (File (NormalizerPickle (self_normalizer self)))
  ∧ ∃ t : nat,
      targets self !! i = Some t
      ∧ label2index self !! file_label r = Some t
      ∧ MusicData_getitem self (Z.of_nat i) fs
        = (let* f := FeatureContainer_load (file_name r) in
           ret (unsqueeze 0 (from_numpy (astype_float32
                  (normalize (self_normalizer self) f))),
                from_numpy (np_array t))) fs
      ∧ ∀ f : feature,
          fs !! file_name r = Some (File (FeaturePickle f)) →
          MusicData_getitem self (Z.of_nat i) fs
          = (Return (unsqueeze 0 (from_numpy (astype_float32
                       (normalize (self_normalizer self) f))),
                     from_numpy (np_array t)), fs).
Proof.
  intros Hinit Hr.
  destruct (MusicData_init_run rows) as (tg & Hlen & Htg & Hi).
  rewrite Hi in Hinit. unfold bind, Normalizer_load in Hinit.
  destruct (fs0 !! "norm_factors.cpickle") as [[|[| |n| |]]|] eqn:Hn; try discriminate.
  injection Hinit as <-.
  unfold MusicData_len. simpl. rewrite length_fmap.
  pose proof (lookup_lt_Some _ _ _ Hr).
  split; [done|]. split; [lia|]. split; [done|].
  destruct (Htg i r Hr) as (t & Ht & Hl). exists t. split; [done|]. split; [done|].
  assert (∀ fs1 : filesystem,
            MusicData_getitem
              {| samples := file_name <$> rows;
                 label2index := make_label2index (file_label <$> rows);
                 targets := tg; self_normalizer := n |} (Z.of_nat i) fs1
            = (let* f := FeatureContainer_load (file_name r) in
               ret (unsqueeze 0 (from_numpy (astype_float32 (normalize n f))),
                    from_numpy (np_array t))) fs1) as Hget.
  { intros fs1. unfold MusicData_getitem. simpl.
    rewrite (bind_Return _ _ (file_name r) fs1 fs1).
    2:{ unfold lift. f_equal. apply getitem_seq_in_range.
        by rewrite list_lookup_fmap, Hr. }
    unfold bind at 1 3.
    destruct (FeatureContainer_load (file_name r) fs1) as [[f|e] fs2] eqn:Hload; [|done].
    assert (fs2 = fs1) as ->.
    { unfold FeatureContainer_load in Hload. by repeat case_match; simplify_eq. }
    rewrite (bind_Return _ _ t fs1 fs1); [done|].
    unfold lift. f_equal. by apply getitem_seq_in_range. }
  split; [apply Hget|].
  intros f Hf. rewrite Hget. unfold bind, FeatureContainer_load. by rewrite Hf.
Qed.

End MusicDataFacts.

(** ** The epoch loop *)

Section EpochLoop.
Context `{DU : DcaseUtil}.

Lemma for_each_app {Σ A} (xs ys : list A) (body : A → ST Σ unit) σ :
  for_each (xs ++ ys) body σ = (for_each xs body ;;; for_each ys body) σ.
Proof.
  revert σ. induction xs as [|x xs IH]; intros σ; simpl; [done|].
  unfold bind. destruct (body x σ) as [[[]|e] σ1]; [|done].
  rewrite IH. reflexivity.
Qed.

Lemma results_after_S oracle e :
  results_after oracle (S e)
  = (λ c, (c.1, ((λ i, c.2 (oracle i)) <$> seq 1 e) ++ [c.2 (oracle (S e))])) <$> columns.
Proof.
  unfold results_after. apply list_fmap_ext. intros _ c _.
  by rewrite seq_S, fmap_app.
Qed.

Lemma pd_DataFrame_results_after oracle e :
  pd_DataFrame (results_after oracle e) (seq 1 e)
  = Return {| df_index := seq 1 e; df_columns := results_after oracle e |}.
Proof.
  unfold pd_DataFrame, results_after, columns. simpl.
  by rewrite !length_fmap, !bool_decide_eq_true_2.
Qed.

Lemma csv_rows_results_after oracle e :
  csv_rows {| df_index := seq 1 e; df_columns := results_after oracle e |}
  = csv_rows_after oracle e.
Proof.
  unfold csv_rows, csv_rows_after. cbn [df_index df_columns]. apply list_eq. intros i.
  rewrite list_lookup_imap, list_lookup_fmap.
  destruct (seq 1 e !! i) as [k|] eqn:Hk; [|done].
  apply lookup_seq in Hk as [-> Hi]. cbn [fmap option_fmap option_map]. f_equal. f_equal.
  unfold results_after. rewrite <- list_fmap_compose.
  apply list_fmap_ext. intros _ c _. cbn [compose snd].
  apply list_lookup_total_correct.
  by rewrite list_lookup_fmap, lookup_seq_lt.
Qed.

Lemma csv_header_results_after oracle e :
  csv_header "epoch" {| df_index := seq 1 e; df_columns := results_after oracle e |}
  = "epoch" :: columns.*1.
Proof. reflexivity. Qed.

Lemma paths_differ DATA_NAME : checkpoint_path DATA_NAME ≠ statistics_path DATA_NAME.
Proof. done. Qed.

(** One epoch, up to the look-up of [utils.ProbAM] (lines 72-132): the six
    values are appended and, on a new best accuracy, the model is saved. *)
Lemma epoch_body_run utils DATA_NAME oracle e b (fs : filesystem) sv :
  epoch_body utils DATA_NAME oracle (S e)
    {| results := results_after oracle e; best_acc := b; files := fs; saved := sv |}
  = let improved := negb (Qle_bool (acc oracle (S e)) b) in
    let fs1 := if improved
               then <[checkpoint_path DATA_NAME := File (StateDict (S e))]> fs else fs in
    let σ1 := {| results := results_after oracle (S e);
                 best_acc := if improved then acc oracle (S e) else b;
                 files := fs1;
                 saved := if improved then sv ++ [S e] else sv |} in
    if decide ("ProbAM" ∈ utils) then
      (Return (),
       {| results := results_after oracle (S e);
          best_acc := best_acc σ1;
          files := <[statistics_path DATA_NAME
                     := File (Csv ("epoch" :: columns.*1) (csv_rows_after oracle (S e)))]> fs1;
          saved := saved σ1 |})
    else (Raise (AttributeError "module 'utils' has no attribute 'ProbAM'"), σ1).
Proof.
  cbv zeta. unfold epoch_body, acc.
  pose proof (results_after_S oracle e) as HS.
  pose proof (pd_DataFrame_results_after oracle (S e)) as HD.
  pose proof (csv_rows_results_after oracle (S e)) as HC.
  pose proof (csv_header_results_after oracle (S e)) as HH.
  remember (results_after oracle (S e)) as R eqn:HR. clear HR.
  remember (seq 1 (S e)) as index eqn:HI. clear HI.
  unfold columns in HS. simpl in HS.
  unfold results_after, columns. simpl fmap.
  unfold results_append, bind, get_results, lift, set_results, get_best_acc. simpl.
  rewrite <- HS.
  destruct (negb (Qle_bool (test_accuracy_1 (oracle (S e))) b)); simpl;
    unfold getattr_module; destruct (decide ("ProbAM" ∈ utils)); simpl; try done.
  - rewrite HD. unfold to_csv, on_files, write. simpl. by rewrite HC, HH.
  - rewrite HD. unfold to_csv, on_files, write. simpl. by rewrite HC, HH.
Qed.

Lemma improved_iff oracle e (b : Q) :
  (0 <= b)%Q →
  (∀ j, (1 ≤ j ≤ e)%nat → (acc oracle j <= b)%Q) →
  (b = 0%Q ∨ ∃ j, (1 ≤ j ≤ e)%nat ∧ b = acc oracle j) →
  negb (Qle_bool (acc oracle (S e)) b) = true ↔ record_epoch oracle (S e).
Proof.
  intros H0 Hle Hmax. rewrite negb_true_iff, <- not_true_iff_false, Qle_bool_iff.
  unfold record_epoch. split.
  - intros Hlt%Qnot_le_lt. split.
    + eapply Qle_lt_trans; eauto.
    + intros j Hj. eapply Qle_lt_trans; [apply Hle; lia|done].
  - intros [Hpos Hall]. apply Qlt_not_le.
    destruct Hmax as [->|(j & Hj & ->)]; [done|]. apply Hall. lia.
Qed.

(** The state after [n] epochs, when the module [utils] has the attribute
    that line 135 asks for. *)
Lemma epochs_run utils DATA_NAME oracle (fs : filesystem) n :
  "ProbAM" ∈ utils →
  ∃ σ, epochs utils DATA_NAME oracle n (ready fs) = (Return (), σ)
     ∧ results σ = results_after oracle n
     ∧ (0 <= best_acc σ)%Q
     ∧ (∀ j, (1 ≤ j ≤ n)%nat → (acc oracle j <= best_acc σ)%Q)
     ∧ (best_acc σ = 0%Q ∨ ∃ j, (1 ≤ j ≤ n)%nat ∧ best_acc σ = acc oracle j)
     ∧ (∀ e, e ∈ saved σ ↔ (1 ≤ e ≤ n)%nat ∧ record_epoch oracle e)
     ∧ ((1 ≤ n)%nat →
        files σ !! statistics_path DATA_NAME
        = Some (File (Csv ("epoch" :: columns.*1) (csv_rows_after oracle n))))
     ∧ files σ !! checkpoint_path DATA_NAME
       = match last (saved σ) with
         | Some e => Some (File (StateDict e))
         | None => fs !! checkpoint_path DATA_NAME
         end.
Proof.
  intros HP. induction n as [|n IH].
  - exists (ready fs). split; [done|]. split; [done|]. split; [done|].
    split; [intros; lia|]. split; [by left|].
    split; [|split; [intros; lia|done]].
    intros e. simpl. rewrite elem_of_nil. split; [done|]. intros [? _]. lia.
  - destruct IH as (σ & Hrun & Hres & H0 & Hle & Hmax & Hsaved & Hcsv & Hck).
    unfold epochs in *. rewrite seq_S, for_each_app.
    rewrite (bind_Return _ _ _ _ _ Hrun). simpl.
    destruct σ as [r b f sv]. simpl in *. subst r. unfold bind.
    rewrite epoch_body_run. cbv zeta. rewrite decide_True by done.
    eexists. split; [reflexivity|]. cbn [results best_acc files saved].
    pose proof (improved_iff oracle n b H0 Hle Hmax) as Himp.
    split; [done|].
    destruct (negb (Qle_bool (acc oracle (S n)) b)) eqn:E.
    + assert (record_epoch oracle (S n)) as Hrec by by apply Himp.
      assert (b < acc oracle (S n))%Q as Hlt.
      { apply negb_true_iff in E. apply Qnot_le_lt. intros Hc.
        apply Qle_bool_iff in Hc. congruence. }
      split; [eapply Qle_trans; [exact H0|by apply Qlt_le_weak]|].
      split.
      { intros j Hj. destruct (decide (j = S n)) as [->|]; [apply Qle_refl|].
        eapply Qle_trans; [apply Hle; lia|by apply Qlt_le_weak]. }
      split; [right; exists (S n); split; [lia|done]|].
      split.
      { intros e. rewrite elem_of_app, list_elem_of_singleton, Hsaved. split.
        - intros [[? ?]| ->]; [split; [lia|done]|split; [lia|done]].
        - intros [? ?]. destruct (decide (e = S n)); [by right|left; split; [lia|done]]. }
      split; [intros _; by rewrite lookup_insert_eq|].
      rewrite last_snoc, lookup_insert_ne by (symmetry; apply paths_differ).
      by rewrite lookup_insert_eq.
    + assert (¬ record_epoch oracle (S n)) as Hrec.
      { intros Hr%Himp. congruence. }
      split; [done|]. split.
      { intros j Hj. destruct (decide (j = S n)) as [->|]; [|apply Hle; lia].
        apply negb_false_iff in E. by apply Qle_bool_iff. }
      split.
      { destruct Hmax as [->|(j & Hj & ->)]; [by left|].
        right. exists j. split; [lia|done]. }
      split.
      { intros e. rewrite Hsaved. split.
        - intros [? ?]. split; [lia|done].
        - intros [? ?]. destruct (decide (e = S n)) as [->|]; [done|]. split; [lia|done]. }
      split; [intros _; by rewrite lookup_insert_eq|].
      by rewrite lookup_insert_ne by (symmetry; apply paths_differ).
Qed.

(** Without that attribute, the first epoch stops at line 135. *)
Lemma epochs_without_ProbAM utils DATA_NAME oracle (fs : filesystem) n :
  "ProbAM" ∉ utils →
  ∃ σ, epochs utils DATA_NAME oracle (S n) (ready fs)
       = (Raise (AttributeError "module 'utils' has no attribute 'ProbAM'"), σ)
     ∧ results σ = results_after oracle 1
     ∧ files σ !! statistics_path DATA_NAME = fs !! statistics_path DATA_NAME
     ∧ saved σ = if negb (Qle_bool (acc oracle 1) 0) then [1%nat] else [].
Proof.
  intros HP. unfold epochs. simpl. unfold bind.
  change (ready fs) with
    {| results := results_after oracle 0; best_acc := 0; files := fs; saved := [] |}.
  rewrite epoch_body_run. cbv zeta. rewrite decide_False by done.
  eexists. split; [reflexivity|]. cbn [results files saved].
  split; [done|]. split; [|done].
  destruct (negb (Qle_bool (acc oracle 1) 0)); [|done].
  by rewrite lookup_insert_ne by apply paths_differ.
Qed.

Lemma epochs_Return utils DATA_NAME oracle (fs : filesystem) n σ :
  epochs utils DATA_NAME oracle n (ready fs) = (Return (), σ) →
  n = 0%nat ∨ "ProbAM" ∈ utils.
Proof.
  intros Hrun. destruct n as [|n]; [by left|]. right.
  destruct (decide ("ProbAM" ∈ utils)) as [|Hn]; [done|].
  destruct (epochs_without_ProbAM utils DATA_NAME oracle fs n Hn) as (σ' & Hr & _).
  congruence.
Qed.

Lemma epoch_loop_epochs utils DATA_NAME oracle (fs : filesystem) (n : nat) :
  epoch_loop utils DATA_NAME (Z.of_nat n) oracle (ready fs)
  = epochs utils DATA_NAME oracle n (ready fs).
Proof. unfold epoch_loop, bind. simpl. by rewrite Nat2Z.id. Qed.

(** The facts of [epochs_run], for a run that is known to have returned. *)
Lemma epoch_loop_Return utils DATA_NAME oracle (fs : filesystem) (n : nat) σ :
  epoch_loop utils DATA_NAME (Z.of_nat n) oracle (ready fs) = (Return (), σ) →
  results σ = results_after oracle n
  ∧ (0 <= best_acc σ)%Q
  ∧ (∀ j, (1 ≤ j ≤ n)%nat → (acc oracle j <= best_acc σ)%Q)
  ∧ (best_acc σ = 0%Q ∨ ∃ j, (1 ≤ j ≤ n)%nat ∧ best_acc σ = acc oracle j)
  ∧ (∀ e, e ∈ saved σ ↔ (1 ≤ e ≤ n)%nat ∧ record_epoch oracle e)
  ∧ ((1 ≤ n)%nat →
     files σ !! statistics_path DATA_NAME
     = Some (File (Csv ("epoch" :: columns.*1) (csv_rows_after oracle n))))
  ∧ files σ !! checkpoint_path DATA_NAME
    = match last (saved σ) with
      | Some e => Some (File (StateDict e))
      | None => fs !! checkpoint_path DATA_NAME
      end.
Proof.
  rewrite epoch_loop_epochs. intros Hrun.
  destruct (epochs_Return _ _ _ _ _ _ Hrun) as [->|HP].
  - injection Hrun as <-. split; [done|]. split; [done|].
    split; [intros; lia|]. split; [by left|].
    split; [|split; [intros; lia|done]].
    intros e. simpl. rewrite elem_of_nil. split; [done|]. intros [? _]. lia.
  - destruct (epochs_run utils DATA_NAME oracle fs n HP) as (σ' & Hrun' & H).
    rewrite Hrun in Hrun'. by injection Hrun' as ->.
Qed.

(** A longer run passes through the state that a shorter one ends in. *)
Lemma epoch_loop_continues utils DATA_NAME oracle (fs : filesystem) (e n : nat) σ :
  epoch_loop utils DATA_NAME (Z.of_nat e) oracle (ready fs) = (Return (), σ) →
  (e ≤ n)%nat →
  epoch_loop utils DATA_NAME (Z.of_nat n) oracle (ready fs)
  = for_each (seq (S e) (n - e)) (epoch_body utils DATA_NAME oracle) σ.
Proof.
  rewrite !epoch_loop_epochs. intros Hrun Hle. unfold epochs in *.
  replace n with (e + (n - e))%nat at 1 by lia.
  rewrite seq_app, for_each_app. by rewrite (bind_Return _ _ _ _ _ Hrun).
Qed.

Lemma results_after_keys oracle e : (results_after oracle e).*1 = columns.*1.
Proof. reflexivity. Qed.


Lemma results_after_prefix oracle k e key lk :
  (k ≤ e)%nat → (key, lk) ∈ results_after oracle k →
  ∃ l, (key, l) ∈ results_after oracle e ∧ lk `prefix_of` l.
Proof.
  intros Hle. unfold results_after. intros (c & [= -> ->] & Hc)%list_elem_of_fmap.
  exists ((λ i, c.2 (oracle i)) <$> seq 1 e). split.
  - apply list_elem_of_fmap. by exists c.
  - replace e with (k + (e - k))%nat by lia. rewrite seq_app, fmap_app.
    by apply prefix_app_r.
Qed.

(** The accuracy that [best_acc] holds is that of the epoch saved last. *)
Lemma epochs_best utils DATA_NAME oracle (fs : filesystem) n σ :
  "ProbAM" ∈ utils →
  epochs utils DATA_NAME oracle n (ready fs) = (Return (), σ) →
  best_acc σ = match last (saved σ) with
               | Some e => acc oracle e
               | None => 0%Q
               end.
Proof.
  intros HP. revert σ. induction n as [|n IH]; intros σ.
  - by intros [= <-].
  - destruct (epochs_run utils DATA_NAME oracle fs n HP) as (σn & Hrun & Hres & _).
    specialize (IH σn Hrun).
    unfold epochs in *. rewrite seq_S, for_each_app.
    rewrite (bind_Return _ _ _ _ _ Hrun). simpl.
    destruct σn as [r b f sv]. simpl in *. subst r. unfold bind.
    rewrite epoch_body_run. cbv zeta. rewrite decide_True by done.
    intros [= <-]. simpl.
    destruct (negb (Qle_bool (acc oracle (S n)) b)); [by rewrite last_snoc|done].
Qed.

(** Without the attribute of line 135, a loop of one epoch or more stops in
    its first epoch, in this state. *)
Lemma epochs_stop utils DATA_NAME oracle (fs : filesystem) n :
  "ProbAM" ∉ utils →
  epochs utils DATA_NAME oracle (S n) (ready fs)
  = (Raise (AttributeError "module 'utils' has no attribute 'ProbAM'"),
     {| results := results_after oracle 1;
        best_acc := if negb (Qle_bool (acc oracle 1) 0) then acc oracle 1 else 0;
        files := if negb (Qle_bool (acc oracle 1) 0)
                 then <[checkpoint_path DATA_NAME := File (StateDict 1)]> fs else fs;
        saved := if negb (Qle_bool (acc oracle 1) 0) then [1%nat] else [] |}).
Proof.
  intros HP. unfold epochs. cbn [seq for_each]. unfold bind at 1.
  change (ready fs) with
    {| results := results_after oracle 0; best_acc := 0; files := fs; saved := [] |}.
  rewrite epoch_body_run. cbv zeta. by rewrite decide_False.
Qed.


Lemma epochs_reached_le utils n : (epochs_reached utils n ≤ n)%nat.
Proof. unfold epochs_reached. case_decide; lia. Qed.


(** The loop of [n] epochs, however it ends: the state it ends in, by the
    epochs whose comparison of line 126 was reached. *)
Lemma epoch_loop_run utils DATA_NAME oracle (fs : filesystem) (n : nat) r σ :
  epoch_loop utils DATA_NAME (Z.of_nat n) oracle (ready fs) = (r, σ) →
  r = (if decide ("ProbAM" ∈ utils ∨ n = 0%nat) then Return ()
       else Raise (AttributeError "module 'utils' has no attribute 'ProbAM'"))
  ∧ results σ = results_after oracle (epochs_reached utils n)
  ∧ (0 <= best_acc σ)%Q
  ∧ (∀ j, (1 ≤ j ≤ epochs_reached utils n)%nat → (acc oracle j <= best_acc σ)%Q)
  ∧ (best_acc σ = 0%Q
     ∨ ∃ j, (1 ≤ j ≤ epochs_reached utils n)%nat ∧ best_acc σ = acc oracle j)
  ∧ (∀ e, e ∈ saved σ ↔ (1 ≤ e ≤ epochs_reached utils n)%nat ∧ record_epoch oracle e)
  ∧ files σ !! checkpoint_path DATA_NAME
    = match last (saved σ) with
      | Some e => Some (File (StateDict e))
      | None => fs !! checkpoint_path DATA_NAME
      end
  ∧ best_acc σ = match last (saved σ) with
                 | Some e => acc oracle e
                 | None => 0%Q
                 end
  ∧ files σ !! statistics_path DATA_NAME
    = (if decide ("ProbAM" ∈ utils ∧ (1 ≤ n)%nat)
       then Some (File (Csv ("epoch" :: columns.*1) (csv_rows_after oracle n)))
       else fs !! statistics_path DATA_NAME).
Proof.
  rewrite epoch_loop_epochs. unfold epochs_reached.
  destruct (decide ("ProbAM" ∈ utils)) as [HP|HP].
  - destruct (epochs_run utils DATA_NAME oracle fs n HP)
      as (σ' & Hrun & Hres & H0 & Hle & Hmax & Hsaved & Hcsv & Hck).
    rewrite Hrun. intros [= <- <-].
    rewrite decide_True by auto.
    split; [done|]. split; [done|]. split; [done|]. split; [done|]. split; [done|].
    split; [done|]. split; [done|]. split; [by eapply epochs_best|].
    destruct n as [|n].
    + rewrite decide_False by lia. by injection Hrun as <-.
    + rewrite decide_True by (split; [done|lia]). apply Hcsv. lia.
  - destruct n as [|n].
    + intros [= <- <-]. rewrite decide_True by auto. rewrite decide_False by lia.
      split; [done|]. split; [done|]. split; [done|]. split; [intros; lia|].
      split; [by left|]. split; [|done].
      intros e. simpl. rewrite elem_of_nil. split; [done|]. intros [? _]. lia.
    + rewrite (epochs_stop _ _ _ _ _ HP). intros [= <- <-].
      rewrite decide_False by (intros [?|?]; [done|lia]).
      rewrite decide_False by (by intros [? _]).
      replace (Nat.min 1 (S n)) with 1%nat by lia.
      cbn [results best_acc files saved].
      pose proof (improved_iff oracle 0 0 ltac:(done) ltac:(intros; lia) ltac:(by left))
        as Himp.
      split; [done|]. split; [done|].
      destruct (negb (Qle_bool (acc oracle 1) 0)) eqn:E.
      * assert (record_epoch oracle 1) as Hrec by by apply Himp.
        split; [apply Qlt_le_weak, Hrec|].
        split; [intros j Hj; replace j with 1%nat by lia; apply Qle_refl|].
        split; [right; exists 1%nat; split; [lia|done]|].
        split.
        { intros e. rewrite list_elem_of_singleton. split.
          - intros ->. split; [lia|done].
          - intros [? _]. lia. }
        split; [by rewrite lookup_insert_eq|]. split; [done|].
        by rewrite lookup_insert_ne by apply paths_differ.
      * assert (¬ record_epoch oracle 1) as Hrec by (intros Hr%Himp; congruence).
        split; [done|].
        split.
        { intros j Hj. replace j with 1%nat by lia.
          apply negb_false_iff in E. by apply Qle_bool_iff. }
        split; [by left|].
        split; [|done].
        intros e. rewrite elem_of_nil. split; [done|].
        intros [? ?]. by replace e with 1%nat in * by lia.
Qed.



End EpochLoop.

(** ** Decimal numerals on the command line *)

Section Numerals.

Lemma digit_pretty_N_char (d : N) :
  (d < 10)%N →
  PyInt.digit (pretty_N_char d) = Some (Z.of_N d)
  ∧ pretty_N_char d ≠ "_"%char
  ∧ is_Some (Ascii.is_nat (pretty_N_char d)).
Proof.
  intros Hd.
  assert (d = 0 ∨ d = 1 ∨ d = 2 ∨ d = 3 ∨ d = 4 ∨ d = 5 ∨ d = 6 ∨ d = 7
          ∨ d = 8 ∨ d = 9)%N as Hc by lia.
  destruct Hc as [->|[->|[->|[->|[->|[->|[->|[->|[->| ->]]]]]]]]];
    (split; [reflexivity|split; [discriminate|eexists; reflexivity]]).
Qed.

Lemma all_digits_pretty_N_go x s :
  Argparse.all_digits s = true → Argparse.all_digits (pretty_N_go x s) = true.
Proof.
  revert s. induction (N.lt_wf_0 x) as [x _ IH]. intros s Hs.
  destruct (decide (x = 0)%N) as [->|]; [by rewrite pretty_N_go_0|].
  rewrite pretty_N_go_step by lia. apply IH; [apply N.div_lt; lia|].
  simpl. destruct (digit_pretty_N_char (x `mod` 10)) as (_ & _ & [v ->]); [|done].
  apply N.mod_lt. lia.
Qed.

Lemma pretty_N_go_nonempty x s :
  (0 < x)%N ∨ s ≠ "" → pretty_N_go x s ≠ "".
Proof.
  revert s. induction (N.lt_wf_0 x) as [x _ IH]. intros s Hs.
  destruct (decide (x = 0)%N) as [->|].
  - rewrite pretty_N_go_0. destruct Hs; [lia|done].
  - rewrite pretty_N_go_step by lia. apply IH; [apply N.div_lt; lia|by right].
Qed.

(** The digits of [x], read from the left with [acc] in hand. *)
Lemma more_digits_pretty_N_go x :
  ∃ k : Z, 0 ≤ k ∧ ∀ acc s,
    PyInt.more_digits acc (pretty_N_go x s)
    = PyInt.more_digits (acc * 10 ^ k + Z.of_N x) s.
Proof.
  induction (N.lt_wf_0 x) as [x _ IH].
  destruct (decide (x = 0)%N) as [->|].
  - exists 0. split; [done|]. intros acc s. rewrite pretty_N_go_0. f_equal. simpl. lia.
  - destruct (IH (x `div` 10)%N) as (k & Hk & Hgo); [apply N.div_lt; lia|].
    exists (k + 1). split; [lia|]. intros acc s.
    rewrite pretty_N_go_step, Hgo by lia. simpl.
    destruct (digit_pretty_N_char (x `mod` 10)) as (Hd & Hu & _); [apply N.mod_lt; lia|].
    rewrite decide_False by done. rewrite Hd. f_equal.
    rewrite Z.pow_add_r by lia.
    pose proof (N.div_mod x 10 ltac:(lia)) as Hx. lia.
Qed.

Lemma digits_all_digits c s v :
  Ascii.is_nat c = Some v →
  PyInt.digits (String c s) = PyInt.more_digits 0 (String c s).
Proof.
  intros Hc. simpl. unfold PyInt.digit. rewrite Hc. simpl.
  rewrite decide_False; [done|]. intros ->. discriminate.
Qed.

Lemma rstrip_all_digits s : Argparse.all_digits s = true → PyInt.rstrip s = s.
Proof.
  induction s as [|c s IH]; simpl; [done|].
  destruct (Ascii.is_nat c) as [v|] eqn:Hc; [|done]. intros Hs.
  rewrite (IH Hs). destruct s; [|done].
  assert (Ascii.is_space c = false) as ->; [|done].
  destruct c as [[] [] [] [] [] [] [] []]; try discriminate; reflexivity.
Qed.

Lemma rstrip_cons a s :
  Ascii.is_space a = false → PyInt.rstrip (String a s) = String a (PyInt.rstrip s).
Proof. intros Ha. simpl. rewrite Ha. by destruct (PyInt.rstrip s). Qed.

(** A numeral: a digit followed by digits. *)
Lemma pretty_positive_shape (p : positive) :
  ∃ c v t, pretty p = String c t ∧ Ascii.is_nat c = Some v
           ∧ Argparse.all_digits t = true
           ∧ PyInt.more_digits 0 (String c t) = Some (Zpos p).
Proof.
  unfold pretty, pretty_positive, pretty, pretty_N.
  rewrite decide_False by done.
  pose proof (all_digits_pretty_N_go (N.pos p) "" eq_refl) as Hall.
  pose proof (pretty_N_go_nonempty (N.pos p) "" ltac:(left; lia)) as Hne.
  destruct (more_digits_pretty_N_go (N.pos p)) as (k & _ & Hk).
  specialize (Hk 0 ""). simpl in Hk.
  destruct (pretty_N_go (N.pos p) "") as [|c t]; [done|].
  simpl in Hall. destruct (Ascii.is_nat c) as [v|] eqn:Hc; [|done].
  by exists c, v, t.
Qed.

Lemma int_numeral c v t z :
  Ascii.is_nat c = Some v → Argparse.all_digits t = true →
  PyInt.more_digits 0 (String c t) = Some z →
  PyInt.int (String c t) = Some z ∧ PyInt.int (String "-" (String c t)) = Some (- z).
Proof.
  intros Hc Ht Hz.
  assert (Argparse.all_digits (String c t) = true) as Hct by (simpl; by rewrite Hc).
  assert (Ascii.is_space c = false) as Hsp.
  { destruct c as [[] [] [] [] [] [] [] []]; try discriminate; reflexivity. }
  split.
  - unfold PyInt.int, PyInt.strip. simpl PyInt.lstrip. rewrite Hsp.
    rewrite (rstrip_all_digits _ Hct).
    rewrite <- Hz, <- (digits_all_digits c t v Hc).
    destruct c as [[] [] [] [] [] [] [] []]; try discriminate; reflexivity.
  - unfold PyInt.int, PyInt.strip.
    change (PyInt.lstrip (String "-" (String c t))) with (String "-" (String c t)).
    rewrite (rstrip_cons "-" (String c t) eq_refl), (rstrip_all_digits _ Hct).
    by rewrite (digits_all_digits c t v Hc), Hz.
Qed.

(** [int(str(z)) == z] *)
Lemma int_pretty (z : Z) : PyInt.int (pretty z) = Some z.
Proof.
  destruct z as [|p|p]; [reflexivity|..].
  - destruct (pretty_positive_shape p) as (c & v & t & Hp & Hc & Ht & Hz).
    change (pretty (Z.pos p)) with (pretty p). rewrite Hp.
    by destruct (int_numeral c v t _ Hc Ht Hz).
  - destruct (pretty_positive_shape p) as (c & v & t & Hp & Hc & Ht & Hz).
    change (pretty (Z.neg p)) with ("-" +:+ pretty p). rewrite Hp.
    by destruct (int_numeral c v t _ Hc Ht Hz).
Qed.

End Numerals.

(** ** The command line *)

Section CommandLine.

Lemma pretty_Z_shape (z : Z) :
  ∃ c v t, Ascii.is_nat c = Some v ∧ Argparse.all_digits t = true
           ∧ (pretty z = String c t ∨ pretty z = String "-" (String c t)).
Proof.
  destruct z as [|p|p].
  - exists "0"%char, 0%nat, "". split; [done|]. split; [done|]. by left.
  - destruct (pretty_positive_shape p) as (c & v & t & Hp & Hc & Ht & _).
    exists c, v, t. split; [done|]. split; [done|]. by left.
  - destruct (pretty_positive_shape p) as (c & v & t & Hp & Hc & Ht & _).
    exists c, v, t. split; [done|]. split; [done|]. right.
    change (pretty (Z.neg p)) with ("-" +:+ pretty p). by rewrite Hp.
Qed.

Lemma split_eq_all_digits s : Argparse.all_digits s = true → Argparse.split_eq s = None.
Proof.
  induction s as [|c s IH]; simpl; [done|].
  destruct (Ascii.is_nat c) eqn:Hc; [|done]. intros Hs.
  rewrite decide_False by (intros ->; discriminate). by rewrite IH.
Qed.

(** A token that starts with a dash is still an argument when no option
    matches it and it looks like a negative number. *)
Lemma parse_optional_negative_number p tail :
  tail ≠ "" →
  Argparse.assoc (String "-" tail) (Argparse.option_string_actions p) = None →
  Argparse.split_eq (String "-" tail) = None →
  Argparse.get_option_tuples p (String "-" tail) = [] →
  Argparse.negative_number (String "-" tail) = true →
  Argparse.parse_optional p (String "-" tail) = Return None.
Proof.
  intros Ht Ha Hs Hg Hn. unfold Argparse.parse_optional.
  rewrite bool_decide_eq_true_2 by done. cbn [negb].
  rewrite Ha, decide_False by done. by rewrite Hs, Hg, Hn.
Qed.

(** [str(z)] is an argument for the parser of [train.py], never an option. *)
Lemma parse_optional_pretty (z : Z) :
  Argparse.parse_optional train_parser (pretty z) = Return None.
Proof.
  destruct (pretty_Z_shape z) as (c & v & t & Hc & Ht & [-> | ->]).
  - unfold Argparse.parse_optional.
    rewrite bool_decide_eq_false_2; [done|]. intros ->. discriminate.
  - apply parse_optional_negative_number; [done|..].
    + destruct c as [[] [] [] [] [] [] [] []]; try discriminate;
        vm_compute; reflexivity.
    + cbn [Argparse.split_eq]. rewrite !decide_False.
      * by rewrite split_eq_all_digits.
      * intros ->. discriminate.
      * discriminate.
    + destruct c as [[] [] [] [] [] [] [] []]; try discriminate;
        vm_compute; reflexivity.
    + unfold Argparse.negative_number, Argparse.digits1.
      cbn [Argparse.all_digits]. by rewrite Hc, Ht.
Qed.

Lemma pretty_not_dashes (z : Z) : pretty z ≠ "--".
Proof.
  destruct (pretty_Z_shape z) as (c & v & t & Hc & Ht & [-> | ->]).
  - intros [= -> _]. discriminate.
  - intros [= -> _]. discriminate.
Qed.

Lemma patterns_cons p arg_string rest :
  arg_string ≠ "--" →
  Argparse.patterns p (arg_string :: rest)
  = match Argparse.parse_optional p arg_string with
    | Raise e => Raise e
    | Return o =>
        match Argparse.patterns p rest with
        | Raise e => Raise e
        | Return ps =>
            Return ((arg_string,
                     match o with
                     | None => Argparse.pattern_A
                     | Some (a, option_string, explicit_arg) =>
                         Argparse.pattern_O a option_string explicit_arg
                     end) :: ps)
        end
    end.
Proof. intros H. cbn [Argparse.patterns]. by rewrite decide_False. Qed.

(** The value of a token that [int] accepts, for an argument without
    choices. *)
Lemma get_values_int a s z :
  Argparse.type a = Argparse.type_int → Argparse.choices a = None →
  s ≠ "--" → PyInt.int s = Some z →
  Argparse.get_values a s = Return (PyInt z).
Proof.
  intros Ht Hc Hs Hz. unfold Argparse.get_values, Argparse.get_value, Argparse.check_value.
  by rewrite decide_False, Ht, Hz, Hc.
Qed.

Lemma parse_optional_Raise p s e :
  Argparse.parse_optional p s = Raise e → e = SystemExit 2.
Proof.
  unfold Argparse.parse_optional, Argparse.error.
  repeat case_match; congruence.
Qed.

(** An option that stores a value, followed by an argument. *)
Lemma consume_store a s v option_string value rest ns seen extras :
  Argparse.get_values a v = Return value →
  Argparse.consume
    ((s, Argparse.pattern_O (Some (Argparse.store a)) option_string None)
     :: (v, Argparse.pattern_A) :: rest) ns seen extras
  = Argparse.consume rest (<[Argparse.dest a := value]> ns)
      (Argparse.dest a :: seen) extras.
Proof. intros Hv. cbn [Argparse.consume]. by rewrite Hv. Qed.

(** Three tokens that [int] accepts and that are not taken for options,
    each after its flag. *)
Lemma parse_args_integers (vb vi ve : string) (b i e : Z) :
  Argparse.parse_optional train_parser vb = Return None → vb ≠ "--" →
  PyInt.int vb = Some b →
  Argparse.parse_optional train_parser vi = Return None → vi ≠ "--" →
  PyInt.int vi = Some i →
  Argparse.parse_optional train_parser ve = Return None → ve ≠ "--" →
  PyInt.int ve = Some e →
  Argparse.parse_args train_parser
    ["--batch_size"; vb; "--num_iterations"; vi; "--num_epochs"; ve]
  = Return (<["num_epochs" := PyInt e]> (<["num_iterations" := PyInt i]>
              (<["batch_size" := PyInt b]> (Argparse.defaults train_parser)))).
Proof.
  intros Hb1 Hb2 Hb3 Hi1 Hi2 Hi3 He1 He2 He3. unfold Argparse.parse_args.
  rewrite !patterns_cons by done. rewrite Hb1, Hi1, He1.
  evaluate (Argparse.parse_optional train_parser "--batch_size").
  evaluate (Argparse.parse_optional train_parser "--num_iterations").
  evaluate (Argparse.parse_optional train_parser "--num_epochs").
  cbn [Argparse.patterns].
  rewrite (consume_store _ _ _ _ (PyInt b)) by by apply get_values_int.
  rewrite (consume_store _ _ _ _ (PyInt i)) by by apply get_values_int.
  rewrite (consume_store _ _ _ _ (PyInt e)) by by apply get_values_int.
  cbn [Argparse.consume Argparse.dest].
  vm_compute. reflexivity.
Qed.

(** One such token after [--batch_size], [--num_iterations] or
    [--num_epochs]. *)
Lemma parse_args_integer (flag v : string) (z : Z) :
  flag ∈ ["--batch_size"; "--num_iterations"; "--num_epochs"] →
  Argparse.parse_optional train_parser v = Return None → v ≠ "--" →
  PyInt.int v = Some z →
  Argparse.parse_args train_parser [flag; v]
  = Return (<[Argparse.dest_of flag := PyInt z]> (Argparse.defaults train_parser)).
Proof.
  intros Hf H1 H2 H3. unfold Argparse.parse_args.
  repeat (apply elem_of_cons in Hf as [->|Hf]); [..|by apply elem_of_nil in Hf].
  - rewrite !patterns_cons by done. rewrite H1.
    evaluate (Argparse.parse_optional train_parser "--batch_size").
    cbn [Argparse.patterns].
    rewrite (consume_store _ _ _ _ (PyInt z)) by by apply get_values_int.
    cbn [Argparse.consume Argparse.dest]. vm_compute. reflexivity.
  - rewrite !patterns_cons by done. rewrite H1.
    evaluate (Argparse.parse_optional train_parser "--num_iterations").
    cbn [Argparse.patterns].
    rewrite (consume_store _ _ _ _ (PyInt z)) by by apply get_values_int.
    cbn [Argparse.consume Argparse.dest]. vm_compute. reflexivity.
  - rewrite !patterns_cons by done. rewrite H1.
    evaluate (Argparse.parse_optional train_parser "--num_epochs").
    cbn [Argparse.patterns].
    rewrite (consume_store _ _ _ _ (PyInt z)) by by apply get_values_int.
    cbn [Argparse.consume Argparse.dest]. vm_compute. reflexivity.
Qed.

Lemma parse_args_data_name_valid (s : string) :
  PyStr s ∈ [PyStr "voc"; PyStr "coco"; PyStr "cityscapes"] →
  Argparse.parse_args train_parser ["--data_name"; s]
  = Return (<["data_name" := PyStr s]> (Argparse.defaults train_parser)).
Proof.
  intros Hs. repeat (apply elem_of_cons in Hs as [[= ->]|Hs]);
    [..|by apply elem_of_nil in Hs]; vm_compute; reflexivity.
Qed.

Lemma parse_args_data_name_invalid (s : string) :
  PyStr s ∉ [PyStr "voc"; PyStr "coco"; PyStr "cityscapes"] →
  Argparse.parse_args train_parser ["--data_name"; s] = Raise (SystemExit 2).
Proof.
  intros Hs. unfold Argparse.parse_args.
  destruct (decide (s = "--")) as [->|Hd]; [vm_compute; reflexivity|].
  rewrite !patterns_cons by done.
  evaluate (Argparse.parse_optional train_parser "--data_name").
  destruct (Argparse.parse_optional train_parser s) as [o|e] eqn:Ho.
  - cbn [Argparse.patterns]. destruct o as [[[a option_string] explicit_arg]|].
    + reflexivity.
    + cbn [Argparse.consume].
      unfold Argparse.get_values, Argparse.get_value, Argparse.check_value.
      rewrite decide_False by done. cbn [Argparse.type Argparse.choices].
      by rewrite decide_False.
  - by rewrite (parse_optional_Raise _ _ _ Ho).
Qed.

(** Parsing only adds to the namespace. *)
Lemma consume_keeps ps ns seen extras ns' seen' extras' k :
  Argparse.consume ps ns seen extras = Return (ns', seen', extras') →
  is_Some (ns !! k) → is_Some (ns' !! k).
Proof.
  remember (length ps) as n eqn:Hn. revert ps ns seen extras Hn.
  induction n as [n IH] using lt_wf_ind. intros ps ns seen extras Hn.
  destruct ps as [|[s pat] rest]; [by intros [= <- _ _]|].
  simpl in Hn. destruct pat as [| |[[|a]|] option_string [explicit_arg|]];
    cbn [Argparse.consume];
    try (by apply (IH (length rest)); [lia|]);
    try discriminate.
  - destruct (Argparse.get_values a explicit_arg) as [v|]; [|discriminate].
    intros Hc Hk. eapply (IH (length rest)); [lia|done|exact Hc|].
    destruct (decide (Argparse.dest a = k)) as [->|];
      [rewrite lookup_insert_eq; eauto|by rewrite lookup_insert_ne].
  - destruct rest as [|[s' [| |]] rest']; try discriminate.
    destruct (Argparse.get_values a s') as [v|]; [|discriminate].
    intros Hc Hk. eapply (IH (length rest')); [simpl in Hn; lia|done|exact Hc|].
    destruct (decide (Argparse.dest a = k)) as [->|];
      [rewrite lookup_insert_eq; eauto|by rewrite lookup_insert_ne].
Qed.

Lemma convert_defaults_keeps p seen ns ns' k :
  Argparse.convert_defaults p seen ns = Return ns' →
  is_Some (ns !! k) → is_Some (ns' !! k).
Proof.
  revert ns. induction p as [|a p IH]; intros ns; simpl; [by intros [= <-]|].
  destruct (Argparse.default a); try apply IH.
  case_decide; [apply IH|].
  destruct (Argparse.get_value (Argparse.type a) s) as [v|]; [|discriminate].
  intros Hc Hk. eapply IH; [exact Hc|].
  destruct (decide (Argparse.dest a = k)) as [->|];
    [rewrite lookup_insert_eq; eauto|by rewrite lookup_insert_ne].
Qed.

(** Whatever the command line, the namespace that [parse_args] returns has
    the four attributes that line 27 reads. *)
Lemma parse_args_attributes argv opt k :
  Argparse.parse_args train_parser argv = Return opt →
  k ∈ ["data_name"; "batch_size"; "num_iterations"; "num_epochs"] →
  is_Some (opt !! k).
Proof.
  unfold Argparse.parse_args. intros Hp Hk.
  destruct (Argparse.patterns train_parser argv) as [ps|]; [|discriminate].
  destruct (Argparse.consume ps (Argparse.defaults train_parser) [] [])
    as [[[ns seen] extras]|] eqn:Hc; [|discriminate].
  destruct (Argparse.convert_defaults train_parser seen ns) as [ns'|] eqn:Hd;
    [|discriminate].
  destruct extras; [|discriminate]. injection Hp as <-.
  eapply convert_defaults_keeps; [exact Hd|].
  eapply consume_keeps; [exact Hc|].
  repeat (apply elem_of_cons in Hk as [->|Hk]); [..|by apply elem_of_nil in Hk];
    vm_compute; eauto.
Qed.

(** C4.  Without arguments the parser returns the defaults, [voc], 64, 3
    and 100.  A value for [--data_name] is accepted when it is one of the
    three choices and ends the process with status 2 when it is not.  Every
    integer, written in decimal, is accepted for [--batch_size],
    [--num_iterations] and [--num_epochs], one at a time or all together,
    and is stored as it is. *)
Theorem parse_args_defaults_and_validation :
  Argparse.parse_args train_parser [] = Return (Argparse.defaults train_parser)
  ∧ Argparse.defaults train_parser
    = <["num_epochs" := PyInt 100]> (<["num_iterations" := PyInt 3]>
        (<["batch_size" := PyInt 64]> (<["data_name" := PyStr "voc"]> ∅)))
  ∧ (∀ s : string,
       (PyStr s ∈ [PyStr "voc"; PyStr "coco"; PyStr "cityscapes"] →
        Argparse.parse_args train_parser ["--data_name"; s]
        = Return (<["data_name" := PyStr s]> (Argparse.defaults train_parser)))
       ∧ (PyStr s ∉ [PyStr "voc"; PyStr "coco"; PyStr "cityscapes"] →
          Argparse.parse_args train_parser ["--data_name"; s] = Raise (SystemExit 2)))
  ∧ (∀ z : Z,
       Argparse.parse_args train_parser ["--batch_size"; pretty z]
       = Return (<["batch_size" := PyInt z]> (Argparse.defaults train_parser))
       ∧ Argparse.parse_args train_parser ["--num_iterations"; pretty z]
         = Return (<["num_iterations" := PyInt z]> (Argparse.defaults train_parser))
       ∧ Argparse.parse_args train_parser ["--num_epochs"; pretty z]
         = Return (<["num_epochs" := PyInt z]> (Argparse.defaults train_parser)))
  ∧ (∀ b i e : Z,
       Argparse.parse_args train_parser
         ["--batch_size"; pretty b; "--num_iterations"; pretty i;
          "--num_epochs"; pretty e]
       = Return (<["num_epochs" := PyInt e]> (<["num_iterations" := PyInt i]>
                   (<["batch_size" := PyInt b]> (Argparse.defaults train_parser))))).
Proof.
  split; [vm_compute; reflexivity|]. split; [vm_compute; reflexivity|].
  split.
  { intros s. split; [apply parse_args_data_name_valid|apply parse_args_data_name_invalid]. }
  split.
  - intros z. pose proof (parse_optional_pretty z). pose proof (pretty_not_dashes z).
    pose proof (int_pretty z).
    split; [|split].
    + apply (parse_args_integer "--batch_size"); [set_solver|done..].
    + apply (parse_args_integer "--num_iterations"); [set_solver|done..].
    + apply (parse_args_integer "--num_epochs"); [set_solver|done..].
  - intros b i e.
    apply parse_args_integers;
      auto using parse_optional_pretty, pretty_not_dashes, int_pretty.
Qed.

End CommandLine.

(** ** The script and [utils.load_data] *)

Section Main.
Context `{DU : DcaseUtil}.

Lemma load_data_unrecognized (data_type batch_size : pyval) (fs : filesystem) :
  data_type ∉ recognized_names →
  load_data data_type batch_size fs
  = (Raise (NotImplementedError (format data_type +:+ " is not implemented")), fs).
Proof.
  intros Hn. unfold load_data, bind, lift.
  by rewrite (select_data_set_unrecognized _ Hn).
Qed.

(** The call of lines 35 and 36: three positional arguments and the
    keyword [shuffle], for a function of two parameters that has none of
    that name. *)
Lemma call_load_data_shuffle (DATA_NAME which BATCH_SIZE flag : pyval) (fs : filesystem) :
  call_load_data [DATA_NAME; which; BATCH_SIZE] [("shuffle", flag)] fs
  = (Raise (TypeError "load_data() got an unexpected keyword argument 'shuffle'"), fs).
Proof. reflexivity. Qed.

(** Called as its signature allows, [load_data] still does not return:
    where nothing else fails first, [MusicData] is handed a list and
    raises at line 18. *)
Lemma load_data_raises (data_type batch_size : pyval) (fs : filesystem) :
  ∃ e fs', load_data data_type batch_size fs = (Raise e, fs').
Proof.
  unfold load_data, bind at 1, lift.
  destruct (select_data_set data_type) as [ds|e]; [|by eauto].
  unfold load_data_from, bind at 1.
  destruct (initialize ds fs) as [[[]|e] fs1]; [|by eauto].
  unfold bind at 1.
  destruct (process_data ds (format data_type) fs1) as [[[]|e] fs2]; [|by eauto].
  unfold bind, lift.
  destruct (filtered ds (format data_type) (validation_split ds).1); [|by eauto].
  destruct (filtered ds (format data_type) (validation_split ds).2); [|by eauto].
  destruct (filtered ds (format data_type) (eval_unique_files ds)); by eauto.
Qed.

Lemma getattr_namespace_Return opt k :
  is_Some (opt !! k) → ∃ v, getattr_namespace opt k = Return v.
Proof. intros [v Hv]. exists v. unfold getattr_namespace. by rewrite Hv. Qed.

(** C3, as the code has it.  Whenever the parser accepts the command
    line, whatever the values it returns, the script stops at the first
    call of [utils.load_data] with the [TypeError] of a keyword that the
    function does not have: [results] still holds its six empty lists, no
    file was written and no model saved. *)
Theorem main_TypeError_at_load_data (argv : list string) (opt : Argparse.namespace)
    (fs : filesystem) :
  Argparse.parse_args train_parser argv = Return opt →
  main argv (initial_state fs)
  = (Raise (TypeError "load_data() got an unexpected keyword argument 'shuffle'"),
     {| results := empty_results; best_acc := 0; files := fs; saved := [] |}).
Proof.
  intros Hp. unfold main.
  rewrite (bind_Return _ _ opt (initial_state fs) (initial_state fs));
    [|unfold lift; by rewrite Hp].
  destruct (getattr_namespace_Return opt "data_name") as [v1 H1];
    [eapply parse_args_attributes; [exact Hp|set_solver]|].
  destruct (getattr_namespace_Return opt "batch_size") as [v2 H2];
    [eapply parse_args_attributes; [exact Hp|set_solver]|].
  destruct (getattr_namespace_Return opt "num_iterations") as [v3 H3];
    [eapply parse_args_attributes; [exact Hp|set_solver]|].
  destruct (getattr_namespace_Return opt "num_epochs") as [v4 H4];
    [eapply parse_args_attributes; [exact Hp|set_solver]|].
  unfold bind, lift. rewrite H1, H2, H3, H4. reflexivity.
Qed.

(** C2.  Every name that the parser allows for [--data_name] is outside
    the four names that [load_data] knows: called with such a name, with
    or without a batch size, [load_data] raises its [NotImplementedError]
    and leaves the file system alone. *)
Theorem cli_names_not_implemented (a : Argparse.argument) (cs : list pyval)
    (name batch_size : pyval) (fs : filesystem) :
  a ∈ train_parser → Argparse.choices a = Some cs → name ∈ cs →
  (name ∉ recognized_names)
  ∧ load_data name batch_size fs
    = (Raise (NotImplementedError (format name +:+ " is not implemented")), fs)
  ∧ call_load_data [name] [] fs
    = (Raise (NotImplementedError (format name +:+ " is not implemented")), fs)
  ∧ call_load_data [name; batch_size] [] fs
    = (Raise (NotImplementedError (format name +:+ " is not implemented")), fs)
  ∧ call_load_data [] [("data_type", name); ("batch_size", batch_size)] fs
    = (Raise (NotImplementedError (format name +:+ " is not implemented")), fs).
Proof.
  intros Ha Hc Hn.
  assert (name ∉ recognized_names) as Hnr.
  { unfold train_parser, Argparse.add_argument in Ha. simpl in Ha.
    repeat (apply elem_of_cons in Ha as [->|Ha]); [..|by apply elem_of_nil in Ha];
      simpl in Hc; try discriminate.
    injection Hc as <-. unfold recognized_names.
    repeat (apply elem_of_cons in Hn as [->|Hn]); [..|by apply elem_of_nil in Hn];
      intros H; repeat (apply elem_of_cons in H as [[=]|H]); by apply elem_of_nil in H. }
  split; [done|]. split; [by apply load_data_unrecognized|].
  split; [|split].
  - change (call_load_data [name] [] fs) with (load_data name (PyInt 32) fs).
    by apply load_data_unrecognized.
  - change (call_load_data [name; batch_size] [] fs) with (load_data name batch_size fs).
    by apply load_data_unrecognized.
  - change (call_load_data [] [("data_type", name); ("batch_size", batch_size)] fs)
      with (load_data name batch_size fs).
    by apply load_data_unrecognized.
Qed.

End Main.

(** ** The normalization factors: where they are saved, where they are
    looked for *)

Section NormFactors.
Context `{DU : DcaseUtil}.

Lemma writes_only_reader {A} P (m : M A) :
  (∀ fs, (m fs).2 = fs) → writes_only P m.
Proof.
  intros Hm fs r fs' p E _. specialize (Hm fs). rewrite E in Hm. by simplify_eq/=.
Qed.

Lemma writes_only_bind {A B} P (m : M A) (k : A → M B) :
  writes_only P m → (∀ a, writes_only P (k a)) → writes_only P (bind m k).
Proof.
  intros Hm Hk fs r fs' p. unfold bind.
  destruct (m fs) as [[a|e] fs1] eqn:E.
  - intros H Hp. rewrite (Hk _ _ _ _ _ H Hp). eapply Hm; eauto.
  - intros [= <- <-] Hp. eapply Hm; eauto.
Qed.

Lemma writes_only_for_each {A} P (xs : list A) (body : A → M unit) :
  (∀ x, writes_only P (body x)) → writes_only P (for_each xs body).
Proof.
  intros Hb. induction xs; simpl;
    [by apply writes_only_reader | apply writes_only_bind; auto].
Qed.

Lemma writes_only_for_fold {A B} P (xs : list A) (step : B → A → M B) b :
  (∀ b x, writes_only P (step b x)) → writes_only P (for_fold xs b step).
Proof.
  intros Hb. revert b. induction xs; intros b; simpl;
    [by apply writes_only_reader | apply writes_only_bind; auto].
Qed.

Lemma writes_only_write (P : string → Prop) p x : P p → writes_only P (write p x).
Proof.
  intros HP fs r fs' q [= <- <-] Hq. apply lookup_insert_ne. by intros ->.
Qed.

Lemma contains_rev_app c a b :
  Argparse.contains c (String.rev_app a b)
  = Argparse.contains c a || Argparse.contains c b.
Proof.
  revert b. induction a as [|x a IH]; intros b; simpl; [done|].
  rewrite IH. simpl. destruct (decide (c = x)); simpl; [by rewrite orb_true_r|done].
Qed.

Lemma basename_go_no_slash cur s :
  Argparse.contains "/" cur = false →
  Argparse.contains "/" (Str.basename_go cur s) = false.
Proof.
  revert cur. induction s as [|c s IH]; intros cur Hcur; simpl.
  - unfold String.rev. by rewrite contains_rev_app, Hcur.
  - case_decide as Hc; [by apply IH|]. apply IH. simpl.
    rewrite decide_False by (intros ?; by apply Hc). done.
Qed.

Lemma replace_no_leading_slash s :
  Argparse.contains "/" s = false →
  Str.startswith "/" (Str.replace ".wav" ".cpickle" s) = false.
Proof.
  unfold Str.replace. destruct s as [|c s]; [done|]. simpl Argparse.contains.
  case_decide as Hc; [done|]. intros _. cbn [Str.replace_go].
  destruct (Str.startswith ".wav" (String c s)); [done|].
  simpl. rewrite decide_False; [done|]. intros ?. by apply Hc.
Qed.

(** A feature file lies under the features directory. *)
Lemma feature_filename_under features_path audio_filename :
  features_path ≠ "" →
  ∃ rest, feature_filename features_path audio_filename = features_path +:+ rest.
Proof.
  intros Hne. unfold feature_filename, Str.join.
  rewrite replace_no_leading_slash by by apply basename_go_no_slash.
  rewrite decide_False by done. destruct (Str.endswith_slash features_path); eauto.
Qed.

Lemma rev_app_app a b : String.rev_app a b = String.rev_app a "" +:+ b.
Proof.
  revert b. induction a as [|x a IH]; intros b; simpl; [done|].
  rewrite (IH (String x b)), (IH (String x "")).
  generalize (String.rev_app a ""). intros t.
  induction t as [|y t IHt]; [reflexivity|].
  change (String y (t +:+ String x b) = String y ((t +:+ String x "") +:+ b)).
  by rewrite IHt.
Qed.

(** Every directory on the way to a path begins as the path does. *)
Lemma prefixes_go_head seen s d c :
  d ∈ prefixes_go seen s → d ≠ "" →
  Str.startswith (String c "") (String.rev_app seen s) = true →
  Str.startswith (String c "") d = true.
Proof.
  revert seen. induction s as [|x s IH]; intros seen; simpl.
  - intros ->%list_elem_of_singleton. done.
  - assert (d ∈ prefixes_go (String x seen) s → d ≠ "" →
            Str.startswith (String c "") (String.rev_app seen (String x s)) = true →
            Str.startswith (String c "") d = true) as Hrec by apply (IH (String x seen)).
    case_decide; [|done].
    intros [->|Hin]%elem_of_cons; [|by apply Hrec].
    intros Hne. unfold String.rev in *. rewrite (rev_app_app seen (String x s)).
    destruct (String.rev_app seen "") as [|y t]; [by destruct Hne|]. intros Hs. exact Hs.
Qed.

Lemma writes_only_Path_create c p :
  Str.startswith (String c "") p = true →
  writes_only (λ q, Str.startswith (String c "") q = true) (Path_create p).
Proof.
  intros Hp fs r fs' q [= <- <-] Hq. unfold prefixes.
  assert (∀ ds, (∀ d, d ∈ ds → Str.startswith (String c "") d = true) →
                foldl mkdir fs ds !! q = fs !! q) as Hfold.
  { intros ds. revert fs. induction ds as [|d ds IH]; intros fs Hds; simpl; [done|].
    rewrite IH by (intros; apply Hds; by apply list_elem_of_further).
    unfold mkdir. destruct (fs !! d); [done|]. apply lookup_insert_ne.
    intros ->. apply Hq, Hds, list_elem_of_here. }
  apply Hfold. intros d [Hne Hin]%list_elem_of_filter.
  eapply prefixes_go_head; eauto.
Qed.

(** [process_data] writes under [data/] only. *)
Lemma writes_only_process_data ds data_type :
  writes_only (λ q, Str.startswith "d" q = true) (process_data ds data_type).
Proof.
  unfold process_data. apply writes_only_bind.
  - unfold extract_features. apply writes_only_bind; [by apply writes_only_reader|].
    intros b. destruct (negb b); [|by apply writes_only_reader].
    apply writes_only_bind; [by apply writes_only_Path_create|]. intros _.
    apply writes_only_for_each. intros x. apply writes_only_bind.
    + apply writes_only_reader. intros fs. unfold AudioContainer_load.
      by repeat case_match.
    + intros a. apply writes_only_write.
      destruct (feature_filename_under (Str.data_file data_type "features") x)
        as [rest ->]; done.
  - intros _. unfold compute_normalizer.
    apply writes_only_bind; [by apply writes_only_reader|].
    intros b. destruct (negb b); [|by apply writes_only_reader].
    apply writes_only_bind; [|intros n; by apply writes_only_write].
    apply writes_only_for_fold. intros n x. apply writes_only_bind.
    + apply writes_only_reader. intros fs. unfold FeatureContainer_load.
      by repeat case_match.
    + intros f. by apply writes_only_reader.
Qed.

(** The normalizer is computed when its file is missing: every feature of
    the first fold of the training files is fed in, the factors are
    finalized, and the result is saved under [data/<data_type>/]. *)
Lemma compute_normalizer_computes ds data_type (fs : filesystem)
    (features : list feature) :
  fs !! norm_factors_path data_type = None →
  Forall2 (λ audio_filename f,
             fs !! feature_filename (Str.data_file data_type "features") audio_filename
             = Some (File (FeaturePickle f)))
          (train_files ds (Some 1)) features →
  compute_normalizer ds data_type fs
  = (Return (),
     <[norm_factors_path data_type
       := File (NormalizerPickle (finalize (foldl accumulate Normalizer_new features)))]> fs).
Proof.
  intros Hnone Hfs. unfold compute_normalizer, bind at 1, path_exists.
  rewrite bool_decide_eq_false_2 by (rewrite Hnone; by intros [? ?]). cbn [negb].
  assert (∀ n, for_fold (train_files ds (Some 1)) n
                 (λ n audio_filename,
                    let feature_filename :=
                      feature_filename (Str.data_file data_type "features") audio_filename in
                    let* f := FeatureContainer_load feature_filename in
                    ret (accumulate n f)) fs
               = (Return (foldl accumulate n features), fs)) as Hfold.
  { induction Hfs as [|x f xs fs' Hx _ IH]; intros n; simpl; [done|].
    unfold bind at 1. unfold bind at 1, FeatureContainer_load. rewrite Hx.
    apply IH. }
  unfold bind. by rewrite Hfold.
Qed.

(** C6, where the code departs from it.  On a disk without
    [norm_factors.cpickle] in the working directory, a run of
    [process_data] that returns has saved the factors, under
    [data/<data_type>/norm_factors.cpickle]; the working directory still
    has no such file, and [MusicData.__init__], which loads
    [norm_factors.cpickle] from there, raises. *)
Theorem norm_factors_saved_elsewhere (ds : data_set) (data_type : string)
    (rows : list row) (fs fs' : filesystem) :
  fs !! "norm_factors.cpickle" = None →
  process_data ds data_type fs = (Return (), fs') →
  is_Some (fs' !! norm_factors_path data_type)
  ∧ norm_factors_path data_type ≠ "norm_factors.cpickle"
  ∧ fs' !! "norm_factors.cpickle" = None
  ∧ MusicData_init (DataFrame rows) fs' = (Raise (IOError "norm_factors.cpickle"), fs').
Proof.
  intros Hnone Hrun.
  assert (fs' !! "norm_factors.cpickle" = None) as Hnone'.
  { rewrite (writes_only_process_data ds data_type _ _ _ _ Hrun); done. }
  split; [by destruct (process_data_Return _ _ _ _ Hrun)|].
  split; [done|]. split; [done|].
  destruct (MusicData_init_run rows) as (tg & _ & _ & ->).
  unfold bind, Normalizer_load. by rewrite Hnone'.
Qed.

End NormFactors.

(** * The model at work *)

Section Examples.
Import Toy.
#[local] Existing Instance Toy.libraries.

(** The command line, as CPython's [argparse] treats it. *)
Example parse_abbreviation :
  Argparse.parse_args train_parser ["--num_e"; "7"; "--batch=-5"]
  = Return (<["batch_size" := PyInt (-5)]>
              (<["num_epochs" := PyInt 7]> (Argparse.defaults train_parser))).
Proof. vm_compute. reflexivity. Qed.

Example parse_ambiguous :
  Argparse.parse_args train_parser ["--num"; "7"] = Raise (SystemExit 2).
Proof. reflexivity. Qed.

Example parse_not_an_integer :
  Argparse.parse_args train_parser ["--batch_size"; "5.0"] = Raise (SystemExit 2).
Proof. reflexivity. Qed.

Example parse_missing_value :
  Argparse.parse_args train_parser ["--batch_size"; "--num_epochs"; "3"]
  = Raise (SystemExit 2).
Proof. reflexivity. Qed.

Example parse_unrecognized :
  Argparse.parse_args train_parser ["--data_name"; "voc"; "extra"] = Raise (SystemExit 2).
Proof. reflexivity. Qed.

Example parse_explicit_dashes :
  Argparse.parse_args train_parser ["--data_name=--"]
  = Return (<["data_name" := PyEmptyList]> (Argparse.defaults train_parser)).
Proof. vm_compute. reflexivity. Qed.

(** The binding of arguments. *)
Example bind_defaults :
  PyCall.bind_arguments load_data_signature [PyStr "voc"] []
  = Return [("data_type", PyStr "voc"); ("batch_size", PyInt 32)].
Proof. reflexivity. Qed.

Example bind_too_many :
  PyCall.bind_arguments load_data_signature [PyStr "voc"; PyStr "train"; PyInt 64] []
  = Raise (TypeError
             "load_data() takes from 1 to 2 positional arguments but 3 were given").
Proof. reflexivity. Qed.

Example bind_missing :
  PyCall.bind_arguments load_data_signature [] [("batch_size", PyInt 64)]
  = Raise (TypeError "load_data() missing 1 required positional argument: 'data_type'").
Proof. reflexivity. Qed.

(** [process_data] on the disk with the two recordings: the directories,
    a feature file per recording, and the factors of the first fold. *)
Example processed_disk :
  processed
  = <["data/DCASE2018A/norm_factors.cpickle" := File (NormalizerPickle [1; 2; 3])]>
     (<["data/DCASE2018A/features/b.cpickle" := File (FeaturePickle [4; 5])]>
      (<["data/DCASE2018A/features/a.cpickle" := File (FeaturePickle [1; 2; 3])]>
       (<["data/DCASE2018A/features" := Dir]>
        (<["data/DCASE2018A" := Dir]> (<["data" := Dir]> disk))))).
Proof. vm_compute. reflexivity. Qed.

(** After a run that raised, a second run can do more than the first: the
    recording [b.wav] is missing, the first run stops on it, and the second
    one, which finds the features directory, computes the factors. *)
Example process_data_after_failure :
  let fs := delete "audio/b.wav" disk in
  let once := process_data corpus "DCASE2018A" fs in
  once.1 = Raise (IOError "audio/b.wav")
  ∧ once.2 !! "data/DCASE2018A/norm_factors.cpickle" = None
  ∧ (process_data corpus "DCASE2018A" once.2).1 = Return ()
  ∧ (process_data corpus "DCASE2018A" once.2).2 !! "data/DCASE2018A/norm_factors.cpickle"
    = Some (File (NormalizerPickle [1; 2; 3])).
Proof. vm_compute. done. Qed.

(** [load_data] on a recognized name, with every library call returning:
    the [TypeError] of line 18. *)
Example load_data_recognized :
  (load_data (PyStr "DCASE2018A") (PyInt 32) disk).1
  = Raise (TypeError "list indices must be integers or slices, not str").
Proof. vm_compute. reflexivity. Qed.

(** With the module [utils] as it is, the first epoch appends its six
    values and stops at line 135, before any CSV file is written. *)
Example first_epoch_stops :
  (epoch_loop utils_py (PyStr "voc") 3 meters (ready ∅)).1
  = Raise (AttributeError "module 'utils' has no attribute 'ProbAM'")
  ∧ results stopped = results_after meters 1
  ∧ files stopped !! statistics_path (PyStr "voc") = None.
Proof. vm_compute. done. Qed.

(** With the attribute in place: three epochs, the model saved in the
    second one only. *)
Example three_epochs :
  saved trained = [2%nat]
  ∧ best_acc trained = 40%Q
  ∧ files trained !! checkpoint_path (PyStr "voc") = Some (File (StateDict 2))
  ∧ files trained !! statistics_path (PyStr "voc")
    = Some (File (Csv ["epoch"; "train_loss"; "test_loss"; "train_accuracy_1";
                       "test_accuracy_1"; "train_accuracy_5"; "test_accuracy_5"]
                      [(1%nat, [2; 2; 10; 0; 50; 40]%Q);
                       (2%nat, [1; 1; 30; 40; 70; 80]%Q);
                       (3%nat, [1 # 2; 3 # 2; 60; 30; 90; 75]%Q)])).
Proof. vm_compute. done. Qed.

End Examples.

(** * The statements on an example

    The corpus of two recordings, the table of three rows and the meters of
    three epochs of [Toy]. *)

Lemma load_data_NotImplementedError_witness :
  load_data (DU := Toy.libraries) (PyStr "voc") (PyInt 64) Toy.disk
  = (Raise (NotImplementedError "voc is not implemented"), Toy.disk)
  ∧ ∃ ds, select_data_set (PyStr "DCASE2019B") = Return ds
          ∧ ds_class ds = TAUUrbanAcousticScenes_2019_Mobile_DevelopmentSet.
Proof.
  destruct (load_data_NotImplementedError (DU := Toy.libraries)
              (PyStr "voc") (PyInt 64) Toy.disk) as [Hno _].
  destruct (load_data_NotImplementedError (DU := Toy.libraries)
              (PyStr "DCASE2019B") (PyInt 64) Toy.disk) as [_ Hyes].
  split.
  - apply Hno. apply (bool_decide_unpack _). vm_compute. exact I.
  - destruct Hyes as (ds & Hds & _).
    + apply (bool_decide_unpack _). vm_compute. exact I.
    + exists ds. split; [exact Hds|].
      vm_compute in Hds. injection Hds as <-. reflexivity.
Defined.

Lemma process_data_idempotent_witness :
  (process_data (DU := Toy.libraries) Toy.corpus "DCASE2018A" ;;;
   process_data Toy.corpus "DCASE2018A") Toy.disk
  = process_data Toy.corpus "DCASE2018A" Toy.disk
  ∧ process_data (DU := Toy.libraries) Toy.corpus "DCASE2018A" Toy.processed
    = (Return (), Toy.processed).
Proof.
  split.
  - apply (process_data_idempotent (DU := Toy.libraries) Toy.corpus "DCASE2018A" Toy.disk).
  - apply (process_data_idempotent (DU := Toy.libraries)
             Toy.corpus "DCASE2018A" Toy.processed);
      vm_compute; eexists; reflexivity.
Defined.

Lemma MusicData_init_label_indices_witness :
  make_label2index (file_label <$> Toy.table) !! "bus" = Some 1%nat
  ∧ make_label2index (file_label <$> Toy.table) !! "airport" = Some 0%nat.
Proof.
  destruct (MusicData_init_label_indices (DU := Toy.libraries) Toy.table)
    as (_ & Hrank & _).
  split; apply Hrank; vm_compute; reflexivity.
Defined.

Lemma MusicData_getitem_len_witness :
  MusicData_len Toy.music_data = 3%nat
  ∧ MusicData_getitem (DU := Toy.libraries) Toy.music_data 1 Toy.prepared
    = (Return ((1%nat :: [2%nat], [1; 2]), ([1%nat], [0])), Toy.prepared).
Proof.
  destruct (MusicData_getitem_len (DU := Toy.libraries) Toy.table Toy.prepared
              Toy.prepared Toy.music_data 1
              (Row "data/DCASE2018A/features/b.cpickle" "airport"))
    as (Hlen & _ & _ & t & Ht & _ & _ & Hget).
  - vm_compute. reflexivity.
  - reflexivity.
  - split; [exact Hlen|].
    vm_compute in Ht. injection Ht as <-.
    apply (Hget [4; 5]). vm_compute. reflexivity.
Defined.



Lemma parse_args_defaults_and_validation_witness :
  Argparse.parse_args train_parser ["--data_name"; "coco"]
  = Return (<["data_name" := PyStr "coco"]> (Argparse.defaults train_parser))
  ∧ Argparse.parse_args train_parser ["--data_name"; "imagenet"] = Raise (SystemExit 2)
  ∧ Argparse.parse_args train_parser ["--batch_size"; pretty (-5)]
    = Return (<["batch_size" := PyInt (-5)]> (Argparse.defaults train_parser)).
Proof.
  destruct parse_args_defaults_and_validation as (_ & _ & Hname & Hint & _).
  split; [|split].
  - apply (Hname "coco"). apply (bool_decide_unpack _). vm_compute. exact I.
  - apply (Hname "imagenet"). apply (bool_decide_unpack _). vm_compute. exact I.
  - apply (Hint (-5)).
Defined.

Lemma main_TypeError_at_load_data_witness :
  main (DU := Toy.libraries) ["--batch_size"; "16"; "--data_name"; "coco"]
    (initial_state Toy.disk)
  = (Raise (TypeError "load_data() got an unexpected keyword argument 'shuffle'"),
     {| results := empty_results; best_acc := 0; files := Toy.disk; saved := [] |}).
Proof.
  apply (main_TypeError_at_load_data (DU := Toy.libraries)
           ["--batch_size"; "16"; "--data_name"; "coco"]
           (<["data_name" := PyStr "coco"]>
              (<["batch_size" := PyInt 16]> (Argparse.defaults train_parser)))).
  vm_compute. reflexivity.
Defined.

Lemma cli_names_not_implemented_witness :
  load_data (DU := Toy.libraries) (PyStr "coco") (PyInt 64) Toy.disk
  = (Raise (NotImplementedError "coco is not implemented"), Toy.disk).
Proof.
  apply (cli_names_not_implemented (DU := Toy.libraries)
           (Argparse.Argument "--data_name" "data_name" (PyStr "voc") Argparse.type_str
              (Some [PyStr "voc"; PyStr "coco"; PyStr "cityscapes"]))
           [PyStr "voc"; PyStr "coco"; PyStr "cityscapes"]
           (PyStr "coco") (PyInt 64) Toy.disk).
  - vm_compute. apply list_elem_of_here.
  - reflexivity.
  - apply (bool_decide_unpack _). vm_compute. exact I.
Defined.

Lemma norm_factors_saved_elsewhere_witness :
  is_Some (Toy.processed !! "data/DCASE2018A/norm_factors.cpickle")
  ∧ MusicData_init (DU := Toy.libraries) (DataFrame Toy.table) Toy.processed
    = (Raise (IOError "norm_factors.cpickle"), Toy.processed).
Proof.
  destruct (norm_factors_saved_elsewhere (DU := Toy.libraries) Toy.corpus "DCASE2018A"
              Toy.table Toy.disk Toy.processed) as (Hsaved & _ & _ & Hinit).
  - vm_compute. reflexivity.
  - vm_compute. reflexivity.
  - split; [exact Hsaved|exact Hinit].
Defined.

(** * Where two statements fail as they are worded *)

(** C3 says that every invocation ends in the [TypeError].  An invocation
    that asks for help ends with status 0, and one with a data name outside
    the choices ends with status 2, both inside [parse_args]. *)
Lemma main_ends_in_parse_args :
  main (DU := Toy.libraries) ["--help"] (initial_state Toy.disk)
  = (Raise (SystemExit 0), initial_state Toy.disk)
  ∧ main (DU := Toy.libraries) ["--data_name"; "imagenet"] (initial_state Toy.disk)
    = (Raise (SystemExit 2), initial_state Toy.disk).
Proof. split; vm_compute; reflexivity. Qed.


(** * Further properties of [utils.py] *)

Section LoadDataOutcome.
Context `{DU : DcaseUtil}.

(** X1.  No call of [load_data] returns: whatever the arguments, the
    keywords, the disk and the behaviour of the libraries, the call ends
    with an exception.  When the arguments cannot be bound it is a
    [TypeError]; otherwise it comes from the body, at the latest from
    [MusicData], which is handed a list. *)
Theorem load_data_never_returns (args : list pyval) (kwargs : list (string * pyval))
    (fs : filesystem) :
  ∃ e fs', call_load_data args kwargs fs = (Raise e, fs').
Proof.
  unfold call_load_data, PyCall.call.
  destruct (PyCall.bind_arguments load_data_signature args kwargs) as [env|e].
  - apply load_data_raises.
  - unfold raise. eauto.
Qed.

Lemma filtered_Return ds data_type files :
  (∀ f, f ∈ files → unique_scene_labels ds f ≠ []) →
  ∃ rows, filtered ds data_type files = Return rows.
Proof.
  unfold filtered. induction files as [|f files IH]; intros Hl; simpl; [by eauto|].
  destruct (unique_scene_labels ds f) as [|l ls] eqn:E.
  { by destruct (Hl f (list_elem_of_here _ _)). }
  destruct IH as [rows ->]; [|by eauto].
  intros g Hg. apply Hl. by apply list_elem_of_further.
Qed.

(** X2.  On a recognized name, when [initialize] and [process_data] return
    and every file of the three splits has a scene label, [load_data] gets
    as far as line 101 and raises the [TypeError] of subscripting a list
    with a column name; the disk is as [process_data] left it. *)
Theorem load_data_TypeError (data_type batch_size : pyval) (ds : data_set)
    (fs fs1 fs2 : filesystem) :
  select_data_set data_type = Return ds →
  initialize ds fs = (Return (), fs1) →
  process_data ds (format data_type) fs1 = (Return (), fs2) →
  (∀ f, f ∈ (validation_split ds).1 ++ (validation_split ds).2 ++ eval_unique_files ds →
        unique_scene_labels ds f ≠ []) →
  load_data data_type batch_size fs
  = (Raise (TypeError "list indices must be integers or slices, not str"), fs2).
Proof.
  intros Hs Hi Hp Hl. unfold load_data, bind at 1, lift. rewrite Hs.
  unfold load_data_from, bind at 1. rewrite Hi. unfold bind at 1. rewrite Hp.
  destruct (filtered_Return ds (format data_type) (validation_split ds).1) as [r1 H1].
  { intros f Hf. apply Hl. rewrite !elem_of_app. auto. }
  destruct (filtered_Return ds (format data_type) (validation_split ds).2) as [r2 H2].
  { intros f Hf. apply Hl. rewrite !elem_of_app. auto. }
  destruct (filtered_Return ds (format data_type) (eval_unique_files ds)) as [r3 H3].
  { intros f Hf. apply Hl. rewrite !elem_of_app. auto. }
  unfold bind, lift. by rewrite H1, H2, H3.
Qed.

End LoadDataOutcome.

Section ProcessDataFootprint.
Context `{DU : DcaseUtil}.

Lemma startswith_app a b : Str.startswith a (a +:+ b) = true.
Proof.
  induction a as [|c a IH]; [by destruct b|].
  change (String c a +:+ b) with (String c (a +:+ b)). simpl.
  by rewrite decide_True.
Qed.

Lemma writes_only_weaken {A} (P Q : string → Prop) (m : M A) :
  (∀ p, P p → Q p) → writes_only P m → writes_only Q m.
Proof. intros HPQ Hm fs r fs' p E Hq. eapply Hm; [exact E|]. intros HP. by apply Hq, HPQ. Qed.

Lemma writes_only_Path_create_prefixes p :
  writes_only (λ q, q ∈ prefixes p) (Path_create p).
Proof.
  intros fs r fs' q [= <- <-] Hq. revert fs Hq.
  generalize (prefixes p). intros ds. induction ds as [|d ds IH]; intros fs Hq; [done|].
  simpl. rewrite IH by (intros ?; apply Hq; by apply list_elem_of_further).
  unfold mkdir. destruct (fs !! d); [done|]. apply lookup_insert_ne.
  intros ->. apply Hq, list_elem_of_here.
Qed.

Lemma writes_only_extract_features ds data_type :
  writes_only (own_path data_type) (extract_features ds data_type).
Proof.
  unfold extract_features. apply writes_only_bind; [by apply writes_only_reader|].
  intros b. destruct (negb b); [|by apply writes_only_reader].
  apply writes_only_bind.
  { eapply writes_only_weaken, writes_only_Path_create_prefixes. intros p ?. by left. }
  intros _. apply writes_only_for_each. intros x. apply writes_only_bind.
  - apply writes_only_reader. intros fs. unfold AudioContainer_load.
    by repeat case_match.
  - intros a. apply writes_only_write. right; left.
    destruct (feature_filename_under (Str.data_file data_type "features") x)
      as [rest ->]; [done|]. apply startswith_app.
Qed.

Lemma writes_only_compute_normalizer ds data_type :
  writes_only (own_path data_type) (compute_normalizer ds data_type).
Proof.
  unfold compute_normalizer.
  apply writes_only_bind; [by apply writes_only_reader|].
  intros b. destruct (negb b); [|by apply writes_only_reader].
  apply writes_only_bind; [|intros n; apply writes_only_write; by right; right].
  apply writes_only_for_fold. intros n x. apply writes_only_bind.
  - apply writes_only_reader. intros fs. unfold FeatureContainer_load.
    by repeat case_match.
  - intros f. by apply writes_only_reader.
Qed.

(** X3.  Whatever its outcome, [process_data] changes nothing outside its
    own paths (the features directory, the directories above it, what
    begins as the features directory does, and the file of the factors),
    removes no path, and fails with no exception but the [IOError] of a
    file that cannot be loaded. *)
Theorem process_data_footprint (ds : data_set) (data_type : string)
    (fs fs' : filesystem) (r : result unit) :
  process_data ds data_type fs = (r, fs') →
  (∀ p, ¬ own_path data_type p → fs' !! p = fs !! p)
  ∧ (∀ p, is_Some (fs !! p) → is_Some (fs' !! p))
  ∧ (∀ e, r = Raise e → ∃ q, e = IOError q).
Proof.
  intros Hrun. split; [|split].
  - intros p Hp.
    assert (writes_only (own_path data_type) (process_data ds data_type)) as Hw.
    { unfold process_data. apply writes_only_bind;
        [apply writes_only_extract_features|intros _; apply writes_only_compute_normalizer]. }
    by apply (Hw _ _ _ _ Hrun).
  - intros p Hp.
    assert (keeps_paths (process_data ds data_type)) as Hk.
    { unfold process_data. apply keeps_paths_bind;
        [apply keeps_paths_extract_features|intros _; apply keeps_paths_compute_normalizer]. }
    by apply (Hk _ _ _ _ Hrun).
  - intros e ->. by apply (only_raises_process_data ds data_type _ _ _ Hrun).
Qed.

End ProcessDataFootprint.

Section ProcessDataFresh.
Context `{DU : DcaseUtil}.

Lemma startswith_common a b c :
  Str.startswith (a +:+ b) (a +:+ c) = Str.startswith b c.
Proof.
  induction a as [|x a IH]; [done|].
  change (String x a +:+ b) with (String x (a +:+ b)).
  change (String x a +:+ c) with (String x (a +:+ c)).
  simpl. by rewrite decide_True.
Qed.

(** The file of the factors does not begin as the features directory
    does: no feature file is the file of the factors. *)
Lemma norm_factors_path_not_under data_type :
  Str.startswith (Str.data_file data_type "features") (norm_factors_path data_type) = false.
Proof.
  unfold norm_factors_path, Str.data_file.
  rewrite (startswith_common "data/"), (startswith_common data_type). reflexivity.
Qed.

Lemma feature_filename_startswith features_path audio_filename :
  features_path ≠ "" →
  Str.startswith features_path (feature_filename features_path audio_filename) = true.
Proof.
  intros Hne. destruct (feature_filename_under features_path audio_filename Hne)
    as [rest ->]. apply startswith_app.
Qed.

Lemma foldl_mkdir_lookup_Some ds (fs : filesystem) p x :
  fs !! p = Some x → foldl mkdir fs ds !! p = Some x.
Proof.
  revert fs. induction ds as [|d ds IH]; intros fs Hp; simpl; [done|].
  apply IH. unfold mkdir. destruct (fs !! d) eqn:Hd; [done|].
  rewrite lookup_insert_ne; [done|]. intros ->. congruence.
Qed.

(** The loop of lines 39-46, on a disk that has every recording and no
    recording under the features directory. *)
Lemma extract_loop_run (features_path : string) (files : list string) (fs : filesystem) :
  features_path ≠ "" →
  (∀ a, a ∈ files → ∃ w, fs !! a = Some (File (Wav w))) →
  (∀ a, a ∈ files → Str.startswith features_path a = false) →
  ∃ fs', for_each files (λ audio_filename,
           let feature_filename := feature_filename features_path audio_filename in
           let* a := AudioContainer_load audio_filename in
           write feature_filename (FeaturePickle (extract a))) fs
         = (Return (), fs')
       ∧ (∀ a, a ∈ files →
            ∃ f, fs' !! feature_filename features_path a = Some (File (FeaturePickle f)))
       ∧ (∀ p, Str.startswith features_path p = false → fs' !! p = fs !! p)
       ∧ (∀ p f, fs !! p = Some (File (FeaturePickle f)) →
            ∃ f', fs' !! p = Some (File (FeaturePickle f'))).
Proof.
  intros Hne. revert fs. induction files as [|x files IH]; intros fs Haudio Hout.
  - exists fs. split; [done|]. split; [by intros a ?%elem_of_nil|]. split; [done|]. eauto.
  - destruct (Haudio x (list_elem_of_here _ _)) as [w Hw].
    pose proof (feature_filename_startswith features_path x Hne) as Hx.
    set (fs1 := <[feature_filename features_path x := File (FeaturePickle (extract w))]> fs).
    destruct (IH fs1) as (fs' & Hrun & Hfeat & Hsame & Hkeep).
    { intros a Ha. destruct (Haudio a (list_elem_of_further _ _ _ Ha)) as [w' Hw'].
      exists w'. unfold fs1. rewrite lookup_insert_ne; [done|]. intros Heq.
      pose proof (Hout a (list_elem_of_further _ _ _ Ha)) as Hno. congruence. }
    { intros a Ha. apply Hout. by apply list_elem_of_further. }
    exists fs'. split.
    { simpl. unfold bind at 1. unfold bind at 1, AudioContainer_load. rewrite Hw.
      unfold write. exact Hrun. }
    split; [|split].
    + intros a [->|Ha]%elem_of_cons; [|by apply Hfeat].
      apply (Hkeep _ (extract w)). unfold fs1. by rewrite lookup_insert_eq.
    + intros p Hp. rewrite (Hsame p Hp). unfold fs1.
      rewrite lookup_insert_ne; [done|]. intros Heq. congruence.
    + intros p f Hp. destruct (decide (p = feature_filename features_path x)) as [->|Hd].
      * apply (Hkeep _ (extract w)). unfold fs1. by rewrite lookup_insert_eq.
      * apply (Hkeep _ f). unfold fs1. by rewrite lookup_insert_ne.
Qed.

(** The loop of lines 52-57, on a disk that has the feature of every file
    it visits. *)
Lemma accumulate_loop_run (features_path : string) (files : list string)
    (fs : filesystem) (n : normalizer) :
  (∀ a, a ∈ files →
     ∃ f, fs !! feature_filename features_path a = Some (File (FeaturePickle f))) →
  ∃ n', for_fold files n (λ n audio_filename,
          let feature_filename := feature_filename features_path audio_filename in
          let* f := FeatureContainer_load feature_filename in
          ret (accumulate n f)) fs
        = (Return n', fs).
Proof.
  revert n. induction files as [|x files IH]; intros n Hf; simpl; [by eauto|].
  destruct (Hf x (list_elem_of_here _ _)) as [f Hx].
  unfold bind at 1. unfold bind at 1, FeatureContainer_load. rewrite Hx.
  apply IH. intros a Ha. apply Hf. by apply list_elem_of_further.
Qed.

(** X4.  On a disk without the features directory, with every training
    recording in place, none of them under the features directory, and the
    first fold drawn from the training files, [process_data] returns: each
    training file then has its feature file, the factors are saved, and
    the recordings are as they were. *)
Theorem process_data_on_fresh_disk (ds : data_set) (data_type : string)
    (fs : filesystem) :
  fs !! Str.data_file data_type "features" = None →
  (∀ a, a ∈ train_files ds None → ∃ w, fs !! a = Some (File (Wav w))) →
  (∀ a, a ∈ train_files ds None →
        Str.startswith (Str.data_file data_type "features") a = false) →
  (∀ a, a ∈ train_files ds (Some 1) → a ∈ train_files ds None) →
  ∃ fs', process_data ds data_type fs = (Return (), fs')
       ∧ (∀ a, a ∈ train_files ds None →
            ∃ f, fs' !! feature_filename (Str.data_file data_type "features") a
                 = Some (File (FeaturePickle f)))
       ∧ is_Some (fs' !! norm_factors_path data_type)
       ∧ (∀ a, a ∈ train_files ds None → fs' !! a = fs !! a).
Proof.
  intros Hfresh Haudio Hout Hfold.
  set (fp := Str.data_file data_type "features") in *.
  set (fs0 := foldl mkdir fs (prefixes fp)).
  destruct (extract_loop_run fp (train_files ds None) fs0)
    as (fs1 & Hrun & Hfeat & Hsame & Hkeep); [done| |done|].
  { intros a Ha. destruct (Haudio a Ha) as [w Hw]. exists w.
    by apply foldl_mkdir_lookup_Some. }
  assert (extract_features ds data_type fs = (Return (), fs1)) as Hextract.
  { unfold extract_features, bind at 1, path_exists. fold fp.
    rewrite bool_decide_eq_false_2 by (rewrite Hfresh; by intros [? ?]).
    cbn [negb]. unfold bind at 1, Path_create. exact Hrun. }
  assert (∀ a, a ∈ train_files ds None → fs1 !! a = fs !! a) as Hrec.
  { intros a Ha. rewrite (Hsame a (Hout a Ha)).
    destruct (Haudio a Ha) as [w Hw]. rewrite Hw.
    by apply foldl_mkdir_lookup_Some. }
  destruct (fs1 !! norm_factors_path data_type) as [x|] eqn:Hnorm.
  - exists fs1. split; [|split; [done|split; [by rewrite Hnorm|done]]].
    unfold process_data, bind. rewrite Hextract.
    unfold compute_normalizer, bind, path_exists.
    rewrite bool_decide_eq_true_2 by (rewrite Hnorm; eauto). reflexivity.
  - destruct (accumulate_loop_run fp (train_files ds (Some 1)) fs1 Normalizer_new)
      as [n Hn]; [intros a Ha; by apply Hfeat, Hfold|].
    exists (<[norm_factors_path data_type := File (NormalizerPickle (finalize n))]> fs1).
    split; [|split; [|split]].
    + unfold process_data, bind at 1. rewrite Hextract.
      unfold compute_normalizer, bind at 1, path_exists.
      rewrite bool_decide_eq_false_2 by (rewrite Hnorm; by intros [? ?]).
      cbn [negb]. unfold bind at 1. cbv zeta in Hn |- *. fold fp. rewrite Hn. reflexivity.
    + intros a Ha. destruct (Hfeat a Ha) as [f Hf]. exists f.
      rewrite lookup_insert_ne; [done|]. intros Heq.
      pose proof (feature_filename_startswith fp a ltac:(done)) as Hs.
      pose proof (norm_factors_path_not_under data_type) as Hno. fold fp in Hno.
      rewrite <- Heq in Hs. congruence.
    + rewrite lookup_insert_eq. eauto.
    + intros a Ha. rewrite lookup_insert_ne; [by apply Hrec|]. intros <-.
      rewrite (Hrec _ Ha) in Hnorm. destruct (Haudio _ Ha) as [w Hw]. congruence.
Qed.

(** X5.  With the factors missing and the features of the first fold on
    disk, the second step of [process_data] feeds these features to a new
    normalizer in the order of the file list, finalizes it and saves it as
    the file of the factors; nothing else on the disk changes. *)
Theorem normalizer_of_first_fold (ds : data_set) (data_type : string)
    (fs : filesystem) (features : list feature) :
  fs !! norm_factors_path data_type = None →
  Forall2 (λ audio_filename f,
             fs !! feature_filename (Str.data_file data_type "features") audio_filename
             = Some (File (FeaturePickle f)))
          (train_files ds (Some 1)) features →
  compute_normalizer ds data_type fs
  = (Return (),
     <[norm_factors_path data_type
       := File (NormalizerPickle (finalize (foldl accumulate Normalizer_new features)))]> fs)
  ∧ (is_Some (fs !! Str.data_file data_type "features") →
     process_data ds data_type fs
     = (Return (),
        <[norm_factors_path data_type
          := File (NormalizerPickle
                     (finalize (foldl accumulate Normalizer_new features)))]> fs)).
Proof.
  intros Hnone Hfs.
  pose proof (compute_normalizer_computes ds data_type fs features Hnone Hfs) as Hc.
  split; [exact Hc|]. intros Hdir. unfold process_data, bind.
  by rewrite extract_features_skips.
Qed.

End ProcessDataFresh.

(** ** The label indices of [MusicData] *)

Section LabelIndices.

Lemma StronglySorted_lookup_le (l : list string) i j a b :
  StronglySorted String.le l → l !! i = Some a → l !! j = Some b → (i < j)%nat →
  String.le a b.
Proof.
  intros Hs. revert i j. induction Hs as [|x l Hs IH Hall]; intros i j Hi Hj Hlt.
  - by rewrite lookup_nil in Hi.
  - destruct j as [|j]; [lia|]. destruct i as [|i]; simpl in *.
    + injection Hi as ->. rewrite Forall_forall in Hall. apply Hall.
      eapply list_elem_of_lookup_2, Hj.
    + apply (IH i j); [done..|lia].
Qed.

Lemma ranked_labels_facts labels :
  NoDup (sorted (unique labels))
  ∧ StronglySorted String.le (sorted (unique labels))
  ∧ ∀ x, x ∈ sorted (unique labels) ↔ x ∈ labels.
Proof.
  split; [rewrite sorted_Permutation; apply unique_NoDup|]. split.
  - apply Sorted_StronglySorted; [apply _|apply sorted_Sorted].
  - intros x. rewrite sorted_Permutation. apply unique_elem_of.
Qed.

(** X6.  Two columns of labels get the same [label2index] exactly when
    they hold the same labels: the order of the rows and the repetitions
    do not count, and a column that lacks a label of the other never gets
    the same dictionary. *)
Theorem label2index_same_labels (labels1 labels2 : list string) :
  make_label2index labels1 = make_label2index labels2
  ↔ (∀ x, x ∈ labels1 ↔ x ∈ labels2).
Proof.
  split.
  - intros Heq x.
    destruct (ranked_labels_facts labels1) as (_ & _ & H1).
    destruct (ranked_labels_facts labels2) as (_ & _ & H2).
    rewrite <- H1, <- H2, !list_elem_of_lookup.
    setoid_rewrite <- make_label2index_lookup. by rewrite Heq.
  - intros Hsame. unfold make_label2index. f_equal. f_equal.
    destruct (ranked_labels_facts labels1) as (Hn1 & Hs1 & H1).
    destruct (ranked_labels_facts labels2) as (Hn2 & Hs2 & H2).
    apply (StronglySorted_unique String.le); [done..|].
    apply NoDup_Permutation; [done..|]. intros x. by rewrite H1, H2, Hsame.
Qed.

(** X7.  [label2index] keeps the order of the labels: of two labels of the
    column, the smaller one has the smaller index, and only equal labels
    have equal indices. *)
Theorem label2index_monotone (labels : list string) (a b : string) (i j : nat) :
  make_label2index labels !! a = Some i →
  make_label2index labels !! b = Some j →
  ((i < j)%nat ↔ String.le a b ∧ a ≠ b) ∧ (i = j ↔ a = b).
Proof.
  rewrite !make_label2index_lookup. intros Ha Hb.
  destruct (ranked_labels_facts labels) as (Hnd & Hs & _).
  assert (i = j ↔ a = b) as Heq.
  { split; [intros ->; congruence|intros ->; by eapply NoDup_lookup]. }
  split; [|done]. split.
  - intros Hlt. split; [by eapply StronglySorted_lookup_le|].
    intros Hab. apply Heq in Hab. lia.
  - intros [Hle Hne]. destruct (decide (i < j)%nat) as [|Hge]; [done|].
    exfalso. destruct (decide (i = j)) as [Hij|Hij]; [by apply Hne, Heq|].
    apply Hne. apply (anti_symm String.le); [done|].
    eapply (StronglySorted_lookup_le _ j i); [done..|lia].
Qed.

End LabelIndices.

(** ** [MusicData.__getitem__] and the index *)

Section GetItemIndex.
Context `{DU : DcaseUtil}.

Lemma getitem_seq_out_of_range {A} (a : list A) (index : Z) :
  index < - Z.of_nat (length a) ∨ Z.of_nat (length a) ≤ index →
  getitem_seq a index = Raise (IndexError "index out of bounds").
Proof.
  intros H. unfold getitem_seq. cbv zeta.
  destruct (decide (index < 0)); by rewrite decide_False by lia.
Qed.

Lemma getitem_seq_negative {A} (a : list A) (index : Z) :
  - Z.of_nat (length a) ≤ index < 0 →
  getitem_seq a index = getitem_seq a (index + Z.of_nat (length a)).
Proof.
  intros H. unfold getitem_seq. cbv zeta.
  rewrite (decide_True (P := index < 0)) by lia.
  by rewrite (decide_False (P := index + Z.of_nat (length a) < 0)) by lia.
Qed.

(** X8.  On a dataset with one target per sample, [__getitem__] with an
    index that is not in [-len .. len-1] raises [IndexError] before it
    touches a file, and an index [-len ≤ i < 0] gives what [i + len]
    gives: the samples are counted from the end. *)
Theorem MusicData_getitem_index (self : MusicData) (index : Z) (fs : filesystem) :
  length (targets self) = length (samples self) →
  (index < - Z.of_nat (MusicData_len self) ∨ Z.of_nat (MusicData_len self) ≤ index →
   MusicData_getitem self index fs = (Raise (IndexError "index out of bounds"), fs))
  ∧ (- Z.of_nat (MusicData_len self) ≤ index < 0 →
     MusicData_getitem self index fs
     = MusicData_getitem self (index + Z.of_nat (MusicData_len self)) fs).
Proof.
  intros Hlen. unfold MusicData_len, MusicData_getitem. split; intros Hi.
  - unfold bind, lift. by rewrite getitem_seq_out_of_range.
  - rewrite (getitem_seq_negative (samples self)) by done.
    rewrite (getitem_seq_negative (targets self)) by (rewrite Hlen; done).
    by rewrite Hlen.
Qed.

End GetItemIndex.

(** ** The epoch loop: where it stops, what it touches *)

Section EpochLoopOutcome.
Context `{DU : DcaseUtil}.

Lemma not_improved_iff (x b : Q) : negb (Qle_bool x b) = false ↔ (x <= b)%Q.
Proof. by rewrite negb_false_iff, Qle_bool_iff. Qed.

Lemma improved_lt (x b : Q) : negb (Qle_bool x b) = true ↔ (b < x)%Q.
Proof.
  rewrite negb_true_iff, <- not_true_iff_false, Qle_bool_iff. split.
  - apply Qnot_le_lt.
  - apply Qlt_not_le.
Qed.

(** X9.  With the module [utils] as [utils.py] defines it, a loop of one
    epoch or more, entered as line 70 leaves the script, stops in its first
    epoch at line 135: the six values of that epoch are in [results], the
    model is saved when its accuracy is above zero and not otherwise, and
    the statistics file is not written. *)
Theorem epoch_loop_stops_in_first_epoch (DATA_NAME : pyval) (NUM_EPOCH : Z)
    (oracle : nat → epoch_metrics) (fs : filesystem) :
  1 ≤ NUM_EPOCH →
  ((0 < acc oracle 1)%Q →
   epoch_loop utils_py DATA_NAME NUM_EPOCH oracle (ready fs)
   = (Raise (AttributeError "module 'utils' has no attribute 'ProbAM'"),
      {| results := results_after oracle 1; best_acc := acc oracle 1;
         files := <[checkpoint_path DATA_NAME := File (StateDict 1)]> fs;
         saved := [1%nat] |}))
  ∧ ((acc oracle 1 <= 0)%Q →
     epoch_loop utils_py DATA_NAME NUM_EPOCH oracle (ready fs)
     = (Raise (AttributeError "module 'utils' has no attribute 'ProbAM'"),
        {| results := results_after oracle 1; best_acc := 0;
           files := fs; saved := [] |})).
Proof.
  intros HN. destruct (Z.to_nat NUM_EPOCH) as [|n] eqn:Hn; [lia|].
  assert (epoch_loop utils_py DATA_NAME NUM_EPOCH oracle (ready fs)
          = let improved := negb (Qle_bool (acc oracle 1) 0) in
            (Raise (AttributeError "module 'utils' has no attribute 'ProbAM'"),
             {| results := results_after oracle 1;
                best_acc := if improved then acc oracle 1 else 0;
                files := if improved
                         then <[checkpoint_path DATA_NAME := File (StateDict 1)]> fs
                         else fs;
                saved := if improved then [1%nat] else [] |})) as Hrun.
  { unfold epoch_loop, bind at 1. cbn [set_best_acc ready results files saved].
    rewrite Hn. unfold epochs. cbn [seq for_each]. unfold bind at 1.
    change empty_results with (results_after oracle 0).
    rewrite epoch_body_run. cbv zeta. rewrite decide_False; [done|].
    vm_compute. intros H. repeat (apply elem_of_cons in H as [[=]|H]).
    by apply elem_of_nil in H. }
  rewrite Hrun. cbv zeta. split.
  - intros Hpos. apply improved_lt in Hpos. by rewrite Hpos.
  - intros Hle. apply not_improved_iff in Hle. by rewrite Hle.
Qed.

(** X10.  A number of epochs that is zero or negative runs no epoch: the
    loop returns with [best_acc] set to zero and the rest of the state as
    it was, whatever the module [utils] has. *)
Theorem epoch_loop_no_epoch (utils : list string) (DATA_NAME : pyval) (NUM_EPOCH : Z)
    (oracle : nat → epoch_metrics) (σ : script_state) :
  NUM_EPOCH ≤ 0 →
  epoch_loop utils DATA_NAME NUM_EPOCH oracle σ
  = (Return (), {| results := results σ; best_acc := 0;
                   files := files σ; saved := saved σ |}).
Proof.
  intros HN. unfold epoch_loop, bind, set_best_acc, epochs.
  by replace (Z.to_nat NUM_EPOCH) with 0%nat by lia.
Qed.

Lemma loop_step_refl DATA_NAME σ : loop_step DATA_NAME σ σ.
Proof. by split; [|split]. Qed.

Lemma loop_step_trans DATA_NAME σ1 σ2 σ3 :
  loop_step DATA_NAME σ1 σ2 → loop_step DATA_NAME σ2 σ3 → loop_step DATA_NAME σ1 σ3.
Proof.
  intros (Hf1 & Hk1 & Hs1) (Hf2 & Hk2 & Hs2). split; [|split].
  - intros p H1 H2. by rewrite Hf2, Hf1.
  - by rewrite Hk2.
  - by etrans.
Qed.

Lemma loop_steps_bind {A B} DATA_NAME (m : ST script_state A) (k : A → ST script_state B) :
  loop_steps DATA_NAME m → (∀ a, loop_steps DATA_NAME (k a)) →
  loop_steps DATA_NAME (bind m k).
Proof.
  intros Hm Hk σ r σ'. unfold bind.
  destruct (m σ) as [[a|e] σ1] eqn:Hrun.
  - intros Hk'. destruct (Hm _ _ _ Hrun) as [H1 _].
    destruct (Hk a _ _ _ Hk') as [H2 He]. split; [by eapply loop_step_trans|].
    intros e Hr. destruct H1 as (_ & <- & _). by apply He.
  - intros [= <- <-]. destruct (Hm _ _ _ Hrun) as [H1 He]. split; [done|].
    intros e' [= <-]. by apply He.
Qed.

Lemma loop_steps_for_each {A} DATA_NAME (xs : list A) (body : A → ST script_state unit) :
  (∀ x, loop_steps DATA_NAME (body x)) → loop_steps DATA_NAME (for_each xs body).
Proof.
  intros Hb. induction xs as [|x xs IH]; simpl.
  - intros σ r σ' [= <- <-]. split; [apply loop_step_refl|done].
  - apply loop_steps_bind; [apply Hb|done].
Qed.

(** A computation that changes neither the files, nor the keys of
    [results], nor [saved], and does not raise. *)
Lemma loop_steps_quiet {A} DATA_NAME (m : ST script_state A) :
  (∀ σ, ∃ a σ', m σ = (Return a, σ') ∧ files σ' = files σ
                ∧ (results σ').*1 = (results σ).*1 ∧ saved σ' = saved σ) →
  loop_steps DATA_NAME m.
Proof.
  intros Hm σ r σ' Hrun. destruct (Hm σ) as (a & σ1 & H1 & Hf & Hk & Hs).
  rewrite Hrun in H1. injection H1 as -> ->. split; [|done].
  split; [|split]; [by intros; rewrite Hf|done|by rewrite Hs].
Qed.

Lemma dict_append_keys key x d d' :
  dict_append key x d = Return d' → d'.*1 = d.*1.
Proof.
  revert d'. induction d as [|[k l] d IH]; intros d'; simpl; [done|].
  case_decide; [by intros [= <-]|].
  destruct (dict_append key x d) as [d''|]; [|done].
  intros [= <-]. simpl. f_equal. by apply IH.
Qed.

Lemma dict_append_Raise key x d e :
  dict_append key x d = Raise e → e = KeyError key ∧ key ∉ d.*1.
Proof.
  induction d as [|[k l] d IH]; simpl.
  - intros [= <-]. split; [done|]. apply not_elem_of_nil.
  - case_decide as Hk; [done|].
    destruct (dict_append key x d) as [d''|e'] eqn:Hd; [done|].
    intros [= <-]. destruct (IH eq_refl) as [-> Hn]. split; [done|].
    rewrite not_elem_of_cons. split; [by intros ->|done].
Qed.

Lemma loop_steps_results_append DATA_NAME key x :
  loop_steps DATA_NAME (results_append key x).
Proof.
  intros σ r σ'. unfold results_append, bind, get_results, lift, set_results.
  destruct (dict_append key x (results σ)) as [d'|e] eqn:Hd.
  - intros [= <- <-]. split; [|done]. split; [done|]. split; [|done].
    simpl. by eapply dict_append_keys.
  - intros [= <- <-]. split; [apply loop_step_refl|].
    intros e' [= <-]. left. exists key. by apply dict_append_Raise in Hd.
Qed.

Lemma loop_steps_epoch_body utils DATA_NAME oracle epoch :
  loop_steps DATA_NAME (epoch_body utils DATA_NAME oracle epoch).
Proof.
  unfold epoch_body. cbv zeta.
  repeat (apply loop_steps_bind; [apply loop_steps_results_append|intros _]).
  apply loop_steps_bind; [apply loop_steps_quiet; intros σ; by eexists _, _|intros best].
  apply loop_steps_bind; [|intros _].
  { destruct (negb _); [|apply loop_steps_quiet; intros σ; by eexists _, _].
    intros σ r σ' [= <- <-]. split; [|done]. split; [|split]; simpl.
    - intros p Hp _. by rewrite lookup_insert_ne.
    - done.
    - by apply prefix_app_r. }
  apply loop_steps_bind; [|intros _].
  { unfold getattr_module. case_decide.
    - apply loop_steps_quiet; intros σ; by eexists _, _.
    - intros σ r σ' [= <- <-]. split; [apply loop_step_refl|].
      intros e [= <-]. right. by left. }
  apply loop_steps_bind; [apply loop_steps_quiet; intros σ; by eexists _, _|intros data].
  apply loop_steps_bind; [|intros df].
  { unfold pd_DataFrame. case_match.
    - apply loop_steps_quiet; intros σ; by eexists _, _.
    - intros σ r σ' [= <- <-]. split; [apply loop_step_refl|].
      intros e [= <-]. right. by right. }
  intros σ r σ' [= <- <-]. split; [|done]. split; [|split]; simpl; [|done..].
  intros p _ Hp. by rewrite lookup_insert_ne.
Qed.

(** X11.  Whatever state the epoch loop is entered in and however it ends,
    it has changed no path but the checkpoint and the statistics file, it
    has left [results] its keys, and it has only added to the epochs at
    which the model was saved; and it raises nothing but the [KeyError] of
    a key that [results] lacked, the [AttributeError] of line 135 and the
    [ValueError] of a table whose columns are not as long as its index. *)
Theorem epoch_loop_footprint (utils : list string) (DATA_NAME : pyval) (NUM_EPOCH : Z)
    (oracle : nat → epoch_metrics) (σ σ' : script_state) (r : result unit) :
  epoch_loop utils DATA_NAME NUM_EPOCH oracle σ = (r, σ') →
  (∀ p, p ≠ checkpoint_path DATA_NAME → p ≠ statistics_path DATA_NAME →
        files σ' !! p = files σ !! p)
  ∧ (results σ').*1 = (results σ).*1
  ∧ saved σ `prefix_of` saved σ'
  ∧ ∀ e, r = Raise e →
      (∃ k, e = KeyError k ∧ k ∉ (results σ).*1)
      ∨ e = AttributeError "module 'utils' has no attribute 'ProbAM'"
      ∨ e = ValueError "Length of values does not match length of index".
Proof.
  intros Hrun.
  assert (loop_steps DATA_NAME (epoch_loop utils DATA_NAME NUM_EPOCH oracle)) as Hsteps.
  { unfold epoch_loop. apply loop_steps_bind.
    - apply loop_steps_quiet. intros σ0. by eexists _, _.
    - intros _. apply loop_steps_for_each. intros e. apply loop_steps_epoch_body. }
  destruct (Hsteps _ _ _ Hrun) as [(Hf & Hk & Hs) He]. auto.
Qed.

(** X12.  However the loop of [n] epochs ends: when a model was saved, the
    checkpoint holds the model of the first of the epochs reached that had
    the best accuracy on the test set, and [best_acc] is that accuracy;
    when no accuracy was above zero, no model was saved and the checkpoint
    path holds what it held.  With the module [utils] of the repository
    the epochs reached are the first one alone. *)
Theorem checkpoint_holds_best_model (utils : list string) (DATA_NAME : pyval)
    (oracle : nat → epoch_metrics) (fs : filesystem) (n : nat)
    (r : result unit) (σ : script_state) :
  epoch_loop utils DATA_NAME (Z.of_nat n) oracle (ready fs) = (r, σ) →
  match last (saved σ) with
  | Some e =>
      (1 ≤ e ≤ epochs_reached utils n)%nat
      ∧ files σ !! checkpoint_path DATA_NAME = Some (File (StateDict e))
      ∧ best_acc σ = acc oracle e
      ∧ (∀ j, (1 ≤ j ≤ epochs_reached utils n)%nat → (acc oracle j <= acc oracle e)%Q)
      ∧ (∀ j, (1 ≤ j < e)%nat → (acc oracle j < acc oracle e)%Q)
  | None =>
      saved σ = []
      ∧ files σ !! checkpoint_path DATA_NAME = fs !! checkpoint_path DATA_NAME
      ∧ best_acc σ = 0%Q
      ∧ (∀ j, (1 ≤ j ≤ epochs_reached utils n)%nat → (acc oracle j <= 0)%Q)
  end.
Proof.
  intros Hrun.
  destruct (epoch_loop_run _ _ _ _ _ _ _ Hrun)
    as (_ & _ & _ & Hle & _ & Hsaved & Hck & Hbest & _).
  destruct (last (saved σ)) as [e|] eqn:Hlast.
  - assert (e ∈ saved σ) as He.
    { apply last_Some in Hlast as [l' ->]. rewrite elem_of_app, list_elem_of_singleton. auto. }
    apply Hsaved in He as [Hrange [_ Hrec]].
    split; [done|]. split; [done|]. split; [done|].
    split; [|done]. intros j Hj. rewrite <- Hbest. by apply Hle.
  - split; [by apply last_None|]. split; [done|]. split; [done|].
    intros j Hj. rewrite <- Hbest. by apply Hle.
Qed.

End EpochLoopOutcome.

(** ** The command line: how parsing ends, what it returns *)

Section CommandLineOutcome.

Lemma get_value_Raise t s e : Argparse.get_value t s = Raise e → e = SystemExit 2.
Proof.
  unfold Argparse.get_value, Argparse.error. repeat case_match; congruence.
Qed.

Lemma get_values_Raise a s e : Argparse.get_values a s = Raise e → e = SystemExit 2.
Proof.
  unfold Argparse.get_values, Argparse.check_value, Argparse.error.
  case_decide; [done|].
  destruct (Argparse.get_value (Argparse.type a) s) as [v|e'] eqn:Hv.
  - repeat case_match; congruence.
  - intros [= <-]. by eapply get_value_Raise.
Qed.

Lemma patterns_Raise p argv e : Argparse.patterns p argv = Raise e → e = SystemExit 2.
Proof.
  induction argv as [|s argv IH]; simpl; [done|].
  case_decide; [done|].
  destruct (Argparse.parse_optional p s) as [o|e'] eqn:Ho.
  - destruct (Argparse.patterns p argv) as [ps|e'']; [done|].
    intros [= <-]. by apply IH.
  - intros [= <-]. by eapply parse_optional_Raise.
Qed.

Lemma help_cluster_exit s : Argparse.help_cluster s = SystemExit 0
                            ∨ Argparse.help_cluster s = SystemExit 2.
Proof.
  induction s as [|c s IH]; simpl; [by right|].
  repeat case_decide; auto.
Qed.

Lemma consume_help_exit option_string explicit_arg :
  Argparse.consume_help option_string explicit_arg = SystemExit 0
  ∨ Argparse.consume_help option_string explicit_arg = SystemExit 2.
Proof.
  unfold Argparse.consume_help. destruct explicit_arg as [e|]; [|by left].
  case_match; [apply help_cluster_exit|by right].
Qed.

Lemma consume_Raise ps ns seen extras e :
  Argparse.consume ps ns seen extras = Raise e → e = SystemExit 0 ∨ e = SystemExit 2.
Proof.
  remember (length ps) as n eqn:Hn. revert ps ns seen extras e Hn.
  induction n as [n IH] using lt_wf_ind. intros ps ns seen extras e Hn.
  destruct ps as [|[s pat] rest]; [done|].
  simpl in Hn. destruct pat as [| |[[|a]|] option_string [explicit_arg|]];
    cbn [Argparse.consume];
    try (by apply (IH (length rest)); [lia|]).
  - intros [= <-]. apply (consume_help_exit option_string (Some explicit_arg)).
  - intros [= <-]. apply (consume_help_exit option_string None).
  - destruct (Argparse.get_values a explicit_arg) as [v|e'] eqn:Hv.
    + by apply (IH (length rest)); [lia|].
    + intros [= <-]. right. by eapply get_values_Raise.
  - destruct rest as [|[s' [| |]] rest']; try (intros [= <-]; by right).
    destruct (Argparse.get_values a s') as [v|e'] eqn:Hv.
    + apply (IH (length rest')); [simpl in Hn; lia|done].
    + intros [= <-]. right. by eapply get_values_Raise.
Qed.

Lemma convert_defaults_Raise p seen ns e :
  Argparse.convert_defaults p seen ns = Raise e → e = SystemExit 2.
Proof.
  revert ns. induction p as [|a p IH]; intros ns; simpl; [done|].
  destruct (Argparse.default a); try apply IH.
  case_decide; [apply IH|].
  destruct (Argparse.get_value (Argparse.type a) s) as [v|e'] eqn:Hv; [apply IH|].
  intros [= <-]. by eapply get_value_Raise.
Qed.

(** X13.  Whatever the parser and the command line, [parse_args] raises
    nothing but [SystemExit], with status 0 (help) or 2 (error). *)
Theorem parse_args_exit_status (p : Argparse.parser) (argv : list string) (e : exn) :
  Argparse.parse_args p argv = Raise e → e = SystemExit 0 ∨ e = SystemExit 2.
Proof.
  unfold Argparse.parse_args.
  destruct (Argparse.patterns p argv) as [ps|e1] eqn:Hp.
  2:{ intros [= <-]. right. by eapply patterns_Raise. }
  destruct (Argparse.consume ps (Argparse.defaults p) [] [])
    as [[[ns seen] extras]|e2] eqn:Hc.
  2:{ intros [= <-]. by eapply consume_Raise. }
  destruct (Argparse.convert_defaults p seen ns) as [ns'|e3] eqn:Hd.
  2:{ intros [= <-]. right. by eapply convert_defaults_Raise. }
  destruct extras; [done|]. intros [= <-]. by right.
Qed.


Lemma assoc_elem_of {A} k (l : list (string * A)) v :
  Argparse.assoc k l = Some v → (k, v) ∈ l.
Proof.
  induction l as [|[k' v'] l IH]; simpl; [done|].
  case_decide as Hk.
  - intros [= <-]. subst k'. apply list_elem_of_here.
  - intros H. apply list_elem_of_further. by apply IH.
Qed.

Lemma option_string_actions_store p option_string a :
  (option_string, Argparse.store a) ∈ Argparse.option_string_actions p → a ∈ p.
Proof.
  unfold Argparse.option_string_actions.
  intros [[=]|[[=]|H]%elem_of_cons]%elem_of_cons.
  apply list_elem_of_fmap in H as (a' & [= _ <-] & Ha). done.
Qed.

Lemma get_option_tuples_elem_of p arg_string act option_string explicit_arg :
  (act, option_string, explicit_arg) ∈ Argparse.get_option_tuples p arg_string →
  (option_string, act) ∈ Argparse.option_string_actions p.
Proof.
  unfold Argparse.get_option_tuples.
  destruct arg_string as [|c0 [|c1 rest]]; [by intros ?%elem_of_nil..|].
  case_decide.
  - destruct (match Argparse.split_eq (String c0 (String c1 rest)) with
              | Some (a, b) => (a, Some b)
              | None => (String c0 (String c1 rest), None)
              end) as [option_prefix ea].
    intros ([os act'] & Hin & Hx)%list_elem_of_omap.
    destruct (Str.startswith option_prefix os); [|done]. by injection Hx as -> -> _.
  - cbv zeta. intros ([os act'] & Hin & Hx)%list_elem_of_omap.
    case_decide; [by injection Hx as -> -> _|].
    destruct (Str.startswith _ os); [|done]. by injection Hx as -> -> _.
Qed.

(** An option that [_parse_optional] recognizes is an option of the
    parser. *)
Lemma parse_optional_store p arg_string a option_string explicit_arg :
  Argparse.parse_optional p arg_string
  = Return (Some (Some (Argparse.store a), option_string, explicit_arg)) →
  a ∈ p.
Proof.
  unfold Argparse.parse_optional, Argparse.error.
  destruct arg_string as [|c0 tail]; [done|].
  destruct (negb _); [done|].
  destruct (Argparse.assoc (String c0 tail) _) as [act|] eqn:Ha.
  { intros [= -> _ _]. eapply option_string_actions_store, assoc_elem_of, Ha. }
  case_decide; [done|]. cbv zeta.
  destruct (Argparse.split_eq (String c0 tail)) as [[os ea]|] eqn:Hs.
  - destruct (Argparse.assoc os _) as [act|] eqn:Ha'.
    { intros [= -> _ _]. eapply option_string_actions_store, assoc_elem_of, Ha'. }
    destruct (Argparse.get_option_tuples p (String c0 tail))
      as [|[[act os'] ea'] [|]] eqn:Hg; [repeat case_match; done| |done].
    intros [= -> -> ->]. eapply option_string_actions_store, get_option_tuples_elem_of.
    rewrite Hg. apply list_elem_of_here.
  - destruct (Argparse.get_option_tuples p (String c0 tail))
      as [|[[act os'] ea'] [|]] eqn:Hg; [repeat case_match; done| |done].
    intros [= -> -> ->]. eapply option_string_actions_store, get_option_tuples_elem_of.
    rewrite Hg. apply list_elem_of_here.
Qed.

Lemma patterns_store p argv ps s a option_string explicit_arg :
  Argparse.patterns p argv = Return ps →
  (s, Argparse.pattern_O (Some (Argparse.store a)) option_string explicit_arg) ∈ ps →
  a ∈ p.
Proof.
  revert ps. induction argv as [|x argv IH]; intros ps; simpl.
  - intros [= <-]. by intros ?%elem_of_nil.
  - case_decide.
    + intros [= <-]. intros [[=]|H']%elem_of_cons.
      apply list_elem_of_fmap in H' as (? & [=] & _).
    + destruct (Argparse.parse_optional p x) as [o|] eqn:Ho; [|done].
      destruct (Argparse.patterns p argv) as [ps'|]; [|done].
      intros [= <-]. intros [Heq|H']%elem_of_cons; [|by eapply IH].
      destruct o as [[[act os] ea]|]; [|done].
      injection Heq as _ <- <- <-. by eapply parse_optional_store.
Qed.

Lemma train_parser_cases (a : Argparse.argument) :
  a ∈ train_parser →
  a = Argparse.Argument "--data_name" "data_name" (PyStr "voc") Argparse.type_str
        (Some [PyStr "voc"; PyStr "coco"; PyStr "cityscapes"])
  ∨ a = Argparse.Argument "--batch_size" "batch_size" (PyInt 64) Argparse.type_int None
  ∨ a = Argparse.Argument "--num_iterations" "num_iterations" (PyInt 3)
          Argparse.type_int None
  ∨ a = Argparse.Argument "--num_epochs" "num_epochs" (PyInt 100) Argparse.type_int None.
Proof.
  intros Ha.
  assert (train_parser
          = [Argparse.Argument "--data_name" "data_name" (PyStr "voc") Argparse.type_str
               (Some [PyStr "voc"; PyStr "coco"; PyStr "cityscapes"]);
             Argparse.Argument "--batch_size" "batch_size" (PyInt 64) Argparse.type_int None;
             Argparse.Argument "--num_iterations" "num_iterations" (PyInt 3)
               Argparse.type_int None;
             Argparse.Argument "--num_epochs" "num_epochs" (PyInt 100)
               Argparse.type_int None]) as Hp by (vm_compute; reflexivity).
  rewrite Hp in Ha.
  repeat (apply elem_of_cons in Ha as [->|Ha]); [auto..|by apply elem_of_nil in Ha].
Qed.

Lemma get_values_parsed a s v :
  a ∈ train_parser → Argparse.get_values a s = Return v →
  parsed_value (Argparse.dest a) v.
Proof.
  intros Ha. unfold Argparse.get_values, Argparse.get_value, Argparse.check_value,
    Argparse.error, parsed_value.
  destruct (train_parser_cases a Ha) as [-> | [-> | [-> | ->]]]; cbn;
    (case_decide; [intros [= <-]|]).
  - left. split; [done|]. repeat constructor.
  - case_decide as Hv; [|done]. intros [= <-]. left. split; [done|].
    change [PyStr "voc"; PyStr "coco"; PyStr "cityscapes"; PyEmptyList]
      with ([PyStr "voc"; PyStr "coco"; PyStr "cityscapes"] ++ [PyEmptyList]).
    apply elem_of_app. by left.
  - right. split; [repeat constructor|by left].
  - destruct (PyInt.int s) as [z|]; [|done]. intros [= <-].
    right. split; [repeat constructor|right; eauto].
  - right. split; [repeat constructor|by left].
  - destruct (PyInt.int s) as [z|]; [|done]. intros [= <-].
    right. split; [repeat constructor|right; eauto].
  - right. split; [repeat constructor|by left].
  - destruct (PyInt.int s) as [z|]; [|done]. intros [= <-].
    right. split; [repeat constructor|right; eauto].
Qed.

Lemma consume_parsed ps ns seen extras ns' seen' extras' :
  (∀ s a option_string explicit_arg,
     (s, Argparse.pattern_O (Some (Argparse.store a)) option_string explicit_arg) ∈ ps →
     a ∈ train_parser) →
  (∀ k v, ns !! k = Some v → parsed_value k v) →
  Argparse.consume ps ns seen extras = Return (ns', seen', extras') →
  ∀ k v, ns' !! k = Some v → parsed_value k v.
Proof.
  remember (length ps) as n eqn:Hn. revert ps ns seen extras Hn.
  induction n as [n IH] using lt_wf_ind. intros ps ns seen extras Hn Hps Hns.
  destruct ps as [|[s pat] rest]; [by intros [= <- _ _]|].
  assert (∀ s a option_string explicit_arg,
            (s, Argparse.pattern_O (Some (Argparse.store a)) option_string explicit_arg)
            ∈ rest → a ∈ train_parser) as Hrest.
  { intros ???? H. eapply Hps. apply list_elem_of_further, H. }
  simpl in Hn. destruct pat as [| |[[|a]|] option_string [explicit_arg|]];
    cbn [Argparse.consume];
    try (by apply (IH (length rest)); [lia|..]);
    try discriminate.
  - destruct (Argparse.get_values a explicit_arg) as [v|] eqn:Hv; [|discriminate].
    apply (IH (length rest)); [lia|done..|].
    intros k v'. destruct (decide (Argparse.dest a = k)) as [<-|].
    + rewrite lookup_insert_eq. intros [= <-]. eapply get_values_parsed; [|exact Hv].
      eapply Hps. apply list_elem_of_here.
    + rewrite lookup_insert_ne by done. apply Hns.
  - destruct rest as [|[s' [| |]] rest']; try discriminate.
    destruct (Argparse.get_values a s') as [v|] eqn:Hv; [|discriminate].
    apply (IH (length rest')); [simpl in Hn; lia|done| |].
    { intros ???? H. eapply Hrest. apply list_elem_of_further, H. }
    intros k v'. destruct (decide (Argparse.dest a = k)) as [<-|].
    + rewrite lookup_insert_eq. intros [= <-]. eapply get_values_parsed; [|exact Hv].
      eapply Hps. apply list_elem_of_here.
    + rewrite lookup_insert_ne by done. apply Hns.
Qed.

Lemma convert_defaults_parsed p seen ns ns' :
  (∀ a, a ∈ p → a ∈ train_parser) →
  (∀ k v, ns !! k = Some v → parsed_value k v) →
  Argparse.convert_defaults p seen ns = Return ns' →
  ∀ k v, ns' !! k = Some v → parsed_value k v.
Proof.
  revert ns. induction p as [|a p IH]; intros ns Hp Hns; simpl; [by intros [= <-]|].
  assert (∀ a, a ∈ p → a ∈ train_parser) as Hp'.
  { intros a' H. by apply Hp, list_elem_of_further. }
  destruct (Argparse.default a) as [s| | | |] eqn:Hd; try by apply IH.
  case_decide; [by apply IH|].
  destruct (Argparse.get_value (Argparse.type a) s) as [v|] eqn:Hv; [|discriminate].
  apply IH; [done|]. intros k v'.
  destruct (decide (Argparse.dest a = k)) as [<-|];
    [|rewrite lookup_insert_ne by done; apply Hns].
  rewrite lookup_insert_eq. intros [= <-].
  destruct (train_parser_cases a (Hp a (list_elem_of_here _ _))) as [-> | [-> | [-> | ->]]];
    simpl in Hd; try discriminate.
  injection Hd as <-. injection Hv as <-. left. split; [done|]. repeat constructor.
Qed.

Lemma defaults_parsed k v :
  Argparse.defaults train_parser !! k = Some v → parsed_value k v.
Proof.
  assert (Argparse.defaults train_parser
          = <["num_epochs" := PyInt 100]> (<["num_iterations" := PyInt 3]>
              (<["batch_size" := PyInt 64]> (<["data_name" := PyStr "voc"]> ∅))))
    as -> by (vm_compute; reflexivity).
  unfold parsed_value.
  destruct (decide (k = "num_epochs")) as [->|];
    [rewrite lookup_insert_eq; intros [= <-]; right;
     split; [repeat constructor|right; eauto]|rewrite lookup_insert_ne by done].
  destruct (decide (k = "num_iterations")) as [->|];
    [rewrite lookup_insert_eq; intros [= <-]; right;
     split; [repeat constructor|right; eauto]|rewrite lookup_insert_ne by done].
  destruct (decide (k = "batch_size")) as [->|];
    [rewrite lookup_insert_eq; intros [= <-]; right;
     split; [repeat constructor|right; eauto]|rewrite lookup_insert_ne by done].
  destruct (decide (k = "data_name")) as [->|];
    [rewrite lookup_insert_eq; intros [= <-]; left;
     split; [done|repeat constructor]|rewrite lookup_insert_ne by done].
  by rewrite lookup_empty.
Qed.

(** X14.  The namespace that [parse_args] returns for [train.py] has the
    four attributes and no other; [data_name] is one of the three choices
    and each of the three numbers is an integer, or it is the empty list
    that argparse stores for a value written as two dashes. *)
Theorem parse_args_namespace (argv : list string) (opt : Argparse.namespace) :
  Argparse.parse_args train_parser argv = Return opt →
  (∀ k, is_Some (opt !! k)
        ↔ k ∈ ["data_name"; "batch_size"; "num_iterations"; "num_epochs"])
  ∧ (∀ v, opt !! "data_name" = Some v →
          v ∈ [PyStr "voc"; PyStr "coco"; PyStr "cityscapes"; PyEmptyList])
  ∧ (∀ k v, k ∈ ["batch_size"; "num_iterations"; "num_epochs"] →
            opt !! k = Some v → v = PyEmptyList ∨ ∃ z, v = PyInt z).
Proof.
  intros Hp.
  assert (∀ k v, opt !! k = Some v → parsed_value k v) as Hparsed.
  { unfold Argparse.parse_args in Hp.
    destruct (Argparse.patterns train_parser argv) as [ps|] eqn:Hps; [|discriminate].
    destruct (Argparse.consume ps (Argparse.defaults train_parser) [] [])
      as [[[ns seen] extras]|] eqn:Hc; [|discriminate].
    destruct (Argparse.convert_defaults train_parser seen ns) as [ns'|] eqn:Hd;
      [|discriminate].
    destruct extras; [|discriminate]. injection Hp as <-.
    eapply convert_defaults_parsed; [done| |exact Hd].
    eapply consume_parsed; [|apply defaults_parsed|exact Hc].
    intros s a os ea Hin. by eapply patterns_store. }
  split; [|split].
  - intros k. split; [|by eapply parse_args_attributes].
    intros [v Hv]. destruct (Hparsed k v Hv) as [[-> _]|[Hk _]].
    + apply list_elem_of_here.
    + by apply list_elem_of_further.
  - intros v Hv. destruct (Hparsed _ v Hv) as [[_ H]|[Hk _]]; [done|].
    repeat (apply elem_of_cons in Hk as [[=]|Hk]). by apply elem_of_nil in Hk.
  - intros k v Hk Hv. destruct (Hparsed k v Hv) as [[-> _]|[_ H]]; [|done].
    repeat (apply elem_of_cons in Hk as [[=]|Hk]). by apply elem_of_nil in Hk.
Qed.

End CommandLineOutcome.

(** ** The script as a whole *)

Section MainOutcome.
Context `{DU : DcaseUtil}.

(** X15.  Whatever the command line and the state it starts in, the script
    does not get past line 35 and writes nothing: it exits in [parse_args]
    with status 0 or 2, the state untouched, or it stops at the first call
    of [utils.load_data] with the [TypeError] of the keyword [shuffle],
    [results] holding its six empty lists. *)
Theorem main_outcome (argv : list string) (σ : script_state) :
  (∃ code, (code = 0 ∨ code = 2) ∧ main argv σ = (Raise (SystemExit code), σ))
  ∨ main argv σ
    = (Raise (TypeError "load_data() got an unexpected keyword argument 'shuffle'"),
       {| results := empty_results; best_acc := best_acc σ;
          files := files σ; saved := saved σ |}).
Proof.
  destruct (Argparse.parse_args train_parser argv) as [opt|e] eqn:Hp.
  - right. unfold main.
    rewrite (bind_Return _ _ opt σ σ); [|unfold lift; by rewrite Hp].
    destruct (getattr_namespace_Return opt "data_name") as [v1 H1];
      [eapply parse_args_attributes; [exact Hp|set_solver]|].
    destruct (getattr_namespace_Return opt "batch_size") as [v2 H2];
      [eapply parse_args_attributes; [exact Hp|set_solver]|].
    destruct (getattr_namespace_Return opt "num_iterations") as [v3 H3];
      [eapply parse_args_attributes; [exact Hp|set_solver]|].
    destruct (getattr_namespace_Return opt "num_epochs") as [v4 H4];
      [eapply parse_args_attributes; [exact Hp|set_solver]|].
    unfold bind, lift. rewrite H1, H2, H3, H4. reflexivity.
  - left. assert (e = SystemExit 0 ∨ e = SystemExit 2) as He.
    { pose proof (patterns_Raise train_parser argv) as H1.
      unfold Argparse.parse_args in Hp.
      destruct (Argparse.patterns train_parser argv) as [ps|e1];
        [|injection Hp as <-; right; by apply H1].
      destruct (Argparse.consume ps (Argparse.defaults train_parser) [] [])
        as [[[ns seen] extras]|e2] eqn:Hc;
        [|injection Hp as <-; by eapply consume_Raise].
      destruct (Argparse.convert_defaults train_parser seen ns) as [ns'|e3] eqn:Hd;
        [|injection Hp as <-; right; by eapply convert_defaults_Raise].
      destruct extras; [done|]. injection Hp as <-. by right. }
    unfold main, bind at 1, lift. rewrite Hp.
    destruct He as [-> | ->]; [exists 0|exists 2]; auto.
Qed.

End MainOutcome.

(** ** [load_data]: the other ways it ends *)

Section LoadDataErrors.
Context `{DU : DcaseUtil}.

Lemma filtered_cases ds data_type files :
  (∃ rows, filtered ds data_type files = Return rows)
  ∨ filtered ds data_type files = Raise (IndexError "list index out of range").
Proof.
  unfold filtered. induction files as [|f files IH]; simpl; [by eauto|].
  destruct (unique_scene_labels ds f) as [|l ls]; [by right|].
  destruct IH as [[rows ->]| ->]; [left; by eauto|by right].
Qed.

Lemma filtered_IndexError ds data_type files f :
  f ∈ files → unique_scene_labels ds f = [] →
  filtered ds data_type files = Raise (IndexError "list index out of range").
Proof.
  unfold filtered. induction files as [|g files IH]; [by intros ?%elem_of_nil|].
  intros [->|Hf]%elem_of_cons Hl; simpl.
  - by rewrite Hl.
  - destruct (unique_scene_labels ds g); [done|]. by rewrite IH.
Qed.

(** X16.  On a recognized name, when [initialize] and [process_data]
    return and a file of one of the three splits has no scene label,
    [load_data] raises the [IndexError] of lines 88, 93 or 98; the disk is
    as [process_data] left it. *)
Theorem load_data_IndexError (data_type batch_size : pyval) (ds : data_set)
    (fs fs1 fs2 : filesystem) (f : string) :
  select_data_set data_type = Return ds →
  initialize ds fs = (Return (), fs1) →
  process_data ds (format data_type) fs1 = (Return (), fs2) →
  f ∈ (validation_split ds).1 ++ (validation_split ds).2 ++ eval_unique_files ds →
  unique_scene_labels ds f = [] →
  load_data data_type batch_size fs
  = (Raise (IndexError "list index out of range"), fs2).
Proof.
  intros Hs Hi Hp Hf Hl. unfold load_data, bind at 1, lift. rewrite Hs.
  unfold load_data_from, bind at 1. rewrite Hi. unfold bind at 1. rewrite Hp.
  unfold bind, lift.
  destruct (filtered_cases ds (format data_type) (validation_split ds).1)
    as [[r1 H1]|H1]; rewrite H1; [|done].
  destruct (filtered_cases ds (format data_type) (validation_split ds).2)
    as [[r2 H2]|H2]; rewrite H2; [|done].
  destruct (filtered_cases ds (format data_type) (eval_unique_files ds))
    as [[r3 H3]|H3]; rewrite H3; [|done].
  rewrite !elem_of_app in Hf. destruct Hf as [Hf|[Hf|Hf]].
  - by rewrite (filtered_IndexError _ _ _ _ Hf Hl) in H1.
  - by rewrite (filtered_IndexError _ _ _ _ Hf Hl) in H2.
  - by rewrite (filtered_IndexError _ _ _ _ Hf Hl) in H3.
Qed.

Lemma bind_keywords_unexpected sg kwargs bound k v :
  (k, v) ∈ kwargs → k ∉ (PyCall.params sg).*1 →
  ∃ msg, PyCall.bind_keywords sg kwargs bound = Raise (TypeError msg).
Proof.
  revert bound. induction kwargs as [|[k' v'] kwargs IH]; intros bound;
    [by intros ?%elem_of_nil|].
  intros Hin Hk. simpl. case_decide as Hk'; [|by eauto].
  case_decide; [by eauto|]. apply IH; [|done].
  apply elem_of_cons in Hin as [[= -> ->]|Hin]; [done|done].
Qed.

(** X17.  [load_data] takes no keyword but the names of its two
    parameters: a call with any other keyword, whatever else it passes,
    raises a [TypeError] before the body is entered, and the disk is
    untouched. *)
Theorem load_data_rejects_keyword (args : list pyval) (kwargs : list (string * pyval))
    (k : string) (v : pyval) (fs : filesystem) :
  (k, v) ∈ kwargs → k ≠ "data_type" → k ≠ "batch_size" →
  ∃ msg, call_load_data args kwargs fs = (Raise (TypeError msg), fs).
Proof.
  intros Hin H1 H2. unfold call_load_data, PyCall.call, PyCall.bind_arguments.
  cbv zeta.
  destruct (bind_keywords_unexpected load_data_signature kwargs
              (zip (PyCall.params load_data_signature).*1 args) k v Hin) as [msg ->].
  { simpl. intros [->|[->|?%elem_of_nil]%elem_of_cons]%elem_of_cons; done. }
  by exists msg.
Qed.

End LoadDataErrors.

(** ** The name of a feature file *)

Section FeatureFileName.

Lemma string_app_assoc (a b c : string) : (a +:+ b) +:+ c = a +:+ (b +:+ c).
Proof.
  induction a as [|x a IH]; [done|].
  change (String x ((a +:+ b) +:+ c) = String x (a +:+ (b +:+ c))). by rewrite IH.
Qed.

Lemma string_app_nil_r (a : string) : a +:+ "" = a.
Proof.
  induction a as [|x a IH]; [done|]. change (String x (a +:+ "") = String x a).
  by rewrite IH.
Qed.

Lemma contains_app c a b :
  Argparse.contains c (a +:+ b) = Argparse.contains c a || Argparse.contains c b.
Proof.
  induction a as [|x a IH]; [done|].
  change (String x a +:+ b) with (String x (a +:+ b)). simpl.
  by destruct (decide (c = x)).
Qed.

Lemma basename_go_plain cur b :
  Argparse.contains "/" b = false → Str.basename_go cur b = String.rev cur +:+ b.
Proof.
  revert cur. induction b as [|c b IH]; intros cur; simpl.
  - by rewrite string_app_nil_r.
  - case_decide as Hc; [by rewrite decide_True by done|].
    rewrite decide_False by (intros ?; by apply Hc). intros Hb.
    rewrite IH by done. unfold String.rev. simpl.
    rewrite (rev_app_app cur (String c "")). by rewrite string_app_assoc.
Qed.

(** What precedes the last slash does not count. *)
Lemma basename_go_dir cur dir b :
  Argparse.contains "/" b = false →
  Str.basename_go cur (dir +:+ "/" +:+ b) = b.
Proof.
  intros Hb. revert cur. induction dir as [|c dir IH]; intros cur.
  - change ("" +:+ "/" +:+ b) with (String "/" b). simpl. by apply basename_go_plain.
  - change (String c dir +:+ "/" +:+ b) with (String c (dir +:+ "/" +:+ b)).
    simpl. case_decide; apply IH.
Qed.

Lemma replace_wav stem :
  Argparse.contains "." stem = false →
  Str.replace ".wav" ".cpickle" (stem +:+ ".wav") = stem +:+ ".cpickle".
Proof.
  unfold Str.replace. induction stem as [|c stem IH]; [reflexivity|].
  change (String c stem +:+ ".wav") with (String c (stem +:+ ".wav")).
  change (String c stem +:+ ".cpickle") with (String c (stem +:+ ".cpickle")).
  cbn [Argparse.contains Str.replace_go Str.startswith].
  destruct (decide ("."%char = c)) as [|Hc]; [done|]. intros Hs. by rewrite IH.
Qed.

Lemma rev_app_append a b acc :
  String.rev_app (a +:+ b) acc = String.rev_app b (String.rev_app a acc).
Proof.
  revert acc. induction a as [|x a IH]; intros acc; [done|].
  change (String x a +:+ b) with (String x (a +:+ b)). simpl. apply IH.
Qed.

Lemma endswith_slash_features data_type :
  Str.endswith_slash (Str.data_file data_type "features") = false.
Proof.
  unfold Str.endswith_slash, Str.data_file, String.rev.
  by rewrite !rev_app_append.
Qed.

(** X18.  For a recording [dir/stem.wav] whose stem has neither slash nor
    dot, the feature file is [data/<type>/features/stem.cpickle]: the
    directory of the recording is dropped, so that recordings of one name
    in two directories share a feature file. *)
Theorem feature_filename_of_wav (data_type dir stem : string) :
  Argparse.contains "/" stem = false →
  Argparse.contains "." stem = false →
  feature_filename (Str.data_file data_type "features") (dir +:+ "/" +:+ stem +:+ ".wav")
  = "data/" +:+ data_type +:+ "/features/" +:+ stem +:+ ".cpickle".
Proof.
  intros Hslash Hdot. unfold feature_filename, Str.basename.
  rewrite basename_go_dir by (by rewrite contains_app, Hslash).
  rewrite replace_wav by done. unfold Str.join.
  assert (Str.startswith "/" (stem +:+ ".cpickle") = false) as ->.
  { destruct stem as [|c stem]; [done|].
    change (String c stem +:+ ".cpickle") with (String c (stem +:+ ".cpickle")).
    cbn [Argparse.contains Str.startswith] in *.
    by destruct (decide ("/"%char = c)). }
  rewrite decide_False by done. rewrite endswith_slash_features.
  unfold Str.data_file. rewrite !string_app_assoc. reflexivity.
Qed.

End FeatureFileName.

(** ** [process_data]: features are extracted once *)

Section ExtractedOnce.
Context `{DU : DcaseUtil}.

Lemma extract_features_creates ds data_type (fs fs' : filesystem) r :
  extract_features ds data_type fs = (r, fs') →
  is_Some (fs' !! Str.data_file data_type "features").
Proof.
  unfold extract_features, bind at 1, path_exists.
  destruct (bool_decide (is_Some (fs !! Str.data_file data_type "features"))) eqn:E;
    cbn [negb].
  - intros [= <- <-]. by apply bool_decide_eq_true in E.
  - unfold bind at 1. intros Hloop.
    assert (keeps_paths (for_each (train_files ds None) (λ audio_filename,
              let* a := AudioContainer_load audio_filename in
              write (feature_filename (Str.data_file data_type "features") audio_filename)
                    (FeaturePickle (extract a))))) as Hk.
    { apply keeps_paths_for_each. intros x. apply keeps_paths_bind.
      - apply keeps_paths_reader. intros fs0. unfold AudioContainer_load.
        by repeat case_match.
      - intros a. apply keeps_paths_write. }
    eapply Hk; [exact Hloop|].
    apply (Path_create_creates (Str.data_file data_type "features") fs). done.
Qed.

Lemma compute_normalizer_writes_factors ds data_type :
  writes_only (λ p, p = norm_factors_path data_type) (compute_normalizer ds data_type).
Proof.
  unfold compute_normalizer.
  apply writes_only_bind; [by apply writes_only_reader|].
  intros b. destruct (negb b); [|by apply writes_only_reader].
  apply writes_only_bind; [|intros n; by apply writes_only_write].
  apply writes_only_for_fold. intros n x. apply writes_only_bind.
  - apply writes_only_reader. intros fs. unfold FeatureContainer_load.
    by repeat case_match.
  - intros f. by apply writes_only_reader.
Qed.

(** X19.  After a run of [process_data], whether it returned or raised,
    the features directory exists, so that no later run extracts a feature:
    the first step of a second run does nothing, and the second run changes
    no path but the file of the factors. *)
Theorem features_extracted_once (ds : data_set) (data_type : string)
    (fs fs' : filesystem) (r : result unit) :
  process_data ds data_type fs = (r, fs') →
  is_Some (fs' !! Str.data_file data_type "features")
  ∧ extract_features ds data_type fs' = (Return (), fs')
  ∧ process_data ds data_type fs' = compute_normalizer ds data_type fs'
  ∧ ∀ r2 fs2, process_data ds data_type fs' = (r2, fs2) →
      ∀ p, p ≠ norm_factors_path data_type → fs2 !! p = fs' !! p.
Proof.
  intros Hrun.
  assert (is_Some (fs' !! Str.data_file data_type "features")) as Hdir.
  { unfold process_data, bind in Hrun.
    destruct (extract_features ds data_type fs) as [[[]|e] fs1] eqn:He.
    - eapply keeps_paths_compute_normalizer; [exact Hrun|].
      by eapply extract_features_creates.
    - injection Hrun as <- <-. by eapply extract_features_creates. }
  pose proof (extract_features_skips ds data_type fs' Hdir) as Hskip.
  assert (process_data ds data_type fs' = compute_normalizer ds data_type fs') as Hsame.
  { unfold process_data, bind. by rewrite Hskip. }
  split; [done|]. split; [done|]. split; [done|].
  intros r2 fs2. rewrite Hsame. intros Hc p Hp.
  by eapply compute_normalizer_writes_factors.
Qed.

Lemma accumulate_loop_stops (features_path : string) (pre post : list string)
    (a : string) (fs : filesystem) (n : normalizer) :
  (∀ x, x ∈ pre →
     ∃ f, fs !! feature_filename features_path x = Some (File (FeaturePickle f))) →
  (∀ f, fs !! feature_filename features_path a ≠ Some (File (FeaturePickle f))) →
  for_fold (pre ++ a :: post) n (λ n audio_filename,
    let feature_filename := feature_filename features_path audio_filename in
    let* f := FeatureContainer_load feature_filename in
    ret (accumulate n f)) fs
  = (Raise (IOError (feature_filename features_path a)), fs).
Proof.
  intros Hpre Ha. revert n. induction pre as [|x pre IH]; intros n; simpl.
  - unfold bind at 1. unfold bind at 1, FeatureContainer_load.
    destruct (fs !! feature_filename features_path a) as [[|[| | | |]]|] eqn:E;
      try done. by destruct (Ha f).
  - destruct (Hpre x (list_elem_of_here _ _)) as [f Hx].
    unfold bind at 1. unfold bind at 1, FeatureContainer_load. rewrite Hx.
    apply IH. intros y Hy. apply Hpre. by apply list_elem_of_further.
Qed.

(** X20.  With the features directory in place and the factors missing,
    the first file of the first fold whose feature file is not on the disk
    ends [process_data] with the [IOError] of that feature file: the
    missing feature is not extracted, and nothing is written. *)
Theorem process_data_missing_feature (ds : data_set) (data_type : string)
    (fs : filesystem) (pre post : list string) (a : string) :
  is_Some (fs !! Str.data_file data_type "features") →
  fs !! norm_factors_path data_type = None →
  train_files ds (Some 1) = pre ++ a :: post →
  (∀ x, x ∈ pre →
     ∃ f, fs !! feature_filename (Str.data_file data_type "features") x
          = Some (File (FeaturePickle f))) →
  (∀ f, fs !! feature_filename (Str.data_file data_type "features") a
        ≠ Some (File (FeaturePickle f))) →
  process_data ds data_type fs
  = (Raise (IOError (feature_filename (Str.data_file data_type "features") a)), fs).
Proof.
  intros Hdir Hnorm Hfiles Hpre Ha. unfold process_data, bind at 1.
  rewrite extract_features_skips by done.
  unfold compute_normalizer, bind at 1, path_exists.
  rewrite bool_decide_eq_false_2 by (rewrite Hnorm; by intros [? ?]).
  cbn [negb]. unfold bind at 1. rewrite Hfiles.
  pose proof (accumulate_loop_stops _ pre post a fs Normalizer_new Hpre Ha) as Hstop.
  cbv zeta in Hstop |- *. by rewrite Hstop.
Qed.

End ExtractedOnce.

(** ** The command line takes no positional argument *)

Section NoPositional.

Lemma consume_extras ps ns seen extras ns' seen' extras' :
  Argparse.consume ps ns seen extras = Return (ns', seen', extras') →
  extras ≠ [] → extras' ≠ [].
Proof.
  remember (length ps) as n eqn:Hn. revert ps ns seen extras Hn.
  induction n as [n IH] using lt_wf_ind. intros ps ns seen extras Hn.
  destruct ps as [|[s pat] rest]; [by intros [= _ _ <-]|].
  assert (∀ x, extras ≠ [] → extras ++ [x] ≠ []) as Hsnoc.
  { intros x _ Happ. by apply app_nil in Happ as [_ ?]. }
  simpl in Hn. destruct pat as [| |[[|a]|] option_string [explicit_arg|]];
    cbn [Argparse.consume];
    try (by intros Hc He; eapply (IH (length rest)); [lia|done|exact Hc|apply Hsnoc]);
    try discriminate.
  - destruct (Argparse.get_values a explicit_arg) as [v|]; [|discriminate].
    intros Hc He. eapply (IH (length rest)); [lia|done|exact Hc|done].
  - destruct rest as [|[s' [| |]] rest']; try discriminate.
    destruct (Argparse.get_values a s') as [v|]; [|discriminate].
    intros Hc He. eapply (IH (length rest')); [simpl in Hn; lia|done|exact Hc|done].
Qed.

Lemma parse_optional_positional p s :
  Str.startswith "-" s = false → Argparse.parse_optional p s = Return None.
Proof.
  destruct s as [|c s]; [done|]. simpl. intros Hc. unfold Argparse.parse_optional.
  rewrite bool_decide_eq_false_2; [done|]. intros ->. by rewrite decide_True in Hc.
Qed.

(** X21.  The script takes no positional argument: a command line whose
    first token does not begin with a dash is never accepted, and the
    process exits with status 0 (a later request for help) or 2. *)
Theorem parse_args_no_positional (s : string) (argv : list string) :
  Str.startswith "-" s = false →
  ∃ code, (code = 0 ∨ code = 2)
          ∧ Argparse.parse_args train_parser (s :: argv) = Raise (SystemExit code).
Proof.
  intros Hs.
  assert (∀ e, e = SystemExit 0 ∨ e = SystemExit 2 →
               ∃ code, (code = 0 ∨ code = 2)
                       ∧ @Raise Argparse.namespace e = Raise (SystemExit code)) as Hexit.
  { intros e [-> | ->]; [exists 0|exists 2]; auto. }
  unfold Argparse.parse_args. rewrite patterns_cons by (intros ->; discriminate).
  rewrite (parse_optional_positional _ _ Hs).
  destruct (Argparse.patterns train_parser argv) as [ps|e] eqn:Hp.
  2:{ apply Hexit. right. by eapply patterns_Raise. }
  cbn [Argparse.consume].
  destruct (Argparse.consume ps (Argparse.defaults train_parser) [] ([] ++ [s]))
    as [[[ns seen] extras]|e] eqn:Hc.
  2:{ apply Hexit. by eapply consume_Raise. }
  destruct (Argparse.convert_defaults train_parser seen ns) as [ns'|e] eqn:Hd.
  2:{ apply Hexit. right. by eapply convert_defaults_Raise. }
  destruct extras as [|x extras]; [|apply Hexit; by right].
  by destruct (consume_extras _ _ _ _ _ _ _ Hc).
Qed.

End NoPositional.

(** ** [MusicData] reads and does not write *)

Section MusicDataReads.
Context `{DU : DcaseUtil}.

Lemma getitem_seq_Raise {A} (a : list A) index e :
  getitem_seq a index = Raise e → e = IndexError "index out of bounds".
Proof. unfold getitem_seq. cbv zeta. repeat case_match; congruence. Qed.

(** X22.  Neither the constructor of [MusicData] nor [__getitem__] changes
    the disk, however they end.  The constructor raises nothing but the
    [TypeError] of a list and the [IOError] of the factors, never a
    [KeyError]; [__getitem__] raises nothing but an [IndexError] and the
    [IOError] of a feature file. *)
Theorem MusicData_reads_only (fs fs' : filesystem) :
  (∀ dl r, MusicData_init dl fs = (r, fs') →
     fs' = fs
     ∧ ∀ e, r = Raise e →
         e = TypeError "list indices must be integers or slices, not str"
         ∨ e = IOError "norm_factors.cpickle")
  ∧ (∀ self index r, MusicData_getitem self index fs = (r, fs') →
       fs' = fs
       ∧ ∀ e, r = Raise e →
           e = IndexError "index out of bounds" ∨ ∃ path, e = IOError path).
Proof.
  split.
  - intros [rows|rows] r.
    + destruct (MusicData_init_run rows) as (tg & _ & _ & ->).
      unfold bind, Normalizer_load.
      destruct (fs !! "norm_factors.cpickle") as [[|[| |n| |]]|];
        intros [= <- <-]; (split; [done|]); intros e [= <-]; auto.
    + intros [= <- <-]. split; [done|]. intros e [= <-]. auto.
  - intros self index r. unfold MusicData_getitem, bind at 1, lift.
    destruct (getitem_seq (samples self) index) as [path|e0] eqn:Hp.
    2:{ intros [= <- <-]. split; [done|]. intros e [= <-]. left.
        by eapply getitem_seq_Raise. }
    unfold bind at 1, FeatureContainer_load.
    destruct (fs !! path) as [[|[|f| | |]]|];
      try (intros [= <- <-]; (split; [done|]); intros e [= <-]; right; by eexists).
    unfold bind, lift.
    destruct (getitem_seq (targets self) index) as [t|e0] eqn:Ht.
    + intros [= <- <-]. split; [done|]. by intros e.
    + intros [= <- <-]. split; [done|]. intros e [= <-]. left.
      by eapply getitem_seq_Raise.
Qed.

End MusicDataReads.

(** * The further properties on the example *)

Lemma load_data_TypeError_witness :
  load_data (DU := Toy.libraries) (PyStr "DCASE2018A") (PyInt 32) Toy.disk
  = (Raise (TypeError "list indices must be integers or slices, not str"), Toy.processed).
Proof.
  apply (load_data_TypeError (DU := Toy.libraries) (PyStr "DCASE2018A") (PyInt 32)
           Toy.corpus Toy.disk Toy.disk Toy.processed).
  - vm_compute. reflexivity.
  - reflexivity.
  - vm_compute. reflexivity.
  - intros f _. simpl. by case_decide.
Defined.

Lemma process_data_footprint_witness :
  Toy.processed !! "audio/a.wav" = Toy.disk !! "audio/a.wav"
  ∧ is_Some (Toy.processed !! "audio/b.wav").
Proof.
  destruct (process_data_footprint (DU := Toy.libraries) Toy.corpus "DCASE2018A"
              Toy.disk Toy.processed (Return ())) as (Hout & Hkeep & _).
  - vm_compute. reflexivity.
  - split.
    + apply Hout. unfold own_path. apply (bool_decide_unpack _). vm_compute. exact I.
    + apply Hkeep. vm_compute. eexists. reflexivity.
Defined.

Lemma process_data_on_fresh_disk_witness :
  ∃ fs', process_data (DU := Toy.libraries) Toy.corpus "DCASE2018A" Toy.disk
         = (Return (), fs')
       ∧ is_Some (fs' !! norm_factors_path "DCASE2018A").
Proof.
  destruct (process_data_on_fresh_disk (DU := Toy.libraries) Toy.corpus "DCASE2018A"
              Toy.disk) as (fs' & Hrun & _ & Hnorm & _).
  - vm_compute. reflexivity.
  - intros a Ha. vm_compute in Ha.
    apply elem_of_cons in Ha as [->|Ha]; [eexists; vm_compute; reflexivity|].
    apply elem_of_cons in Ha as [->|Ha]; [eexists; vm_compute; reflexivity|].
    by apply elem_of_nil in Ha.
  - intros a Ha. vm_compute in Ha.
    apply elem_of_cons in Ha as [->|Ha]; [vm_compute; reflexivity|].
    apply elem_of_cons in Ha as [->|Ha]; [vm_compute; reflexivity|].
    by apply elem_of_nil in Ha.
  - intros a Ha. vm_compute in Ha. apply list_elem_of_singleton in Ha as ->.
    vm_compute. apply list_elem_of_here.
  - exists fs'. split; [exact Hrun|exact Hnorm].
Defined.

Lemma normalizer_of_first_fold_witness :
  compute_normalizer (DU := Toy.libraries) Toy.corpus "DCASE2018A" Toy.extracted
  = (Return (),
     <[norm_factors_path "DCASE2018A" := File (NormalizerPickle [1; 2; 3])]> Toy.extracted).
Proof.
  destruct (normalizer_of_first_fold (DU := Toy.libraries) Toy.corpus "DCASE2018A"
              Toy.extracted [[1; 2; 3]]) as [Hc _].
  - vm_compute. reflexivity.
  - constructor; [vm_compute; reflexivity|constructor].
  - exact Hc.
Defined.

Lemma label2index_monotone_witness :
  ((0 < 1)%nat ↔ String.le "airport" "bus" ∧ "airport" ≠ "bus")
  ∧ (0%nat = 1%nat ↔ "airport" = "bus").
Proof.
  apply (label2index_monotone (file_label <$> Toy.table) "airport" "bus" 0 1);
    vm_compute; reflexivity.
Defined.

Lemma MusicData_getitem_index_witness :
  MusicData_getitem (DU := Toy.libraries) Toy.music_data 3 Toy.prepared
  = (Raise (IndexError "index out of bounds"), Toy.prepared)
  ∧ MusicData_getitem (DU := Toy.libraries) Toy.music_data (-1) Toy.prepared
    = MusicData_getitem (DU := Toy.libraries) Toy.music_data 2 Toy.prepared.
Proof.
  split.
  - destruct (MusicData_getitem_index (DU := Toy.libraries) Toy.music_data 3 Toy.prepared)
      as [Hout _]; [reflexivity|].
    apply Hout. right. vm_compute. discriminate.
  - destruct (MusicData_getitem_index (DU := Toy.libraries) Toy.music_data (-1)
                Toy.prepared) as [_ Hneg]; [reflexivity|].
    apply Hneg. vm_compute. split; [discriminate|reflexivity].
Defined.

Lemma epoch_loop_stops_in_first_epoch_witness :
  epoch_loop (DU := Toy.libraries) utils_py (PyStr "voc") 3 Toy.meters (ready ∅)
  = (Raise (AttributeError "module 'utils' has no attribute 'ProbAM'"),
     {| results := results_after Toy.meters 1; best_acc := 0; files := ∅; saved := [] |}).
Proof.
  destruct (epoch_loop_stops_in_first_epoch (DU := Toy.libraries) (PyStr "voc") 3
              Toy.meters ∅) as [_ Hzero].
  - lia.
  - apply Hzero. vm_compute. discriminate.
Defined.

Lemma epoch_loop_no_epoch_witness :
  epoch_loop (DU := Toy.libraries) Toy.utils_with_ProbAM (PyStr "voc") (-2) Toy.meters
    Toy.trained
  = (Return (), {| results := results Toy.trained; best_acc := 0;
                   files := files Toy.trained; saved := saved Toy.trained |}).
Proof.
  apply (epoch_loop_no_epoch (DU := Toy.libraries) Toy.utils_with_ProbAM (PyStr "voc")
           (-2) Toy.meters Toy.trained).
  lia.
Defined.

Lemma epoch_loop_footprint_witness :
  (results Toy.trained).*1 = (results (ready (DU := Toy.libraries) ∅)).*1
  ∧ saved (ready (DU := Toy.libraries) ∅) `prefix_of` saved Toy.trained
  ∧ files Toy.trained !! "data" = None.
Proof.
  destruct (epoch_loop_footprint (DU := Toy.libraries) Toy.utils_with_ProbAM
              (PyStr "voc") 3 Toy.meters (ready ∅) Toy.trained (Return ()))
    as (Hfiles & Hkeys & Hsaved & _).
  - vm_compute. reflexivity.
  - split; [exact Hkeys|]. split; [exact Hsaved|].
    rewrite Hfiles; [reflexivity|discriminate|discriminate].
Defined.

Lemma checkpoint_holds_best_model_witness :
  files Toy.halted !! checkpoint_path (PyStr "voc") = Some (File (StateDict 1))
  ∧ best_acc Toy.halted = acc Toy.rising 1.
Proof.
  pose proof (checkpoint_holds_best_model (DU := Toy.libraries) utils_py
                (PyStr "voc") Toy.rising Toy.workdir 3
                (Raise (AttributeError "module 'utils' has no attribute 'ProbAM'"))
                Toy.halted) as Hbest.
  assert (last (saved Toy.halted) = Some 1%nat) as Hlast by (vm_compute; reflexivity).
  rewrite Hlast in Hbest.
  destruct Hbest as (_ & Hfile & Hacc & _); [vm_compute; reflexivity|].
  split; [exact Hfile|exact Hacc].
Defined.

Lemma parse_args_exit_status_witness :
  SystemExit 0 = SystemExit 0 ∨ SystemExit 0 = SystemExit 2.
Proof.
  apply (parse_args_exit_status train_parser ["--num_epochs"; "5"; "-h"] (SystemExit 0)).
  vm_compute. reflexivity.
Defined.

Lemma parse_args_namespace_witness :
  PyEmptyList ∈ [PyStr "voc"; PyStr "coco"; PyStr "cityscapes"; PyEmptyList].
Proof.
  destruct (parse_args_namespace ["--data_name=--"]
              (<["data_name" := PyEmptyList]> (Argparse.defaults train_parser)))
    as (_ & Hname & _).
  - vm_compute. reflexivity.
  - apply Hname. vm_compute. reflexivity.
Defined.

Lemma load_data_IndexError_witness :
  load_data (DU := Toy.unlabelled) (PyStr "DCASE2018A") (PyInt 32) Toy.disk
  = (Raise (IndexError "list index out of range"), Toy.processed).
Proof.
  apply (load_data_IndexError (DU := Toy.unlabelled) (PyStr "DCASE2018A") (PyInt 32)
           Toy.corpus Toy.disk Toy.disk Toy.processed "audio/b.wav").
  - vm_compute. reflexivity.
  - reflexivity.
  - vm_compute. reflexivity.
  - vm_compute. apply list_elem_of_further, list_elem_of_here.
  - reflexivity.
Defined.

Lemma load_data_rejects_keyword_witness :
  ∃ msg, call_load_data (DU := Toy.libraries)
           [PyStr "DCASE2018A"; PyStr "train"; PyInt 64] [("shuffle", PyBool true)] Toy.disk
         = (Raise (TypeError msg), Toy.disk).
Proof.
  apply (load_data_rejects_keyword (DU := Toy.libraries)
           [PyStr "DCASE2018A"; PyStr "train"; PyInt 64] [("shuffle", PyBool true)]
           "shuffle" (PyBool true) Toy.disk).
  - apply list_elem_of_here.
  - discriminate.
  - discriminate.
Defined.

Lemma feature_filename_of_wav_witness :
  feature_filename (Str.data_file "DCASE2018A" "features")
    ("raw_data/audio" +:+ "/" +:+ "airport-barcelona-0-0-a" +:+ ".wav")
  = "data/" +:+ "DCASE2018A" +:+ "/features/" +:+ "airport-barcelona-0-0-a" +:+ ".cpickle".
Proof.
  apply (feature_filename_of_wav "DCASE2018A" "raw_data/audio" "airport-barcelona-0-0-a");
    reflexivity.
Defined.

Lemma features_extracted_once_witness :
  is_Some (Toy.interrupted !! Str.data_file "DCASE2018A" "features")
  ∧ extract_features (DU := Toy.libraries) Toy.corpus "DCASE2018A" Toy.interrupted
    = (Return (), Toy.interrupted).
Proof.
  destruct (features_extracted_once (DU := Toy.libraries) Toy.corpus "DCASE2018A"
              (delete "audio/b.wav" Toy.disk) Toy.interrupted
              (Raise (IOError "audio/b.wav"))) as (Hdir & Hskip & _).
  - vm_compute. reflexivity.
  - split; [exact Hdir|exact Hskip].
Defined.

Lemma process_data_missing_feature_witness :
  process_data (DU := Toy.libraries) Toy.corpus "DCASE2018A" Toy.stale
  = (Raise (IOError (feature_filename (Str.data_file "DCASE2018A" "features")
                       "audio/a.wav")), Toy.stale).
Proof.
  apply (process_data_missing_feature (DU := Toy.libraries) Toy.corpus "DCASE2018A"
           Toy.stale [] [] "audio/a.wav").
  - vm_compute. eexists. reflexivity.
  - vm_compute. reflexivity.
  - reflexivity.
  - intros x Hx. by apply elem_of_nil in Hx.
  - intros f. vm_compute. discriminate.
Defined.

Lemma parse_args_no_positional_witness :
  ∃ code, (code = 0 ∨ code = 2)
          ∧ Argparse.parse_args train_parser ["train"; "--num_epochs"; "5"]
            = Raise (SystemExit code).
Proof.
  apply (parse_args_no_positional "train" ["--num_epochs"; "5"]). reflexivity.
Defined.

Lemma MusicData_reads_only_witness :
  Toy.processed = Toy.processed
  ∧ (IOError "norm_factors.cpickle"
     = TypeError "list indices must be integers or slices, not str"
     ∨ IOError "norm_factors.cpickle" = IOError "norm_factors.cpickle").
Proof.
  destruct (MusicData_reads_only (DU := Toy.libraries) Toy.processed Toy.processed)
    as [Hinit _].
  destruct (Hinit (DataFrame Toy.table) (Raise (IOError "norm_factors.cpickle")))
    as [Hsame Hexn].
  - vm_compute. reflexivity.
  - split; [exact Hsame|]. by apply Hexn.
Defined.
